(** * resume_parser.py: the response normaliser and the screening session

    A model of [src/resume_parser.py].  The program reads a resume, sends
    it with a job description to a hosted model and shows the reply.  What
    it computes itself is the normalisation of the reply
    ([parse_gemini_response]: strict JSON first, a regular-expression
    extraction when that fails) and the order in which failures of the
    surrounding calls are caught.

    Python values are modelled as follows.
    - A [str] is the list of its code points.
    - The regular expressions of [extract_value] and [extract_list] are
      written with a few backtracking combinators that try the
      alternatives in the order Python's [re] does.
    - [json.loads], [int] and the string methods are Python's own; they are
      modelled here as far as the program reaches them.
    - Calls that leave the process (LlamaParse, pdfminer, Gemini) are
      oracles of a [world]; the UI calls append to a log; the files written
      and removed live in a store, and whether the operating system lets
      a file be written or removed is an oracle of the [world] too. *)

From Stdlib Require Import List ZArith NArith Ascii String Bool Lia.
Import ListNotations.

Set Implicit Arguments.

#[local] Open Scope N_scope.

(** ** Text *)

Definition char := N.
Definition str := list char.

(** The [str] of a literal. *)
Definition py (s : string) : str := map N_of_ascii (list_ascii_of_string s).

(** The same, with each apostrophe of the literal standing for a double
    quote, to write JSON texts. *)
Definition pyq (s : string) : str :=
  map (fun c => if c =? 39 then 34 else c) (py s).

Definition ch (a : ascii) : char := N_of_ascii a.

Definition in_range (lo hi c : char) : bool := (lo <=? c) && (c <=? hi).

Definition char_in (cs : str) (c : char) : bool := existsb (N.eqb c) cs.

(** [str.isspace] on one character, which is also [\s] of a [str] pattern:
    U+0009..000D, U+001C..0020, U+0085, U+00A0, U+1680, U+2000..200A,
    U+2028, U+2029, U+202F, U+205F, U+3000. *)
Definition isspace (c : char) : bool :=
  in_range 9 13 c || in_range 28 32 c || (c =? 133) || (c =? 160)
  || (c =? 5760) || in_range 8192 8202 c || (c =? 8232) || (c =? 8233)
  || (c =? 8239) || (c =? 8287) || (c =? 12288).

Fixpoint lstrip_by (p : char -> bool) (s : str) : str :=
  match s with
  | c :: r => if p c then lstrip_by p r else s
  | [] => []
  end.

Definition rstrip_by (p : char -> bool) (s : str) : str :=
  rev (lstrip_by p (rev s)).

Definition strip_by (p : char -> bool) (s : str) : str :=
  rstrip_by p (lstrip_by p s).

(** [s.strip()] *)
Definition strip (s : str) : str := strip_by isspace s.

(** [s.strip(chars)] *)
Definition strip_chars (chars s : str) : str := strip_by (char_in chars) s.

(** [s.startswith(p)] *)
Fixpoint startswith (p s : str) : bool :=
  match p, s with
  | [], _ => true
  | a :: p', b :: s' => (a =? b) && startswith p' s'
  | _ :: _, [] => false
  end.

(** [s[a:-b]] for [b > 0]: the stop index is [len(s) - b], or 0 when that
    is negative, and the slice is empty when the start is not before it. *)
Definition slice_inner (a b : nat) (s : str) : str :=
  skipn a (firstn (List.length s - b) s).

(** [s.split(sep)] for a separator of one character. *)
Fixpoint split (sep : char) (s : str) : list str :=
  match s with
  | [] => [[]]
  | c :: r =>
      if c =? sep then [] :: split sep r
      else match split sep r with
           | h :: t => (c :: h) :: t
           | [] => [[c]]
           end
  end.

(** ** Regular expressions

    A pattern read at one position of the text is a function from the
    text that is left to the captured group, [None] when it does not
    match there.  Each combinator takes the rest of the pattern as its
    continuation, so a failure further right makes a greedy repetition
    give one character back, as [re] does. *)

Definition matcher := str -> option str.

(** A literal text. *)
Fixpoint lit (p : str) (k : matcher) (s : str) : option str :=
  match p with
  | [] => k s
  | a :: p' =>
      match s with
      | b :: s' => if a =? b then lit p' k s' else None
      | [] => None
      end
  end.

(** Greedy repetition of a character class: the longest run first, then
    shorter ones.  [got] is the run taken so far, last character first;
    the continuation gets the run and the text after it. *)
Fixpoint greedy (cls : char -> bool) (k : str -> matcher) (got : str) (s : str)
  : option str :=
  match s with
  | c :: s' =>
      if cls c then
        match greedy cls k (c :: got) s' with
        | Some r => Some r
        | None => k (rev got) s
        end
      else k (rev got) s
  | [] => k (rev got) s
  end.

(** [C*] *)
Definition star (cls : char -> bool) (k : matcher) : matcher :=
  greedy cls (fun _ => k) [].

(** [(C+)]: a capturing group of one character or more. *)
Definition plus_group (cls : char -> bool) (k : str -> matcher) : matcher :=
  greedy cls (fun g => match g with [] => fun _ => None | _ :: _ => k g end) [].

(** [re.search]: the first position, from the left, where the pattern
    matches; the end of the text is a position too. *)
Fixpoint re_search (m : matcher) (s : str) : option str :=
  match m s with
  | Some g => Some g
  | None =>
      match s with
      | [] => None
      | _ :: s' => re_search m s'
      end
  end.

Definition QUOTE : char := 34.
Definition APOSTROPHE : char := Eval cbv in ch "'".
Definition SPACE : char := Eval cbv in ch " ".
Definition COMMA : char := Eval cbv in ch ",".
Definition COLON : char := Eval cbv in ch ":".
Definition NEWLINE : char := 10.
Definition LBRACKET : char := Eval cbv in ch "[".
Definition RBRACKET : char := Eval cbv in ch "]".
Definition LBRACE : char := Eval cbv in ch "{".
Definition RBRACE : char := Eval cbv in ch "}".

(** ** The interpreter's settings

    Three facts about the running interpreter decide what [int] and
    [json.loads] do on unusual texts, and none of them is in the
    repository:
    - how many nested JSON containers the scanner may enter before the
      recursion guard raises [RecursionError]: the recursion limit less
      the frames that are on the stack already;
    - [sys.get_int_max_str_digits()], the longest run of decimal digits
      [int] converts (0 switches the limit off);
    - the Unicode table of decimal digits, [Py_UNICODE_TODECIMAL], on the
      characters from U+0080 on (a value from 0 to 9). *)
Record runtime := {
  recursion_limit : nat;
  int_max_str_digits : nat;
  unicode_decimal : char -> option N
}.

(** CPython's defaults for the two limits, [sys.getrecursionlimit()] on
    an empty stack and [sys.get_int_max_str_digits()].  The digit table
    is empty: it is consulted only on characters from U+0080 on. *)
Definition default_runtime : runtime :=
  {| recursion_limit := 1000;
     int_max_str_digits := 4300;
     unicode_decimal := fun _ => None |}.

(** ** Exceptions and results *)

Inductive exn :=
| JSONDecodeError
| ValueError
| RecursionError
| AttributeError
| TypeError
| IndexError
| FileNotFoundError
| OSError                     (** the operating system refuses a file operation *)
| ExternalError (msg : str)   (** raised inside an external library *)
| StopException.              (** [st.stop()]: Streamlit's script control *)

(** [isinstance(e, Exception)]: Streamlit's control exception derives
    from [BaseException] only. *)
Definition is_Exception (e : exn) : bool :=
  match e with
  | StopException => false
  | _ => true
  end.

Definition is_JSONDecodeError (e : exn) : bool :=
  match e with
  | JSONDecodeError => true
  | _ => false
  end.

Inductive outcome (A : Type) :=
| Return (a : A)
| Raise (e : exn).
Arguments Return {A} a.
Arguments Raise {A} e.

(** ** [int] *)

Definition isdigit (c : char) : bool := in_range 48 57 c.
Definition UNDERSCORE : char := Eval cbv in ch "_".
Definition PLUS : char := Eval cbv in ch "+".
Definition MINUS : char := Eval cbv in ch "-".
Definition QUESTION : char := Eval cbv in ch "?".

(** [Py_ISSPACE]: the white space of the C locale. *)
Definition c_isspace (c : char) : bool := in_range 9 13 c || (c =? 32).

(** The digits of a decimal literal, underscores allowed between two
    digits: the value read so far, the number of digits, and the text
    after the literal.  [prev] tells whether the character before was an
    underscore. *)
Fixpoint scan_digits (prev : bool) (acc : Z) (n : nat) (s : str)
  : option (Z * nat * str) :=
  match s with
  | c :: r =>
      if isdigit c then scan_digits false (10 * acc + Z.of_N (c - 48))%Z (S n) r
      else if c =? UNDERSCORE then
        if prev then None else scan_digits true acc n r
      else if prev then None else Some (acc, n, s)
  | [] => if prev then None else Some (acc, n, s)
  end.

Definition over_digit_limit (max n : nat) : bool :=
  (0 <? max)%nat && (max <? n)%nat.

(** [PyLong_FromString(buf, &end, 10)] with [end] required to be the end
    of the buffer: white space, a sign, the digits, white space.  [None]
    is [ValueError]. *)
Definition long_from_string (max_digits : nat) (buf : str) : option Z :=
  let s := lstrip_by c_isspace buf in
  let '(neg, s) :=
    match s with
    | c :: r => if c =? PLUS then (false, r)
                else if c =? MINUS then (true, r) else (false, s)
    | [] => (false, s)
    end in
  match s with
  | c :: _ =>
      if c =? UNDERSCORE then None
      else
        match scan_digits false 0%Z 0 s with
        | Some (v, n, rest) =>
            match n, lstrip_by c_isspace rest with
            | S _, [] =>
                if over_digit_limit max_digits n then None
                else Some (if neg then (- v)%Z else v)
            | _, _ => None
            end
        | None => None
        end
  | [] => None
  end.

(** [_PyUnicode_TransformDecimalAndSpaceToASCII]: an ASCII text is taken
    as it is; otherwise characters below U+007F are kept, other white
    space becomes a space, other decimal digits become ASCII digits, and
    the text is cut at the first character that is none of these, a
    question mark put in its place. *)
Fixpoint to_ascii_decimal (td : char -> option N) (s : str) : str :=
  match s with
  | [] => []
  | c :: r =>
      if c <? 127 then c :: to_ascii_decimal td r
      else if isspace c then SPACE :: to_ascii_decimal td r
      else match td c with
           | Some d => (48 + d) :: to_ascii_decimal td r
           | None => [QUESTION]
           end
  end.

Definition transform_decimal_and_space (td : char -> option N) (s : str) : str :=
  if forallb (fun c => c <? 128) s then s else to_ascii_decimal td s.

(** ** The two callables passed as [type_func]

    [call] is [type_func(x)] on a [str], [None] when it raises; [call0] is
    [type_func()]. *)
Record type_func (T : Type) := {
  call : str -> option T;
  call0 : T
}.

(** [int(s)] on a [str]; [None] is [ValueError]. *)
Definition int_of_str (rt : runtime) (s : str) : option Z :=
  long_from_string (int_max_str_digits rt)
    (transform_decimal_and_space (unicode_decimal rt) s).

Definition py_int (rt : runtime) : type_func Z :=
  {| call := int_of_str rt; call0 := 0%Z |}.

Definition py_str : type_func str := {| call := fun s => Some s; call0 := [] |}.

(** ** The fallback extractor *)

(** The text the f-string puts before the value: the key between double
    quotes, and a colon.  The key is spliced into the pattern as it is;
    it stands for itself there when it is made of letters, digits and
    underscores, as the six field names are. *)
Definition key_prefix (key : str) : str := QUOTE :: key ++ [QUOTE; COLON].

Definition is_word (c : char) : bool :=
  in_range 48 57 c || in_range 65 90 c || in_range 97 122 c || (c =? UNDERSCORE).

Definition word_key (key : str) : bool := forallb is_word key.

(** The characters a value may hold: the class [[^,\n}]] (the f-string
    turns [\n] into a line feed and the doubled brace into one). *)
Definition value_char (c : char) : bool :=
  negb ((c =? COMMA) || (c =? NEWLINE) || (c =? RBRACE)).

(** ["key":\s*([^,\n}]+)], for a key that is a word: [re] would read
    any other character of the key as part of the pattern, and every
    statement on the extractor takes [word_key key]. *)
Definition value_pattern (key : str) : matcher :=
  lit (key_prefix key)
    (star isspace
       (plus_group value_char (fun g _ => Some g))).

(** The class [[^\]]]. *)
Definition item_char (c : char) : bool := negb (c =? RBRACKET).

(** ["key":\s*\[([^\]]+)\]], for a key that is a word as well. *)
Definition list_pattern (key : str) : matcher :=
  lit (key_prefix key)
    (star isspace
       (lit [LBRACKET]
          (plus_group item_char (fun g => lit [RBRACKET] (fun _ => Some g))))).

(** The characters the [strip] call on a captured text removes: the
    space, the double quote and the apostrophe. *)
Definition quote_chars : str := [SPACE; QUOTE; APOSTROPHE].

Definition extract_value (T : Type) (text key : str) (type_func : type_func T) : T :=
  match re_search (value_pattern key) text with
  | Some g =>
      match call type_func (strip_chars quote_chars g) with
      | Some v => v
      | None => call0 type_func
      end
  | None => call0 type_func
  end.

Definition nonblank (item : str) : bool :=
  match strip item with
  | [] => false
  | _ :: _ => true
  end.

Definition extract_list (text key : str) : list str :=
  match re_search (list_pattern key) text with
  | Some g => map (strip_chars quote_chars) (filter nonblank (split COMMA g))
  | None => []
  end.


(** ** Values

    What [json.loads] returns, which is also what the fallback
    dictionary is made of.  A float is kept as the decimal it was written
    as; a dictionary keeps its keys in the order they were first set. *)

Inductive pyfloat :=
| FNaN
| FInfinity (neg : bool)
| FDecimal (neg : bool) (mant : N) (exp10 : Z).   (** [mant * 10 ^ exp10] *)

#[local] Set Warnings "-register-all".

Inductive value :=
| VNone
| VBool (b : bool)
| VInt (z : Z)
| VFloat (f : pyfloat)
| VStr (s : str)
| VList (l : list value)
| VDict (d : list (str * value)).

Definition dict := list (str * value).

Fixpoint str_eqb (a b : str) : bool :=
  match a, b with
  | [], [] => true
  | x :: a', y :: b' => (x =? y) && str_eqb a' b'
  | _, _ => false
  end.

(** [d[k] = v] *)
Fixpoint dict_set (k : str) (v : value) (d : dict) : dict :=
  match d with
  | [] => [(k, v)]
  | (k', v') :: r =>
      if str_eqb k k' then (k, v) :: r else (k', v') :: dict_set k v r
  end.

(** [d.get(k)], [None] when the key is missing. *)
Fixpoint dict_get (k : str) (d : dict) : option value :=
  match d with
  | [] => None
  | (k', v) :: r => if str_eqb k k' then Some v else dict_get k r
  end.

(** Whether the decimal [mant * 10 ^ exp10] rounds to the float zero: it
    is zero, or at most half the smallest subnormal, [2 ^ -1075]. *)
Definition float_is_zero (mant : N) (exp10 : Z) : bool :=
  (mant =? 0)
  || ((exp10 <? 0)%Z
      && (Z.of_N mant * 2 ^ 1075 <=? 10 ^ (- exp10))%Z).

(** [bool(v)] *)
Definition truthy (v : value) : bool :=
  match v with
  | VNone => false
  | VBool b => b
  | VInt z => negb (z =? 0)%Z
  | VFloat FNaN => true
  | VFloat (FInfinity _) => true
  | VFloat (FDecimal _ m e) => negb (float_is_zero m e)
  | VStr s => match s with [] => false | _ => true end
  | VList l => match l with [] => false | _ => true end
  | VDict d => match d with [] => false | _ => true end
  end.

(** ** [json.loads]

    The decoder of the standard library with its defaults, on a [str]:
    the C scanner, strict strings, [NaN] and the infinities accepted. *)

Inductive scanned (A : Type) :=
| Scanned (a : A) (rest : str)
| Failed (e : exn).
Arguments Scanned {A} a rest.
Arguments Failed {A} e.

Definition BACKSLASH : char := 92.
Definition SLASH : char := Eval cbv in ch "/".
Definition DOT : char := Eval cbv in ch ".".
Definition BOM : char := 65279.

(** The white space between JSON tokens. *)
Definition json_ws (c : char) : bool :=
  (c =? 32) || (c =? 9) || (c =? 10) || (c =? 13).

Definition skip_ws (s : str) : str := lstrip_by json_ws s.

Definition hex_digit (c : char) : option N :=
  if in_range 48 57 c then Some (c - 48)
  else if in_range 97 102 c then Some (c - 87)
  else if in_range 65 70 c then Some (c - 55)
  else None.

Definition hex4 (a b c d : char) : option N :=
  match hex_digit a, hex_digit b, hex_digit c, hex_digit d with
  | Some x, Some y, Some z, Some w => Some (((x * 16 + y) * 16 + z) * 16 + w)
  | _, _, _, _ => None
  end.

Definition is_high_surrogate (c : N) : bool := in_range 55296 56319 c.
Definition is_low_surrogate (c : N) : bool := in_range 56320 57343 c.
Definition join_surrogates (hi lo : N) : N :=
  65536 + ((hi - 55296) * 1024 + (lo - 56320)).

(** The character an escape letter stands for. *)
Definition unescape (c : char) : option char :=
  if c =? QUOTE then Some QUOTE
  else if c =? BACKSLASH then Some BACKSLASH
  else if c =? SLASH then Some SLASH
  else if c =? ch "b" then Some 8
  else if c =? ch "f" then Some 12
  else if c =? ch "n" then Some 10
  else if c =? ch "r" then Some 13
  else if c =? ch "t" then Some 9
  else None.

(** [scanstring]: the text after the opening quote, up to the closing
    one.  [acc] is the string read so far, last character first. *)
Fixpoint scanstring (acc : str) (s : str) : scanned str :=
  match s with
  | [] => Failed JSONDecodeError
  | c :: r =>
      if c =? QUOTE then Scanned (rev acc) r
      else if c =? BACKSLASH then
        match r with
        | [] => Failed JSONDecodeError
        | e :: r1 =>
            if e =? ch "u" then
              match r1 with
              | h1 :: h2 :: h3 :: h4 :: r2 =>
                  match hex4 h1 h2 h3 h4 with
                  | None => Failed JSONDecodeError
                  | Some c1 =>
                      if is_high_surrogate c1 then
                        match r2 with
                        | b :: u :: g1 :: g2 :: g3 :: g4 :: r3 =>
                            if (b =? BACKSLASH) && (u =? ch "u") then
                              match hex4 g1 g2 g3 g4 with
                              | None => Failed JSONDecodeError
                              | Some c2 =>
                                  if is_low_surrogate c2
                                  then scanstring (join_surrogates c1 c2 :: acc) r3
                                  else scanstring (c1 :: acc) r2
                              end
                            else scanstring (c1 :: acc) r2
                        | _ => scanstring (c1 :: acc) r2
                        end
                      else scanstring (c1 :: acc) r2
                  end
              | _ => Failed JSONDecodeError
              end
            else
              match unescape e with
              | Some c' => scanstring (c' :: acc) r1
              | None => Failed JSONDecodeError
              end
        end
      else if c <=? 31 then Failed JSONDecodeError
      else scanstring (c :: acc) r
  end.

(** The longest run of characters of a class, and what follows it. *)
Fixpoint span (p : char -> bool) (s : str) : str * str :=
  match s with
  | c :: r => if p c then let '(a, b) := span p r in (c :: a, b) else ([], s)
  | [] => ([], [])
  end.

Definition digits_value (ds : str) : N :=
  fold_left (fun acc c => 10 * acc + (c - 48)) ds 0.

(** The exponent of a number, when one follows: [e] or [E], a sign, one
    digit or more. *)
Definition scan_exponent (s : str) : option (Z * str) :=
  match s with
  | e :: r =>
      if (e =? ch "e") || (e =? ch "E") then
        let '(neg, r1) :=
          match r with
          | c :: r' => if c =? MINUS then (true, r')
                       else if c =? PLUS then (false, r') else (false, r)
          | [] => (false, r)
          end in
        match span isdigit r1 with
        | ([], _) => None
        | (ds, r2) =>
            let v := Z.of_N (digits_value ds) in
            Some (if neg then (- v)%Z else v, r2)
        end
      else None
  | [] => None
  end.

(** [_match_number_unicode]: a minus sign if any, then a zero or a run of
    digits that does not start with zero, then a dot and digits if any,
    then an exponent if any; a float when it has a fraction or an
    exponent, an [int] otherwise. *)
Definition match_number (max_digits : nat) (s : str) : scanned value :=
  let '(neg, s1) :=
    match s with
    | c :: r => if c =? MINUS then (true, r) else (false, s)
    | [] => (false, s)
    end in
  let int_part :=
    match s1 with
    | c :: r =>
        if in_range 49 57 c then let '(ds, r') := span isdigit r in Some (c :: ds, r')
        else if c =? 48 then Some ([c], r)
        else None
    | [] => None
    end in
  match int_part with
  | None => Failed JSONDecodeError
  | Some (ids, r1) =>
      let '(fds, r2) :=
        match r1 with
        | p :: d :: r' =>
            if (p =? DOT) && isdigit d
            then let '(ds, r'') := span isdigit r' in (d :: ds, r'')
            else ([], r1)
        | _ => ([], r1)
        end in
      let '(ex, r3) :=
        match scan_exponent r2 with
        | Some (e, r') => (Some e, r')
        | None => (None, r2)
        end in
      match fds, ex with
      | [], None =>
          match long_from_string max_digits (if neg then MINUS :: ids else ids) with
          | Some z => Scanned (VInt z) r3
          | None => Failed ValueError
          end
      | _, _ =>
          let e := match ex with Some e => e | None => 0%Z end in
          Scanned
            (VFloat (FDecimal neg (digits_value (ids ++ fds))
                       (e - Z.of_nat (List.length fds))%Z))
            r3
      end
  end.

(** [scan_once], [_parse_object] and [_parse_array].  [depth] is the
    number of containers that may still be entered; [fuel] bounds the
    number of calls and is never used up when it starts above twice the
    length of the text (lemma [scan_once_fuel]). *)
Fixpoint scan_once (fuel depth : nat) (max_digits : nat) (s : str) {struct fuel}
  : option (scanned value) :=
  match fuel with
  | O => None
  | S fuel' =>
      match s with
      | [] => Some (Failed JSONDecodeError)
      | c :: r =>
          if c =? QUOTE then
            Some match scanstring [] r with
                 | Scanned k r' => Scanned (VStr k) r'
                 | Failed e => Failed e
                 end
          else if c =? LBRACE then
            match depth with
            | O => Some (Failed RecursionError)
            | S depth' =>
                match skip_ws r with
                | c' :: r' =>
                    if c' =? RBRACE then Some (Scanned (VDict []) r')
                    else parse_object fuel' depth' max_digits [] (skip_ws r)
                | [] => parse_object fuel' depth' max_digits [] (skip_ws r)
                end
            end
          else if c =? LBRACKET then
            match depth with
            | O => Some (Failed RecursionError)
            | S depth' =>
                match skip_ws r with
                | c' :: r' =>
                    if c' =? RBRACKET then Some (Scanned (VList []) r')
                    else parse_array fuel' depth' max_digits [] (skip_ws r)
                | [] => parse_array fuel' depth' max_digits [] (skip_ws r)
                end
            end
          else if startswith (py "null") s then Some (Scanned VNone (skipn 4 s))
          else if startswith (py "true") s then Some (Scanned (VBool true) (skipn 4 s))
          else if startswith (py "false") s then Some (Scanned (VBool false) (skipn 5 s))
          else if startswith (py "NaN") s then Some (Scanned (VFloat FNaN) (skipn 3 s))
          else if startswith (py "Infinity") s
               then Some (Scanned (VFloat (FInfinity false)) (skipn 8 s))
          else if startswith (py "-Infinity") s
               then Some (Scanned (VFloat (FInfinity true)) (skipn 9 s))
          else Some (match_number max_digits s)
      end
  end

(** The members of an object from a key on; [d] holds the ones read. *)
with parse_object (fuel depth : nat) (max_digits : nat) (d : dict) (s : str)
  {struct fuel} : option (scanned value) :=
  match fuel with
  | O => None
  | S fuel' =>
      match s with
      | c :: r =>
          if c =? QUOTE then
            match scanstring [] r with
            | Failed e => Some (Failed e)
            | Scanned key r1 =>
                match skip_ws r1 with
                | c1 :: r2 =>
                    if c1 =? COLON then
                      match scan_once fuel' depth max_digits (skip_ws r2) with
                      | None => None
                      | Some (Failed e) => Some (Failed e)
                      | Some (Scanned v r3) =>
                          match skip_ws r3 with
                          | c3 :: r4 =>
                              if c3 =? RBRACE
                              then Some (Scanned (VDict (dict_set key v d)) r4)
                              else if c3 =? COMMA
                              then parse_object fuel' depth max_digits
                                     (dict_set key v d) (skip_ws r4)
                              else Some (Failed JSONDecodeError)
                          | [] => Some (Failed JSONDecodeError)
                          end
                      end
                    else Some (Failed JSONDecodeError)
                | [] => Some (Failed JSONDecodeError)
                end
            end
          else Some (Failed JSONDecodeError)
      | [] => Some (Failed JSONDecodeError)
      end
  end

(** The elements of an array from a value on; [acc] holds the ones read,
    last first. *)
with parse_array (fuel depth : nat) (max_digits : nat) (acc : list value) (s : str)
  {struct fuel} : option (scanned value) :=
  match fuel with
  | O => None
  | S fuel' =>
      match scan_once fuel' depth max_digits s with
      | None => None
      | Some (Failed e) => Some (Failed e)
      | Some (Scanned v r1) =>
          match skip_ws r1 with
          | c :: r2 =>
              if c =? RBRACKET then Some (Scanned (VList (rev (v :: acc))) r2)
              else if c =? COMMA
              then parse_array fuel' depth max_digits (v :: acc) (skip_ws r2)
              else Some (Failed JSONDecodeError)
          | [] => Some (Failed JSONDecodeError)
          end
      end
  end.

(** ** The session

    The program runs inside one Streamlit session.  What it changes is
    the page (the UI calls, in order) and the working directory (the
    temporary file).  What it cannot know beforehand is what the user
    enters, what the external services answer and whether the operating
    system lets it write and remove the file: the [world].

    The working directory is indexed by the path as the program writes
    it; the statements read it at the path of the temporary file only. *)

Inductive ui_call :=
| st_set_page_config
| st_title
| st_markdown
| st_columns
| st_file_uploader
| st_text_area
| st_spinner (label : str)
| st_subheader (label : str)
| st_metric (label : str) (v : value)     (** the value shown before the percent sign *)
| st_success (item : value)               (** the item shown after the dash *)
| st_error_item (item : value)
| st_info (item : value)
| st_write (v : value)
| st_error (msg : str) (cause : option exn)    (** the start of the message, and the exception it quotes *)
| st_warning (msg : str) (cause : option exn).

Definition bytes := list N.

Record session := {
  page : list ui_call;              (** the calls made so far, the last one first *)
  files : list (str * bytes)        (** the working directory *)
}.

(** The answer of an external call: a value, or a failure that Python
    sees as an exception of class [Exception]. *)
Inductive external (A : Type) :=
| Ok (a : A)
| Fails (msg : str).
Arguments Ok {A} a.
Arguments Fails {A} msg.

Record upload := { name : str; getbuffer : bytes }.

Record world := {
  (** [LlamaParse(api_key=..., result_type=..., verbose=...)] *)
  LlamaParse : external unit;
  (** [genai.configure(...)] and [genai.GenerativeModel(...)] *)
  GenerativeModel : external unit;
  (** [parser.load_data(path)]: the text of each document *)
  load_data : str -> external (list str);
  (** pdfminer's [extract_text(path)] *)
  extract_text : str -> external str;
  (** [model.generate_content(prompt).text] *)
  generate_content : str -> external str;
  (** what the two widgets hold when the script runs *)
  uploaded_file : option upload;
  jd_text : str;
  (** [with open(path, "wb") as f: f.write(data)] when the operating
      system does not let it complete: the exception it raises, and what
      is then under the name, [None] when [open] itself was refused (a
      name that is too long or holds a NUL, a directory that is not
      there, no permission) and nothing has changed *)
  write_fails : str -> bytes -> option (exn * option bytes);
  (** [os.remove(path)] on a file that is there, when the operating
      system refuses it: the exception it raises *)
  remove_fails : str -> option exn
}.

(** A computation: it changes the session and returns or raises. *)
Definition M (A : Type) := session -> outcome A * session.

Definition ret (A : Type) (a : A) : M A := fun s => (Return a, s).

Definition raise (A : Type) (e : exn) : M A := fun s => (Raise e, s).
Arguments raise {A} e.

Definition bind (A B : Type) (m : M A) (k : A -> M B) : M B :=
  fun s =>
    match m s with
    | (Return a, s') => k a s'
    | (Raise e, s') => (Raise e, s')
    end.

Notation "x <- m ;; k" := (bind m (fun x => k))
  (at level 61, m at next level, right associativity).
Notation "m ;; k" := (bind m (fun _ => k))
  (at level 61, right associativity).

(** [try: body / except <class> as e: handler e] *)
Definition try_except (A : Type) (body : M A) (class : exn -> bool)
  (handler : exn -> M A) : M A :=
  fun s =>
    match body s with
    | (Return a, s') => (Return a, s')
    | (Raise e, s') => if class e then handler e s' else (Raise e, s')
    end.

Definition of_outcome (A : Type) (o : outcome A) : M A := fun s => (o, s).

Definition of_external (A : Type) (x : external A) : M A :=
  match x with
  | Ok a => ret a
  | Fails msg => raise (ExternalError msg)
  end.

(** A call of the [st] module. *)
Definition st (c : ui_call) : M unit :=
  fun s => (Return tt, {| page := c :: page s; files := files s |}).

(** [st.stop()] *)
Definition st_stop : M unit := raise StopException.

Fixpoint remove_file (path : str) (fs : list (str * bytes)) : list (str * bytes) :=
  match fs with
  | [] => []
  | (p, b) :: r => if str_eqb path p then remove_file path r else (p, b) :: remove_file path r
  end.

Definition file_exists (path : str) (fs : list (str * bytes)) : bool :=
  existsb (fun pb => str_eqb path (fst pb)) fs.

(** [with open(path, "wb") as f: f.write(data)].  [failure] is
    what the operating system answers when it does not let the statement
    complete; the exception leaves the statement. *)
Definition write_file (failure : option (exn * option bytes)) (path : str)
  (data : bytes) : M unit :=
  fun s =>
    match failure with
    | None =>
        (Return tt, {| page := page s;
                       files := (path, data) :: remove_file path (files s) |})
    | Some (e, None) => (Raise e, s)
    | Some (e, Some partial) =>
        (Raise e, {| page := page s;
                     files := (path, partial) :: remove_file path (files s) |})
    end.

(** [os.remove(path)].  [refused] is the exception the operating system
    answers with when it does not remove a file that is there. *)
Definition os_remove (refused : option exn) (path : str) : M unit :=
  fun s =>
    if file_exists path (files s)
    then match refused with
         | None => (Return tt, {| page := page s; files := remove_file path (files s) |})
         | Some e => (Raise e, s)
         end
    else (Raise FileNotFoundError, s).

Section Program.

Variable rt : runtime.
Variable w : world.

Definition json_fuel (s : str) : nat := 2 * List.length s + 1.

(** [json.loads(s)] *)
Definition json_loads (s : str) : outcome value :=
  match s with
  | c :: _ =>
      if c =? BOM then Raise JSONDecodeError
      else
        match scan_once (json_fuel s) (recursion_limit rt) (int_max_str_digits rt)
                (skip_ws s) with
        | Some (Scanned v rest) =>
            match skip_ws rest with
            | [] => Return v
            | _ :: _ => Raise JSONDecodeError
            end
        | Some (Failed e) => Raise e
        | None => Raise RecursionError
        end
  | [] => Raise JSONDecodeError
  end.

(** *** [initialize_apis] *)

Definition initialize_apis : M (option unit * option unit) :=
  parser <- try_except
              (p <- of_external (LlamaParse w) ;; ret (Some p))
              is_Exception
              (fun e =>
                 st (st_error (py "LlamaParse initialization failed: ") (Some e)) ;;
                 ret None) ;;
  model <- try_except
             (m <- of_external (GenerativeModel w) ;; ret (Some m))
             is_Exception
             (fun e =>
                st (st_error (py "Gemini initialization failed: ") (Some e)) ;;
                ret None) ;;
  ret (parser, model).

(** *** [parse_resume]

    The first [try] returns from the function when the parser is there
    and answers; [None] below is the way out of it that goes on to
    pdfminer. *)
Definition parse_resume (file_path : str) (parser : option unit) : M str :=
  first <- try_except
             match parser with
             | Some _ =>
                 documents <- of_external (load_data w file_path) ;;
                 match documents with
                 | d :: _ => ret (Some d)
                 | [] => raise IndexError
                 end
             | None => ret None
             end
             is_Exception
             (fun e =>
                st (st_warning (py "LlamaParse failed: ") (Some e)) ;;
                ret None) ;;
  match first with
  | Some text => ret text
  | None =>
      try_except
        (of_external (extract_text w file_path))
        is_Exception
        (fun e => st (st_error (py "PDF parsing failed: ") (Some e)) ;; ret [])
  end.

(** *** [parse_gemini_response] *)

Definition fence_json : str := py "```json".
Definition fence : str := py "```".

(** The text handed to [json.loads]. *)
Definition clean_text (response_text : str) : str :=
  let clean := strip response_text in
  if startswith fence_json clean then strip (slice_inner 7 3 clean)
  else if startswith fence clean then strip (slice_inner 3 3 clean)
  else clean.

(** The dictionary of the [except] branch. *)
Definition fallback (response_text : str) : value :=
  VDict
    [ (py "match_score", VInt (extract_value response_text (py "match_score") (py_int rt)));
      (py "matching_skills", VList (map VStr (extract_list response_text (py "matching_skills"))));
      (py "missing_skills", VList (map VStr (extract_list response_text (py "missing_skills"))));
      (py "experience", VInt (extract_value response_text (py "experience") (py_int rt)));
      (py "suggestions", VList (map VStr (extract_list response_text (py "suggestions"))));
      (py "summary", VStr (extract_value response_text (py "summary") py_str)) ].

Definition parse_gemini_response (response_text : str) : outcome value :=
  match json_loads (clean_text response_text) with
  | Return v => Return v
  | Raise e =>
      if is_JSONDecodeError e then Return (fallback response_text) else Raise e
  end.

(** *** [analyze_resume] *)

Definition prompt (resume_text jd_text : str) : str :=
  pyq "
    Analyze this resume against the job description. Return STRICT JSON with:
    - match_score (0-100)
    - matching_skills (list)
    - missing_skills (list)
    - experience (years)
    - suggestions (list)
    - summary (str)

    Resume:
    " ++ resume_text ++ pyq "

    Job Description:
    " ++ jd_text ++ pyq "

    Example Output:
    {
        'match_score': 75,
        'matching_skills': ['Python', 'ML'],
        'missing_skills': ['AWS'],
        'experience': 2,
        'suggestions': ['Add AWS certification'],
        'summary': 'Strong technical skills but lacks cloud experience'
    }

    Return ONLY valid JSON with no additional text or formatting.
    ".

(** The body of the [try].  The model is [None] or the model object; a
    call on [None] raises [AttributeError]. *)
Definition analyze_attempt (resume_text jd_text : str) (model : option unit) : M value :=
  text <- match model with
          | Some _ => of_external (generate_content w (prompt resume_text jd_text))
          | None => raise AttributeError
          end ;;
  of_outcome (parse_gemini_response text).

Definition analyze_resume (resume_text jd_text : str) (model : option unit) : M value :=
  try_except
    (analyze_attempt resume_text jd_text model)
    is_Exception
    (fun e => st (st_error (py "Analysis failed: ") (Some e)) ;; ret VNone).

(** *** [main] *)

(** [analysis.get(key, default)]: only a dictionary has the method. *)
Definition get (analysis : value) (key : str) (default : value) : M value :=
  match analysis with
  | VDict d => ret match dict_get key d with Some v => v | None => default end
  | _ => raise AttributeError
  end.

(** The items a [for] loop takes from a value. *)
Definition iterate (v : value) : M (list value) :=
  match v with
  | VList l => ret l
  | VStr s => ret (map (fun c => VStr [c]) s)
  | VDict d => ret (map (fun kv => VStr (fst kv)) d)
  | _ => raise TypeError
  end.

Fixpoint for_each (items : list value) (body : value -> M unit) : M unit :=
  match items with
  | [] => ret tt
  | x :: r => body x ;; for_each r body
  end.

Definition display (analysis : value) : M unit :=
  st (st_subheader (py "Analysis Results")) ;;
  score <- get analysis (py "match_score") (VInt 0) ;;
  st (st_metric (py "Match Score") score) ;;
  st st_columns ;;
  st (st_subheader (py "Matching Skills")) ;;
  matching <- get analysis (py "matching_skills") (VList []) ;;
  skills <- iterate matching ;;
  for_each skills (fun skill => st (st_success skill)) ;;
  st (st_subheader (py "Missing Skills")) ;;
  missing <- get analysis (py "missing_skills") (VList []) ;;
  skills <- iterate missing ;;
  for_each skills (fun skill => st (st_error_item skill)) ;;
  st (st_subheader (py "Improvement Suggestions")) ;;
  suggestions <- get analysis (py "suggestions") (VList []) ;;
  items <- iterate suggestions ;;
  for_each items (fun suggestion => st (st_info suggestion)) ;;
  summary <- get analysis (py "summary") VNone ;;
  if truthy summary then
    st (st_subheader (py "Summary")) ;;
    st (st_write summary)
  else ret tt.

Definition temp_path (up : upload) : str := py "temp_" ++ name up.

Definition main : M unit :=
  st st_set_page_config ;;
  st st_title ;;
  st st_markdown ;;
  apis <- initialize_apis ;;
  let '(parser, model) := apis in
  match model with None => st_stop | Some _ => ret tt end ;;
  st st_columns ;;
  st st_file_uploader ;;
  st st_text_area ;;
  match uploaded_file w, jd_text w with
  | Some up, _ :: _ =>
      let temp_file := temp_path up in
      write_file (write_fails w temp_file (getbuffer up)) temp_file (getbuffer up) ;;
      st (st_spinner (py "Parsing resume...")) ;;
      resume_text <- parse_resume temp_file parser ;;
      match resume_text with
      | [] =>
          st (st_error (py "Failed to parse resume") None) ;;
          os_remove (remove_fails w temp_file) temp_file
      | _ :: _ =>
          st (st_spinner (py "Analyzing with AI...")) ;;
          analysis <- analyze_resume resume_text (jd_text w) model ;;
          (if truthy analysis then display analysis else ret tt) ;;
          os_remove (remove_fails w temp_file) temp_file
      end
  | _, _ => ret tt
  end.

End Program.

(** ** Vocabulary of the statements *)

(** [s.find(p)]: where [p] first occurs in [s]. *)
Fixpoint find (p s : str) : option nat :=
  if startswith p s then Some O
  else match s with
       | [] => None
       | _ :: r => option_map S (find p r)
       end.

(** A string literal of JSON whose content needs no escape. *)
Definition string_literal (s : str) : str := QUOTE :: s ++ [QUOTE].

(** [sep.join(items)] *)
Fixpoint join (sep : str) (items : list str) : str :=
  match items with
  | [] => []
  | [x] => x
  | x :: r => x ++ sep ++ join sep r
  end.

(** A flat list of string literals as [json.dumps] writes it: the
    literals between brackets, a comma and a space between two of them. *)
Definition list_literal (items : list str) : str :=
  LBRACKET :: join [COMMA; SPACE] (map string_literal items) ++ [RBRACKET].

(** The text is empty or starts with a character of the class. *)
Definition starts_in (cls : char -> bool) (s : str) : bool :=
  match s with
  | [] => true
  | c :: _ => cls c
  end.

(** Neither the first nor the last character is in the class. *)
Definition bare (cls : char -> bool) (s : str) : bool :=
  negb (match s with [] => false | c :: _ => cls c end)
  && negb (match rev s with [] => false | c :: _ => cls c end).

(** The end of a value for [extract_value]: the end of the text, or a
    comma, a line feed or a closing brace. *)
Definition value_end (post : str) : bool := starts_in (fun c => negb (value_char c)) post.

(** An [int] literal: digits, a minus sign before them or not. *)
Definition int_literal (neg : bool) (digits : str) : str :=
  if neg then MINUS :: digits else digits.

Definition int_literal_value (neg : bool) (digits : str) : Z :=
  let v := Z.of_N (digits_value digits) in if neg then (- v)%Z else v.

(** The content of a string literal that [extract_value] gives back as
    it is: no comma, line feed, closing brace, quote or backslash in it,
    and no space or apostrophe at either end. *)
Definition plain_value (s : str) : bool :=
  forallb (fun c => value_char c && negb (c =? QUOTE) && negb (c =? BACKSLASH)) s
  && bare (char_in quote_chars) s.

(** The same for an element of a list: no comma, closing bracket, quote
    or backslash in it, and no space or apostrophe at either end. *)
Definition plain_item (s : str) : bool :=
  forallb (fun c => item_char c && negb (c =? COMMA) && negb (c =? QUOTE)
                    && negb (c =? BACKSLASH)) s
  && bare (char_in quote_chars) s.

Definition is_int (v : value) : bool :=
  match v with VInt _ => true | _ => false end.

Definition is_str (v : value) : bool :=
  match v with VStr _ => true | _ => false end.

Definition is_str_list (v : value) : bool :=
  match v with VList l => forallb is_str l | _ => false end.

Definition field (key : string) (p : value -> bool) (v : value) : bool :=
  match v with
  | VDict d => match dict_get (py key) d with Some x => p x | None => false end
  | _ => false
  end.

(** The types of the six fields of an analysis result. *)
Definition typed_analysis (v : value) : bool :=
  field "match_score" is_int v
  && field "matching_skills" is_str_list v
  && field "missing_skills" is_str_list v
  && field "experience" is_int v
  && field "suggestions" is_str_list v
  && field "summary" is_str v.

Definition percentage (v : value) : bool :=
  match v with VInt z => (0 <=? z)%Z && (z <=? 100)%Z | _ => false end.

(** The analysis result as the data model describes it. *)
Definition analysis_record (v : value) : bool :=
  typed_analysis v && field "match_score" percentage v.

Definition field_names : list str :=
  [py "match_score"; py "matching_skills"; py "missing_skills";
   py "experience"; py "suggestions"; py "summary"].

Definition initial_session (fs : list (str * bytes)) : session :=
  {| page := []; files := fs |}.

(** A world in which every service answers: both parsers return
    [resume], the model replies [reply], and the operating system writes
    and removes what it is asked to. *)
Definition answering_world (resume reply : str) (up : option upload) (jd : str) : world :=
  {| LlamaParse := Ok tt;
     GenerativeModel := Ok tt;
     load_data := fun _ => Ok [resume];
     extract_text := fun _ => Ok resume;
     generate_content := fun _ => Ok reply;
     uploaded_file := up;
     jd_text := jd;
     write_fails := fun _ _ => None;
     remove_fails := fun _ => None |}.

(** The text is the JSON literal [null], white space around it or not. *)
Definition null_literal (s : str) : bool :=
  startswith (py "null") (skip_ws s)
  && match skip_ws (skipn 4 (skip_ws s)) with [] => true | _ :: _ => false end.

(** The exceptions [json.loads] raises. *)
Definition json_error (e : exn) : bool :=
  match e with
  | JSONDecodeError | ValueError | RecursionError => true
  | _ => false
  end.

(** The text of a JSON object: it starts with an opening brace and ends
    with a closing one. *)
Definition object_text (jt : str) : bool :=
  match jt with c :: _ => c =? LBRACE | [] => false end
  && match rev jt with c :: _ => c =? RBRACE | [] => false end.

(** A computation that leaves the working directory as it found it. *)
Definition keeps_files (A : Type) (m : M A) : Prop :=
  forall s, files (snd (m s)) = files s.

(** A computation that raises nothing an [except Exception] lets
    through. *)
Definition raises_Exception_only (A : Type) (m : M A) : Prop :=
  forall s e, fst (m s) = Raise e -> is_Exception e = true.

(** A computation that never raises. *)
Definition total (A : Type) (m : M A) : Prop :=
  forall s, exists a, fst (m s) = Return a.

(** The session after one more UI call. *)
Definition shown (c : ui_call) (s : session) : session :=
  {| page := c :: page s; files := files s |}.

(** The session after some more UI calls, the last one first. *)
Definition shown_all (cs : list ui_call) (s : session) : session :=
  {| page := cs ++ page s; files := files s |}.

(** What [initialize_apis] returns and shows in a world: a handle or
    [None] for each service, and a message for each failure. *)
Definition initialize_apis_result (w : world)
  : (option unit * option unit) * list ui_call :=
  let '(parser, m1) :=
    match LlamaParse w with
    | Ok p => (Some p, [])
    | Fails msg =>
        (None, [st_error (py "LlamaParse initialization failed: ")
                  (Some (ExternalError msg))])
    end in
  let '(model, m2) :=
    match GenerativeModel w with
    | Ok m => (Some m, [])
    | Fails msg =>
        (None, [st_error (py "Gemini initialization failed: ")
                  (Some (ExternalError msg))])
    end in
  ((parser, model), m2 ++ m1).

(** What [parse_resume] returns and shows in a world: the text of the
    first document, or else what pdfminer extracts, or else the empty
    string, with a message for each failure. *)
Definition parse_resume_result (w : world) (path : str) (parser : option unit)
  : str * list ui_call :=
  let '(first, m1) :=
    match parser with
    | Some _ =>
        match load_data w path with
        | Ok (d :: _) => (Some d, [])
        | Ok [] => (None, [st_warning (py "LlamaParse failed: ") (Some IndexError)])
        | Fails msg =>
            (None, [st_warning (py "LlamaParse failed: ") (Some (ExternalError msg))])
        end
    | None => (None, [])
    end in
  match first with
  | Some text => (text, m1)
  | None =>
      match extract_text w path with
      | Ok text => (text, m1)
      | Fails msg =>
          ([], st_error (py "PDF parsing failed: ") (Some (ExternalError msg)) :: m1)
      end
  end.

(** A computation after which, when it returns, the file is not in the
    working directory. *)
Definition removes (path : str) (m : M unit) : Prop :=
  forall s s', m s = (Return tt, s') -> file_exists path (files s') = false.

(** ** Vocabulary of the further properties *)

(** What a [for] loop accepts. *)
Definition iterable (v : value) : bool :=
  match v with
  | VList _ | VStr _ | VDict _ => true
  | _ => false
  end.

(** [d.get(key, default)] *)
Definition dict_field (d : dict) (key : string) (default : value) : value :=
  match dict_get (py key) d with
  | Some v => v
  | None => default
  end.

(** The values [display] shows to the end: a dictionary whose three list
    fields, where they are present, can be iterated. *)
Definition displayable (v : value) : bool :=
  match v with
  | VDict d =>
      iterable (dict_field d "matching_skills" (VList []))
      && iterable (dict_field d "missing_skills" (VList []))
      && iterable (dict_field d "suggestions" (VList []))
  | _ => false
  end.

(** The exception [display] ends with on a value it cannot show. *)
Definition display_error (v : value) : exn :=
  match v with
  | VDict _ => TypeError
  | _ => AttributeError
  end.

(** What [analyze_resume] returns in a world. *)
Definition analysis_value (rt : runtime) (w : world) (resume jd : str)
  (model : option unit) : value :=
  match model with
  | Some _ =>
      match generate_content w (prompt resume jd) with
      | Ok reply =>
          match parse_gemini_response rt reply with
          | Return v => v
          | Raise _ => VNone
          end
      | Fails _ => VNone
      end
  | None => VNone
  end.

(** The resume text [main] works on in a world. *)
Definition resume_of (w : world) (up : upload) : str :=
  fst (parse_resume_result w (temp_path up) (fst (fst (initialize_apis_result w)))).

(** Whether a run of [main] with an upload ends in the display step:
    the resume has text, the analysis is truthy and cannot be shown. *)
Definition display_fails (rt : runtime) (w : world) (up : upload) : bool :=
  let a := analysis_value rt w (resume_of w up) (jd_text w) (Some tt) in
  match resume_of w up with
  | [] => false
  | _ :: _ => truthy a && negb (displayable a)
  end.

(** [open(path, "rb").read()], [None] when there is no such file. *)
Fixpoint read_file (path : str) (fs : list (str * bytes)) : option bytes :=
  match fs with
  | [] => None
  | (p, b) :: r => if str_eqb path p then Some b else read_file path r
  end.

(** The same world with another model behind [generate_content]. *)
Definition with_generate_content (w : world) (g : str -> external str) : world :=
  {| LlamaParse := LlamaParse w;
     GenerativeModel := GenerativeModel w;
     load_data := load_data w;
     extract_text := extract_text w;
     generate_content := g;
     uploaded_file := uploaded_file w;
     jd_text := jd_text w;
     write_fails := write_fails w;
     remove_fails := remove_fails w |}.

(** The same world with another operating system behind [open] and
    [os.remove]. *)
Definition with_os (w : world) (wf : str -> bytes -> option (exn * option bytes))
  (rf : str -> option exn) : world :=
  {| LlamaParse := LlamaParse w;
     GenerativeModel := GenerativeModel w;
     load_data := load_data w;
     extract_text := extract_text w;
     generate_content := generate_content w;
     uploaded_file := uploaded_file w;
     jd_text := jd_text w;
     write_fails := wf;
     remove_fails := rf |}.

(** The same world with another pdfminer. *)
Definition with_extract_text (w : world) (x : str -> external str) : world :=
  {| LlamaParse := LlamaParse w;
     GenerativeModel := GenerativeModel w;
     load_data := load_data w;
     extract_text := x;
     generate_content := generate_content w;
     uploaded_file := uploaded_file w;
     jd_text := jd_text w;
     write_fails := write_fails w;
     remove_fails := remove_fails w |}.


(** ** Vocabulary of the written analysis *)

(** No occurrence of [p] starts in [a], whatever text follows [a]. *)
Definition no_start (p a : str) : Prop :=
  forall b, find p (a ++ b) = option_map (Nat.add (List.length a)) (find p b).

(** None of the six quoted keys, with its colon, occurs in the text. *)
Definition quoted_keys_absent (s : str) : bool :=
  forallb (fun key => match find (key_prefix key) s with
                      | None => true
                      | Some _ => false
                      end)
    field_names.

(** A number as a reply writes it: whether it has a minus sign, and its
    decimal digits. *)
Definition numeral := (bool * str)%type.

Definition written_int (n : numeral) : str := int_literal (fst n) (snd n).

Definition numeral_value (n : numeral) : Z := int_literal_value (fst n) (snd n).

(** One digit or more, and no more than [int] converts. *)
Definition plain_numeral (rt : runtime) (n : numeral) : bool :=
  match snd n with [] => false | _ :: _ => true end
  && forallb isdigit (snd n)
  && negb (over_digit_limit (int_max_str_digits rt) (List.length (snd n))).

(** The six fields of an analysis as a reply writes them. *)
Record written := {
  r_match_score : numeral;
  r_matching_skills : list str;
  r_missing_skills : list str;
  r_experience : numeral;
  r_suggestions : list str;
  r_summary : str
}.

(** A member of an object: the quoted key, a colon, white space and the
    value. *)
Definition member (key : string) (ws value : str) : str :=
  key_prefix (py key) ++ ws ++ value.

(** The object as the prompt shows it: the six members in the order of
    the prompt, [sep] after the opening brace and after each comma, [ws]
    after each colon, [fin] before the closing brace. *)
Definition written_analysis (sep ws fin : str) (r : written) : str :=
  [LBRACE] ++ sep ++ member "match_score" ws (written_int (r_match_score r))
  ++ [COMMA] ++ sep ++ member "matching_skills" ws (list_literal (r_matching_skills r))
  ++ [COMMA] ++ sep ++ member "missing_skills" ws (list_literal (r_missing_skills r))
  ++ [COMMA] ++ sep ++ member "experience" ws (written_int (r_experience r))
  ++ [COMMA] ++ sep ++ member "suggestions" ws (list_literal (r_suggestions r))
  ++ [COMMA] ++ sep ++ member "summary" ws (string_literal (r_summary r))
  ++ fin ++ [RBRACE].

(** The dictionary of these six fields. *)
Definition written_value (r : written) : value :=
  VDict
    [ (py "match_score", VInt (numeral_value (r_match_score r)));
      (py "matching_skills", VList (map VStr (r_matching_skills r)));
      (py "missing_skills", VList (map VStr (r_missing_skills r)));
      (py "experience", VInt (numeral_value (r_experience r)));
      (py "suggestions", VList (map VStr (r_suggestions r)));
      (py "summary", VStr (r_summary r)) ].

(** The fields the extractor reads back as they are: numbers of digits
    only, list elements and a summary that need no escape and hold none
    of the characters the patterns stop at. *)
Definition plain_written (rt : runtime) (r : written) : bool :=
  plain_numeral rt (r_match_score r)
  && forallb plain_item (r_matching_skills r)
  && forallb plain_item (r_missing_skills r)
  && plain_numeral rt (r_experience r)
  && forallb plain_item (r_suggestions r)
  && plain_value (r_summary r).
(** * Properties *)

(** ** Text *)

Lemma lstrip_by_app (p : char -> bool) (a b : str) :
  forallb p a = true -> lstrip_by p (a ++ b) = lstrip_by p b.
Proof.
  induction a as [|c a IH]; simpl; intros H; [reflexivity|].
  apply andb_prop in H as [Hc Ha]. rewrite Hc. auto.
Qed.

Lemma lstrip_by_stop (p : char -> bool) (s : str) :
  starts_in (fun c => negb (p c)) s = true -> lstrip_by p s = s.
Proof.
  destruct s as [|c s]; simpl; [reflexivity|].
  intros H. apply negb_true_iff in H. now rewrite H.
Qed.

Lemma lstrip_by_all (p : char -> bool) (s : str) :
  forallb p s = true -> lstrip_by p s = [].
Proof.
  intros H. rewrite <- (app_nil_r s). now rewrite lstrip_by_app.
Qed.

Lemma rstrip_by_app (p : char -> bool) (a b : str) :
  forallb p b = true -> rstrip_by p (a ++ b) = rstrip_by p a.
Proof.
  intros H. unfold rstrip_by. rewrite rev_app_distr, lstrip_by_app; [reflexivity|].
  rewrite forallb_forall in *. intros x Hx. apply H. now apply in_rev.
Qed.

Lemma rstrip_by_stop (p : char -> bool) (s : str) :
  starts_in (fun c => negb (p c)) (rev s) = true -> rstrip_by p s = s.
Proof.
  intros H. unfold rstrip_by. rewrite lstrip_by_stop by exact H. apply rev_involutive.
Qed.

Lemma bare_strip (p : char -> bool) (s : str) :
  bare p s = true -> strip_by p s = s.
Proof.
  unfold bare, strip_by. intros H. apply andb_prop in H as [H1 H2].
  rewrite lstrip_by_stop.
  - apply rstrip_by_stop. destruct (rev s); simpl in *; auto.
  - destruct s; simpl in *; auto.
Qed.

(** Stripping a text that is wrapped in characters of the class gives
    the inside when the inside is bare. *)
Lemma strip_by_wrapped (p : char -> bool) (a s b : str) :
  forallb p a = true -> forallb p b = true -> bare p s = true ->
  strip_by p (a ++ s ++ b) = s.
Proof.
  intros Ha Hb Hs. unfold strip_by. rewrite lstrip_by_app by exact Ha.
  destruct s as [|c s].
  - simpl. rewrite lstrip_by_all by exact Hb. reflexivity.
  - assert (Hc : p c = false).
    { unfold bare in Hs. apply andb_prop in Hs as [H _]. now apply negb_true_iff in H. }
    simpl. rewrite Hc. change (c :: s ++ b) with ((c :: s) ++ b).
    rewrite rstrip_by_app by exact Hb.
    apply rstrip_by_stop. unfold bare in Hs. apply andb_prop in Hs as [_ H].
    destruct (rev (c :: s)); simpl in *; auto.
Qed.

Lemma startswith_app (p s : str) : startswith p (p ++ s) = true.
Proof.
  induction p as [|a p IH]; simpl; [reflexivity|]. now rewrite N.eqb_refl.
Qed.

Lemma startswith_inv (p s : str) :
  startswith p s = true -> exists r, s = p ++ r.
Proof.
  revert s. induction p as [|a p IH]; intros s H; simpl in *.
  - now exists s.
  - destruct s as [|b s]; [discriminate|].
    apply andb_prop in H as [Hab H]. apply N.eqb_eq in Hab. subst b.
    destruct (IH _ H) as [r ->]. now exists r.
Qed.

(** ** The regular expressions *)

Lemma lit_app (p : str) (k : matcher) (s : str) : lit p k (p ++ s) = k s.
Proof.
  induction p as [|a p IH]; simpl; [reflexivity|]. now rewrite N.eqb_refl.
Qed.

Lemma lit_no_prefix (p : str) (k : matcher) (s : str) :
  startswith p s = false -> lit p k s = None.
Proof.
  revert s. induction p as [|a p IH]; intros s H; simpl in *; [discriminate|].
  destruct s as [|b s]; [reflexivity|].
  destruct (a =? b); simpl in H; [now apply IH | reflexivity].
Qed.

(** A pattern that starts with a literal is found no earlier than the
    literal. *)
Lemma re_search_skip (p : str) (k : matcher) (pre s : str) :
  find p (pre ++ s) = Some (List.length pre) ->
  re_search (lit p k) (pre ++ s) = re_search (lit p k) s.
Proof.
  induction pre as [|c pre IH]; simpl; intros H; [reflexivity|].
  destruct p as [|a p]; [discriminate|].
  remember (a :: p) as q. simpl in H.
  destruct (startswith q (c :: pre ++ s)) eqn:E; [discriminate|].
  rewrite lit_no_prefix by exact E.
  apply IH. destruct (find q (pre ++ s)); simpl in H; congruence.
Qed.

Lemma re_search_here (m : matcher) (s g : str) :
  m s = Some g -> re_search m s = Some g.
Proof. intros H. destruct s; simpl; now rewrite H. Qed.

(** A text without the literal has no match. *)
Lemma re_search_absent (p : str) (k : matcher) (s : str) :
  find p s = None -> re_search (lit p k) s = None.
Proof.
  induction s as [|c s IH]; simpl; intros H.
  - destruct (startswith p []) eqn:E; [discriminate|].
    now rewrite lit_no_prefix.
  - destruct (startswith p (c :: s)) eqn:E; [discriminate|].
    rewrite lit_no_prefix by exact E.
    apply IH. destruct (find p s); [discriminate|reflexivity].
Qed.

(** A greedy repetition that can take the whole run [run], and no more,
    and whose continuation accepts it, stops there. *)
Lemma greedy_take (cls : char -> bool) (k : str -> matcher) (run s r : str) :
  forall got,
  forallb cls run = true ->
  starts_in (fun c => negb (cls c)) s = true ->
  k (rev got ++ run) s = Some r ->
  greedy cls k got (run ++ s) = Some r.
Proof.
  induction run as [|c run IH]; intros got Hrun Hs Hk; simpl in *.
  - rewrite app_nil_r in Hk.
    destruct s as [|c s]; simpl in *; [exact Hk|].
    apply negb_true_iff in Hs. now rewrite Hs.
  - apply andb_prop in Hrun as [Hc Hrun]. rewrite Hc.
    rewrite (IH (c :: got)); auto.
    simpl. now rewrite <- app_assoc.
Qed.

Lemma starts_in_app (cls : char -> bool) (a b : str) :
  a <> [] -> starts_in cls a = true -> starts_in cls (a ++ b) = true.
Proof. destruct a; simpl; congruence. Qed.

(** The value pattern at the key: white space, then a value [v] that
    starts with no white space and ends where the class ends. *)
Lemma value_pattern_at (key ws v post : str) :
  forallb isspace ws = true ->
  v <> [] ->
  starts_in (fun c => negb (isspace c)) v = true ->
  forallb value_char v = true ->
  value_end post = true ->
  value_pattern key (key_prefix key ++ ws ++ v ++ post) = Some v.
Proof.
  intros Hws Hv Hv0 Hvc Hpost. unfold value_pattern. rewrite lit_app.
  unfold star. apply greedy_take; auto.
  - now apply starts_in_app.
  - unfold plus_group. apply greedy_take; auto.
    simpl. destruct v; congruence.
Qed.

(** The list pattern at the key: white space, then a bracketed body
    without a closing bracket in it. *)
Lemma list_pattern_at (key ws body post : str) :
  forallb isspace ws = true ->
  body <> [] ->
  forallb item_char body = true ->
  list_pattern key (key_prefix key ++ ws ++ LBRACKET :: body ++ RBRACKET :: post)
  = Some body.
Proof.
  intros Hws Hb Hbc. unfold list_pattern. rewrite lit_app.
  unfold star. apply greedy_take; auto.
  change (LBRACKET :: body ++ RBRACKET :: post)
    with ([LBRACKET] ++ body ++ RBRACKET :: post).
  rewrite lit_app. unfold plus_group. apply greedy_take; auto.
  simpl. destruct body; [congruence|]. reflexivity.
Qed.

Lemma search_value_at (pre key ws v post : str) :
  find (key_prefix key) (pre ++ key_prefix key ++ ws ++ v ++ post)
  = Some (List.length pre) ->
  forallb isspace ws = true ->
  v <> [] ->
  starts_in (fun c => negb (isspace c)) v = true ->
  forallb value_char v = true ->
  value_end post = true ->
  re_search (value_pattern key) (pre ++ key_prefix key ++ ws ++ v ++ post) = Some v.
Proof.
  intros Hf Hws Hv Hv0 Hvc Hpost. unfold value_pattern at 1.
  rewrite re_search_skip by exact Hf.
  apply re_search_here. now apply value_pattern_at.
Qed.

Lemma search_list_at (pre key ws body post : str) :
  find (key_prefix key)
    (pre ++ key_prefix key ++ ws ++ LBRACKET :: body ++ RBRACKET :: post)
  = Some (List.length pre) ->
  forallb isspace ws = true ->
  body <> [] ->
  forallb item_char body = true ->
  re_search (list_pattern key)
    (pre ++ key_prefix key ++ ws ++ LBRACKET :: body ++ RBRACKET :: post)
  = Some body.
Proof.
  intros Hf Hws Hb Hbc. unfold list_pattern at 1.
  rewrite re_search_skip by exact Hf.
  apply re_search_here. now apply list_pattern_at.
Qed.

(** ** Stripping *)

Lemma lstrip_by_split (p : char -> bool) (s : str) :
  exists a, s = a ++ lstrip_by p s /\ forallb p a = true.
Proof.
  induction s as [|c s [a [E Ha]]]; simpl.
  - now exists [].
  - destruct (p c) eqn:Hc.
    + exists (c :: a). simpl. rewrite Hc. split; [now f_equal | exact Ha].
    + now exists [].
Qed.

Lemma lstrip_by_starts (p : char -> bool) (s : str) :
  starts_in (fun c => negb (p c)) (lstrip_by p s) = true.
Proof.
  induction s as [|c s IH]; simpl; [reflexivity|].
  destruct (p c) eqn:Hc; [exact IH|]. simpl. now rewrite Hc.
Qed.

Lemma rstrip_by_split (p : char -> bool) (s : str) :
  exists b, s = rstrip_by p s ++ b /\ forallb p b = true.
Proof.
  destruct (lstrip_by_split p (rev s)) as [a [E Ha]].
  exists (rev a). split.
  - unfold rstrip_by. rewrite <- rev_app_distr, <- E. symmetry. apply rev_involutive.
  - rewrite forallb_forall in *. intros x Hx. apply Ha. now apply in_rev.
Qed.

(** What [strip] returns starts and ends outside the class. *)
Lemma strip_by_bare (p : char -> bool) (s : str) : bare p (strip_by p s) = true.
Proof.
  unfold strip_by, bare.
  pose proof (lstrip_by_starts p s) as H0.
  set (x := lstrip_by p s) in *.
  destruct (rstrip_by_split p x) as [b [E Hb]].
  apply andb_true_intro. split.
  - destruct (rstrip_by p x) as [|c r] eqn:R; [reflexivity|].
    rewrite E in H0. simpl in H0. exact H0.
  - unfold rstrip_by. rewrite rev_involutive.
    pose proof (lstrip_by_starts p (rev x)) as H1.
    destruct (lstrip_by p (rev x)); simpl in *; [reflexivity | exact H1].
Qed.

(** ** Splitting *)

Lemma split_no_sep (sep : char) (s : str) :
  forallb (fun c => negb (c =? sep)) s = true -> split sep s = [s].
Proof.
  induction s as [|c s IH]; simpl; intros H; [reflexivity|].
  apply andb_prop in H as [Hc H]. apply negb_true_iff in Hc.
  rewrite Hc, IH by exact H. reflexivity.
Qed.

Lemma split_app (sep : char) (a b : str) :
  forallb (fun c => negb (c =? sep)) a = true ->
  split sep (a ++ sep :: b) = a :: split sep b.
Proof.
  induction a as [|c a IH]; simpl; intros H.
  - now rewrite N.eqb_refl.
  - apply andb_prop in H as [Hc H]. apply negb_true_iff in Hc.
    rewrite Hc, IH by exact H. reflexivity.
Qed.

(** ** [int] on a literal *)

Lemma scan_digits_run (ds : str) :
  forall acc n,
  forallb isdigit ds = true ->
  scan_digits false (Z.of_N acc) n ds
  = Some (Z.of_N (fold_left (fun a c => 10 * a + (c - 48)) ds acc),
          (n + List.length ds)%nat, []).
Proof.
  induction ds as [|c ds IH]; intros acc n H.
  - cbn. now rewrite Nat.add_0_r.
  - cbn [forallb] in H. apply andb_prop in H as [Hc H].
    cbn [scan_digits fold_left List.length]. rewrite Hc.
    replace (10 * Z.of_N acc + Z.of_N (c - 48))%Z with (Z.of_N (10 * acc + (c - 48)))
      by lia.
    rewrite IH by exact H. do 3 f_equal. lia.
Qed.

Lemma isdigit_facts (c : char) :
  isdigit c = true ->
  (c <? 128) = true /\ c_isspace c = false /\ (c =? UNDERSCORE) = false
  /\ (c =? PLUS) = false /\ (c =? MINUS) = false /\ isspace c = false
  /\ value_char c = true /\ char_in quote_chars c = false.
Proof.
  unfold isdigit, in_range. intros H. apply andb_prop in H as [H1 H2].
  apply N.leb_le in H1, H2.
  assert (c = 48 \/ c = 49 \/ c = 50 \/ c = 51 \/ c = 52 \/ c = 53 \/ c = 54
          \/ c = 55 \/ c = 56 \/ c = 57) as Hc by lia.
  repeat (destruct Hc as [-> | Hc]; [repeat split; reflexivity|]).
  subst c. repeat split; reflexivity.
Qed.

Lemma long_from_string_literal (max : nat) (neg : bool) (ds : str) :
  ds <> [] ->
  forallb isdigit ds = true ->
  over_digit_limit max (List.length ds) = false ->
  long_from_string max (int_literal neg ds) = Some (int_literal_value neg ds).
Proof.
  intros Hne Hds Hmax.
  destruct ds as [|d ds]; [congruence|].
  pose proof Hds as Hd. simpl in Hd. apply andb_prop in Hd as [Hd _].
  destruct (isdigit_facts _ Hd) as (_ & Hsp & Hu & Hp & Hm & _).
  pose proof (scan_digits_run (d :: ds) 0 0 Hds) as Hscan.
  change (Z.of_N 0) with 0%Z in Hscan.
  unfold long_from_string, int_literal, int_literal_value, digits_value.
  destruct neg.
  - cbn [lstrip_by]. change (c_isspace MINUS) with false. cbv iota.
    change (MINUS =? PLUS) with false. change (MINUS =? MINUS) with true. cbv iota.
    rewrite Hu, Hscan. cbn [Nat.add List.length lstrip_by].
    cbn [List.length] in Hmax. now rewrite Hmax.
  - cbn [lstrip_by]. rewrite Hsp, Hp, Hm, Hu, Hscan.
    cbn [Nat.add List.length lstrip_by].
    cbn [List.length] in Hmax. now rewrite Hmax.
Qed.

Lemma int_of_str_literal (rt : runtime) (neg : bool) (ds : str) :
  ds <> [] ->
  forallb isdigit ds = true ->
  over_digit_limit (int_max_str_digits rt) (List.length ds) = false ->
  int_of_str rt (int_literal neg ds) = Some (int_literal_value neg ds).
Proof.
  intros Hne Hds Hmax. unfold int_of_str, transform_decimal_and_space.
  assert (forallb (fun c => c <? 128) (int_literal neg ds) = true) as ->.
  { assert (forallb (fun c => c <? 128) ds = true) as H.
    { rewrite forallb_forall in *. intros c Hc. now apply isdigit_facts, Hds. }
    destruct neg; simpl; [|exact H]. now rewrite H. }
  now apply long_from_string_literal.
Qed.

Lemma rev_cons_head (a : char) (s : str) (f : char -> bool) :
  s <> [] ->
  match rev (a :: s) with [] => false | c :: _ => f c end
  = match rev s with [] => false | c :: _ => f c end.
Proof.
  intros H. cbn [rev]. destruct (rev s) as [|c r] eqn:E; [|reflexivity].
  apply (f_equal (@rev char)) in E. rewrite rev_involutive in E. now subst s.
Qed.

Lemma int_literal_shape (neg : bool) (ds : str) :
  ds <> [] ->
  forallb isdigit ds = true ->
  int_literal neg ds <> []
  /\ starts_in (fun c => negb (isspace c)) (int_literal neg ds) = true
  /\ forallb value_char (int_literal neg ds) = true
  /\ bare (char_in quote_chars) (int_literal neg ds) = true.
Proof.
  intros Hne Hds.
  assert (Hall : forall c, In c ds ->
            isspace c = false /\ value_char c = true /\ char_in quote_chars c = false).
  { intros c Hc. rewrite forallb_forall in Hds.
    destruct (isdigit_facts _ (Hds c Hc)) as (_ & _ & _ & _ & _ & H1 & H2 & H3). auto. }
  assert (Hvc : forallb value_char ds = true).
  { apply forallb_forall. intros c Hc. now apply Hall. }
  assert (Hlast : match rev ds with [] => false | c :: _ => char_in quote_chars c end
                  = false).
  { destruct (rev ds) as [|c r] eqn:E; [reflexivity|].
    apply Hall. apply in_rev. rewrite E. now left. }
  assert (Hfirst : match ds with [] => false | c :: _ => char_in quote_chars c end = false
                   /\ starts_in (fun c => negb (isspace c)) ds = true).
  { destruct ds as [|d ds]; [congruence|].
    destruct (Hall d (or_introl eq_refl)) as (H1 & _ & H3).
    split; [exact H3|]. cbn [starts_in]. now rewrite H1. }
  destruct Hfirst as [Hf1 Hf2].
  unfold bare. destruct neg; cbn [int_literal].
  - split; [discriminate|]. split; [reflexivity|]. split.
    + change (forallb value_char (MINUS :: ds))
        with (value_char MINUS && forallb value_char ds).
      now rewrite Hvc.
    + rewrite rev_cons_head by exact Hne. now rewrite Hlast.
  - split; [exact Hne|]. split; [exact Hf2|]. split; [exact Hvc|].
    now rewrite Hf1, Hlast.
Qed.

Lemma string_literal_shape (s : str) :
  plain_value s = true ->
  string_literal s <> []
  /\ starts_in (fun c => negb (isspace c)) (string_literal s) = true
  /\ forallb value_char (string_literal s) = true
  /\ strip_chars quote_chars (string_literal s) = s.
Proof.
  unfold plain_value, string_literal. intros H. apply andb_prop in H as [Hc Hb].
  split; [discriminate|]. split; [reflexivity|]. split.
  - change (forallb value_char (QUOTE :: s ++ [QUOTE]))
      with (value_char QUOTE && forallb value_char (s ++ [QUOTE])).
    rewrite forallb_app. change (forallb value_char [QUOTE]) with true.
    rewrite andb_true_r. change (value_char QUOTE) with true. cbn [andb].
    rewrite forallb_forall in *. intros c Hin. specialize (Hc c Hin).
    apply andb_prop in Hc as [Hc _]. now apply andb_prop in Hc as [Hc _].
  - change (QUOTE :: s ++ [QUOTE]) with ([QUOTE] ++ s ++ [QUOTE]).
    now apply strip_by_wrapped.
Qed.

(** ** The extractor on a key that is there *)

Lemma extract_int_at (rt : runtime) (pre key ws post : str) (neg : bool) (ds : str) :
  find (key_prefix key) (pre ++ key_prefix key ++ ws ++ int_literal neg ds ++ post)
  = Some (List.length pre) ->
  forallb isspace ws = true ->
  value_end post = true ->
  ds <> [] ->
  forallb isdigit ds = true ->
  over_digit_limit (int_max_str_digits rt) (List.length ds) = false ->
  extract_value (pre ++ key_prefix key ++ ws ++ int_literal neg ds ++ post) key
    (py_int rt)
  = int_literal_value neg ds.
Proof.
  intros Hf Hws Hpost Hne Hds Hmax.
  destruct (int_literal_shape neg Hne Hds) as (H1 & H2 & H3 & H4).
  unfold extract_value. rewrite search_value_at by assumption.
  unfold strip_chars. rewrite bare_strip by exact H4.
  cbn [call py_int]. now rewrite int_of_str_literal.
Qed.

Lemma extract_str_at (pre key ws post s : str) :
  find (key_prefix key) (pre ++ key_prefix key ++ ws ++ string_literal s ++ post)
  = Some (List.length pre) ->
  forallb isspace ws = true ->
  value_end post = true ->
  plain_value s = true ->
  extract_value (pre ++ key_prefix key ++ ws ++ string_literal s ++ post) key py_str
  = s.
Proof.
  intros Hf Hws Hpost Hs.
  destruct (string_literal_shape s Hs) as (H1 & H2 & H3 & H4).
  unfold extract_value. rewrite search_value_at by assumption.
  now rewrite H4.
Qed.

Lemma forallb_join (p : char -> bool) (sep : str) (items : list str) :
  forallb p sep = true ->
  forallb (forallb p) items = true ->
  forallb p (join sep items) = true.
Proof.
  intros Hsep. induction items as [|x r IH]; intros H; [reflexivity|].
  cbn [forallb] in H. apply andb_prop in H as [Hx Hr].
  destruct r as [|y r]; [exact Hx|].
  change (join sep (x :: y :: r)) with (x ++ sep ++ join sep (y :: r)).
  rewrite !forallb_app, Hx, Hsep. now rewrite IH.
Qed.

Lemma plain_item_facts (s : str) :
  plain_item s = true ->
  forallb item_char (string_literal s) = true
  /\ forallb (fun c => negb (c =? COMMA)) (string_literal s) = true
  /\ bare (char_in quote_chars) s = true.
Proof.
  unfold plain_item, string_literal. intros H. apply andb_prop in H as [Hc Hb].
  assert (forallb item_char s = true /\ forallb (fun c => negb (c =? COMMA)) s = true)
    as [H1 H2].
  { split; apply forallb_forall; intros c Hin; rewrite forallb_forall in Hc;
      specialize (Hc c Hin);
      apply andb_prop in Hc as [Hc _]; apply andb_prop in Hc as [Hc _];
      apply andb_prop in Hc as [Hc1 Hc2]; assumption. }
  split; [|split; [|exact Hb]].
  - change (QUOTE :: s ++ [QUOTE]) with ([QUOTE] ++ s ++ [QUOTE]).
    rewrite !forallb_app. apply andb_true_intro. split; [reflexivity|].
    apply andb_true_intro. split; [exact H1 | reflexivity].
  - change (QUOTE :: s ++ [QUOTE]) with ([QUOTE] ++ s ++ [QUOTE]).
    rewrite !forallb_app. apply andb_true_intro. split; [reflexivity|].
    apply andb_true_intro. split; [exact H2 | reflexivity].
Qed.

(** The items [split] finds in the body of a list literal. *)
Lemma split_list_body (x : str) (r : list str) :
  forallb plain_item (x :: r) = true ->
  split COMMA (join [COMMA; SPACE] (map string_literal (x :: r)))
  = string_literal x :: map (fun y => SPACE :: string_literal y) r.
Proof.
  revert x. induction r as [|y r IH]; intros x H.
  - cbn [forallb] in H. apply andb_prop in H as [Hx _].
    apply plain_item_facts in Hx as (_ & Hx & _).
    cbn [map join]. now apply split_no_sep.
  - cbn [forallb] in H. apply andb_prop in H as [Hx Hr].
    apply plain_item_facts in Hx as (_ & Hx & _).
    change (join [COMMA; SPACE] (map string_literal (x :: y :: r)))
      with (string_literal x
            ++ COMMA :: SPACE :: join [COMMA; SPACE] (map string_literal (y :: r))).
    rewrite split_app by exact Hx.
    cbn [split]. change (SPACE =? COMMA) with false. cbv iota.
    rewrite IH by exact Hr. reflexivity.
Qed.

Lemma list_item_kept (s : str) (pad : str) :
  forallb (N.eqb SPACE) pad = true ->
  bare (char_in quote_chars) s = true ->
  nonblank (pad ++ string_literal s) = true
  /\ strip_chars quote_chars (pad ++ string_literal s) = s.
Proof.
  intros Hpad Hs. split.
  - unfold nonblank, strip.
    assert (strip_by isspace (pad ++ string_literal s ++ []) = string_literal s) as E.
    { apply strip_by_wrapped; [| reflexivity |].
      - rewrite forallb_forall in *. intros c Hc. specialize (Hpad c Hc).
        apply N.eqb_eq in Hpad. now subst c.
      - unfold bare, string_literal. cbn [negb andb].
        change (QUOTE :: s ++ [QUOTE]) with ([QUOTE] ++ s ++ [QUOTE]).
        rewrite !rev_app_distr. reflexivity. }
    rewrite app_nil_r in E. rewrite E. reflexivity.
  - unfold strip_chars, string_literal.
    change (pad ++ QUOTE :: s ++ [QUOTE]) with (pad ++ [QUOTE] ++ s ++ [QUOTE]).
    rewrite app_assoc. apply strip_by_wrapped; [| reflexivity | exact Hs].
    rewrite forallb_app. cbn. rewrite andb_true_r.
    rewrite forallb_forall in *. intros c Hc. specialize (Hpad c Hc).
    apply N.eqb_eq in Hpad. now subst c.
Qed.

Lemma extract_list_at (pre key ws post : str) (items : list str) :
  find (key_prefix key) (pre ++ key_prefix key ++ ws ++ list_literal items ++ post)
  = Some (List.length pre) ->
  forallb isspace ws = true ->
  items <> [] ->
  forallb plain_item items = true ->
  extract_list (pre ++ key_prefix key ++ ws ++ list_literal items ++ post) key = items.
Proof.
  intros Hf Hws Hne Hitems.
  destruct items as [|x r]; [congruence|].
  set (body := join [COMMA; SPACE] (map string_literal (x :: r))).
  assert (Hshape : list_literal (x :: r) ++ post = LBRACKET :: body ++ RBRACKET :: post).
  { unfold list_literal. fold body. cbn [app]. now rewrite <- app_assoc. }
  rewrite Hshape in *.
  assert (Hbody : forallb item_char body = true).
  { apply forallb_join; [reflexivity|].
    rewrite forallb_forall in *. intros l Hl. apply in_map_iff in Hl as [s [<- Hs]].
    now apply plain_item_facts, Hitems. }
  assert (Hbne : body <> []).
  { unfold body. cbn [map]. destruct (map string_literal r); discriminate. }
  unfold extract_list. rewrite search_list_at by assumption.
  unfold body. rewrite split_list_body by exact Hitems.
  cbn [forallb] in Hitems. apply andb_prop in Hitems as [Hx Hr].
  apply plain_item_facts in Hx as (_ & _ & Hx).
  destruct (@list_item_kept x [] eq_refl Hx) as [Hk Hv]. cbn [app] in Hk, Hv.
  cbn [filter]. rewrite Hk. cbn [map]. rewrite Hv. f_equal.
  clear - Hr. induction r as [|y r IH]; [reflexivity|].
  cbn [forallb] in Hr. apply andb_prop in Hr as [Hy Hr].
  apply plain_item_facts in Hy as (_ & _ & Hy).
  destruct (@list_item_kept y [SPACE] eq_refl Hy) as [Hk Hv]. cbn [app] in Hk, Hv.
  cbn [map filter]. rewrite Hk. cbn [map]. rewrite Hv. f_equal. now apply IH.
Qed.

(** ** The fallback extractor: the claims *)

(** C1.  When the pattern of a key finds no match in the text, the
    extractor returns the default of the requested type: [int()], which
    is 0, [str()], which is the empty string, and the empty list for
    [extract_list].  The key is a word (letters, digits, underscores), so
    that it stands for itself in the pattern. *)
Theorem C1_absent_key_defaults (rt : runtime) (text key : str) :
  word_key key = true ->
  (re_search (value_pattern key) text = None ->
   extract_value text key (py_int rt) = 0%Z
   /\ extract_value text key py_str = [])
  /\ (re_search (list_pattern key) text = None -> extract_list text key = []).
Proof.
  intros _. split.
  - intros H. unfold extract_value. rewrite H. split; reflexivity.
  - intros H. unfold extract_list. now rewrite H.
Qed.

Lemma C1_absent_key_defaults_witness :
  extract_value (pyq "{'summary': 'fine'}") (py "match_score") (py_int default_runtime)
  = 0%Z
  /\ extract_value (pyq "{'match_score': 75}") (py "summary") py_str = []
  /\ extract_list (pyq "{'match_score': 75}") (py "suggestions") = [].
Proof.
  split; [|split].
  - apply (@C1_absent_key_defaults default_runtime
             (pyq "{'summary': 'fine'}") (py "match_score") eq_refl).
    reflexivity.
  - apply (@C1_absent_key_defaults default_runtime
             (pyq "{'match_score': 75}") (py "summary") eq_refl).
    reflexivity.
  - apply (@C1_absent_key_defaults default_runtime
             (pyq "{'match_score': 75}") (py "suggestions") eq_refl).
    reflexivity.
Defined.

(** X1.  For a key made of letters, digits and underscores, which
    stands for itself in the pattern: a text in which the quoted key
    and its colon occur nowhere has no match, so the defaults are what
    comes back. *)
Lemma missing_key_defaults (rt : runtime) (text key : str) :
  word_key key = true ->
  find (key_prefix key) text = None ->
  extract_value text key (py_int rt) = 0%Z
  /\ extract_value text key py_str = []
  /\ extract_list text key = [].
Proof.
  intros _ H. unfold extract_value, extract_list, value_pattern, list_pattern.
  rewrite !re_search_absent by exact H. repeat split.
Qed.

Lemma missing_key_defaults_witness :
  extract_value (py "I cannot answer that.") (py "experience") (py_int default_runtime)
  = 0%Z.
Proof.
  apply (@missing_key_defaults default_runtime
           (py "I cannot answer that.") (py "experience") eq_refl).
  reflexivity.
Defined.

(** C2, as the code has it.  Take a text in which the quoted key and its
    colon first occur after [pre], followed by white space [ws] and a
    literal.
    - A decimal integer, with a minus sign or not, within the digit limit
      of [int] and ended by a comma, a line feed, a closing brace or the
      end of the text: [extract_value] with [int] returns that integer.
    - A string literal whose content has no comma, line feed, closing
      brace, quote or backslash, and no space or apostrophe at either
      end, ended the same way: [extract_value] with [str] returns the
      content.
    - A list of one or more such string literals (no closing bracket in
      them either), a comma and a space between two of them:
      [extract_list] returns the contents in order. *)
Theorem C2_simple_literals_extracted (rt : runtime) (pre key ws post : str) :
  word_key key = true ->
  forallb isspace ws = true ->
  (forall neg ds,
      find (key_prefix key) (pre ++ key_prefix key ++ ws ++ int_literal neg ds ++ post)
      = Some (List.length pre) ->
      value_end post = true ->
      ds <> [] ->
      forallb isdigit ds = true ->
      over_digit_limit (int_max_str_digits rt) (List.length ds) = false ->
      extract_value (pre ++ key_prefix key ++ ws ++ int_literal neg ds ++ post) key
        (py_int rt)
      = int_literal_value neg ds)
  /\ (forall s,
      find (key_prefix key) (pre ++ key_prefix key ++ ws ++ string_literal s ++ post)
      = Some (List.length pre) ->
      value_end post = true ->
      plain_value s = true ->
      extract_value (pre ++ key_prefix key ++ ws ++ string_literal s ++ post) key py_str
      = s)
  /\ (forall items,
      find (key_prefix key) (pre ++ key_prefix key ++ ws ++ list_literal items ++ post)
      = Some (List.length pre) ->
      items <> [] ->
      forallb plain_item items = true ->
      extract_list (pre ++ key_prefix key ++ ws ++ list_literal items ++ post) key
      = items).
Proof.
  intros _ Hws. split; [|split].
  - intros neg ds Hf Hpost Hne Hds Hmax. now apply extract_int_at.
  - intros s Hf Hpost Hs. now apply extract_str_at.
  - intros items Hf Hne Hitems. now apply extract_list_at.
Qed.

Lemma C2_simple_literals_extracted_witness :
  extract_value (pyq "{'match_score': 75, 'summary': 'Strong skills'}")
    (py "match_score") (py_int default_runtime) = 75%Z
  /\ extract_value (pyq "{'match_score': 75, 'summary': 'Strong skills'}")
       (py "summary") py_str = py "Strong skills"
  /\ extract_list (pyq "{'matching_skills': ['Python', 'ML'], }")
       (py "matching_skills") = [py "Python"; py "ML"].
Proof.
  split; [|split].
  - exact (proj1 (@C2_simple_literals_extracted default_runtime
                    (pyq "{") (py "match_score") (py " ")
                    (pyq ", 'summary': 'Strong skills'}") eq_refl eq_refl)
             false (py "75") eq_refl eq_refl
             (fun H => eq_ind (py "75") (fun l => match l with [] => False | _ => True end)
                         I [] H)
             eq_refl eq_refl).
  - exact (proj1 (proj2 (@C2_simple_literals_extracted default_runtime
                    (pyq "{'match_score': 75, ") (py "summary") (py " ")
                    (pyq "}") eq_refl eq_refl))
             (py "Strong skills") eq_refl eq_refl eq_refl).
  - exact (proj2 (proj2 (@C2_simple_literals_extracted default_runtime
                    (pyq "{") (py "matching_skills") (py " ")
                    (pyq ", }") eq_refl eq_refl))
             [py "Python"; py "ML"] eq_refl
             (fun H => eq_ind [py "Python"; py "ML"]
                         (fun l => match l with [] => False | _ => True end) I [] H)
             eq_refl).
Defined.

(** C2 as it is stated fails: a string literal may hold a comma, and so
    may an element of a list; the value pattern stops at the first comma
    and [split] cuts the element in two.  A number with a fraction does
    not convert: [int] refuses it and the default comes back. *)
Lemma C2_counterexample :
  extract_value
    (pyq "{" ++ key_prefix (py "summary") ++ py " "
     ++ string_literal (py "Good, but no cloud") ++ pyq "}")
    (py "summary") py_str
  = py "Good"
  /\ py "Good" <> py "Good, but no cloud"
  /\ extract_list
       (pyq "{" ++ key_prefix (py "missing_skills") ++ py " "
        ++ list_literal [py "AWS, Azure"; py "Go"] ++ pyq "}")
       (py "missing_skills")
     = [py "AWS"; py "Azure"; py "Go"]
  /\ [py "AWS"; py "Azure"; py "Go"] <> [py "AWS, Azure"; py "Go"]
  /\ extract_value (pyq "{'experience': 2.5}") (py "experience")
       (py_int default_runtime)
     = 0%Z.
Proof.
  repeat split; try reflexivity; discriminate.
Qed.

(** C9, as the code has it.  Take a text in which the quoted key and its
    colon first occur after [pre], followed by white space and a
    bracketed body that is not empty and holds no closing bracket.
    [extract_list] cuts the body at its commas, drops the items that are
    empty or white space only, and returns the others in order, each
    without the spaces, double quotes and apostrophes at its two ends.
    No returned element starts or ends with one of these three
    characters. *)
Theorem C9_list_items (pre key ws body post : str) :
  word_key key = true ->
  find (key_prefix key)
    (pre ++ key_prefix key ++ ws ++ LBRACKET :: body ++ RBRACKET :: post)
  = Some (List.length pre) ->
  forallb isspace ws = true ->
  body <> [] ->
  forallb item_char body = true ->
  let result :=
    extract_list
      (pre ++ key_prefix key ++ ws ++ LBRACKET :: body ++ RBRACKET :: post) key in
  let kept := filter nonblank (split COMMA body) in
  result = map (strip_chars quote_chars) kept
  /\ (forall item, In item kept <-> In item (split COMMA body) /\ strip item <> [])
  /\ (forall e, In e result -> bare (char_in quote_chars) e = true).
Proof.
  intros _ Hf Hws Hne Hbody result kept.
  assert (E : result = map (strip_chars quote_chars) kept).
  { unfold result, extract_list. now rewrite search_list_at by assumption. }
  split; [exact E|]. split.
  - intros item. unfold kept. rewrite filter_In. unfold nonblank.
    destruct (strip item); split; intros [H1 H2]; split; auto; congruence.
  - intros e He. rewrite E in He. apply in_map_iff in He as [item [<- _]].
    apply strip_by_bare.
Qed.

Lemma C9_list_items_witness :
  extract_list (pyq "{'suggestions': [ 'Add AWS' ,, 'Ship more',  ], 'x': 1}")
    (py "suggestions")
  = [py "Add AWS"; py "Ship more"].
Proof.
  exact (proj1 (@C9_list_items (pyq "{") (py "suggestions") (py " ")
                  (pyq " 'Add AWS' ,, 'Ship more',  ") (pyq ", 'x': 1}")
                  eq_refl eq_refl eq_refl
                  (fun H => eq_ind (pyq " 'Add AWS' ,, 'Ship more',  ")
                              (fun l => match l with [] => False | _ => True end)
                              I [] H)
                  eq_refl)).
Defined.

(** C9 as it is stated fails: only spaces and the two quotes are taken
    off an item.  In a list written over two lines the second item keeps
    its line feed, and with it the double quote behind. *)
Lemma C9_counterexample :
  extract_list (pyq "{'matching_skills': ['Python',
'ML']}") (py "matching_skills")
  = [py "Python"; NEWLINE :: QUOTE :: py "ML"]
  /\ strip (NEWLINE :: QUOTE :: py "ML") <> NEWLINE :: QUOTE :: py "ML"
  /\ strip_chars [QUOTE] (strip (NEWLINE :: QUOTE :: py "ML")) = py "ML".
Proof.
  repeat split; try reflexivity; discriminate.
Qed.

(** ** [parse_gemini_response]: the claims *)

Lemma is_str_list_map (l : list str) : is_str_list (VList (map VStr l)) = true.
Proof. cbn. induction l as [|x l IH]; [reflexivity|exact IH]. Qed.

Lemma fallback_typed (rt : runtime) (text : str) :
  typed_analysis (fallback rt text) = true.
Proof.
  unfold fallback, typed_analysis, field.
  generalize (extract_value text (py "match_score") (py_int rt)).
  generalize (extract_value text (py "experience") (py_int rt)).
  generalize (extract_value text (py "summary") py_str).
  generalize (extract_list text (py "matching_skills")).
  generalize (extract_list text (py "missing_skills")).
  generalize (extract_list text (py "suggestions")).
  intros l1 l2 l3 s1 z1 z2.
  cbn -[is_str_list]. now rewrite !is_str_list_map.
Qed.

Lemma parse_decode_error (rt : runtime) (text : str) :
  json_loads rt (clean_text text) = Raise JSONDecodeError ->
  parse_gemini_response rt text = Return (fallback rt text).
Proof. unfold parse_gemini_response. intros H. now rewrite H. Qed.

Lemma parse_strict (rt : runtime) (text : str) (v : value) :
  json_loads rt (clean_text text) = Return v ->
  parse_gemini_response rt text = Return v.
Proof. unfold parse_gemini_response. intros H. now rewrite H. Qed.

(** C3.  When [json.loads] on the cleaned text raises a decode error,
    the error goes no further: [parse_gemini_response] returns the
    dictionary of the six fields, each one what [extract_value] (with
    [int] for the two numbers, with [str] for the summary) or
    [extract_list] reads for its key in the reply as it came, fence and
    all.  When the cleaned text is valid JSON it returns the value
    [json.loads] gives. *)
Theorem C3_strict_then_fallback (rt : runtime) (text : str) :
  (json_loads rt (clean_text text) = Raise JSONDecodeError ->
   parse_gemini_response rt text
   = Return
       (VDict
          [ (py "match_score",
             VInt (extract_value text (py "match_score") (py_int rt)));
            (py "matching_skills",
             VList (map VStr (extract_list text (py "matching_skills"))));
            (py "missing_skills",
             VList (map VStr (extract_list text (py "missing_skills"))));
            (py "experience",
             VInt (extract_value text (py "experience") (py_int rt)));
            (py "suggestions",
             VList (map VStr (extract_list text (py "suggestions"))));
            (py "summary",
             VStr (extract_value text (py "summary") py_str)) ]))
  /\ (forall v, json_loads rt (clean_text text) = Return v ->
                parse_gemini_response rt text = Return v).
Proof.
  split.
  - intros H. rewrite (parse_decode_error _ _ H). reflexivity.
  - intros v. apply parse_strict.
Qed.

Lemma C3_strict_then_fallback_witness :
  parse_gemini_response default_runtime
    (pyq "Sure! 'match_score': 80, 'experience': 3, 'missing_skills': ['AWS']")
  = Return
      (VDict
         [ (py "match_score", VInt 80); (py "matching_skills", VList []);
           (py "missing_skills", VList [VStr (py "AWS")]); (py "experience", VInt 3);
           (py "suggestions", VList []); (py "summary", VStr []) ])
  /\ parse_gemini_response default_runtime (pyq " {'match_score': 80, 'experience': 3} ")
     = Return (VDict [(py "match_score", VInt 80); (py "experience", VInt 3)]).
Proof.
  split.
  - apply (proj1 (C3_strict_then_fallback default_runtime
                    (pyq "Sure! 'match_score': 80, 'experience': 3, 'missing_skills': ['AWS']"))).
    reflexivity.
  - apply (proj2 (C3_strict_then_fallback default_runtime
                    (pyq " {'match_score': 80, 'experience': 3} "))).
    reflexivity.
Defined.

(** C4, as the code has it.  A result of the fallback branch has the six
    fields with their types: [match_score] and [experience] are
    integers, the three lists are lists of strings, [summary] is a
    string.  Nothing keeps [match_score] between 0 and 100. *)
Theorem C4_fallback_typed (rt : runtime) (text : str) :
  json_loads rt (clean_text text) = Raise JSONDecodeError ->
  exists v, parse_gemini_response rt text = Return v /\ typed_analysis v = true.
Proof.
  intros H. exists (fallback rt text). split.
  - now apply parse_decode_error.
  - apply fallback_typed.
Qed.

Lemma C4_fallback_typed_witness :
  exists v,
    parse_gemini_response default_runtime (pyq "Score: 'match_score': 80,") = Return v
    /\ typed_analysis v = true.
Proof.
  apply (@C4_fallback_typed default_runtime (pyq "Score: 'match_score': 80,")).
  reflexivity.
Defined.

(** C4 as it is stated fails on both branches.  The fallback converts
    whatever integer follows the key, here 150 and -5; the strict branch
    returns the parsed value unchecked, here a dictionary whose
    [match_score] is a string and that has no other field. *)
Lemma C4_counterexample :
  parse_gemini_response default_runtime (pyq "'match_score': 150, 'experience': -5")
  = Return
      (VDict
         [ (py "match_score", VInt 150); (py "matching_skills", VList []);
           (py "missing_skills", VList []); (py "experience", VInt (-5));
           (py "suggestions", VList []); (py "summary", VStr []) ])
  /\ analysis_record
       (VDict
          [ (py "match_score", VInt 150); (py "matching_skills", VList []);
            (py "missing_skills", VList []); (py "experience", VInt (-5));
            (py "suggestions", VList []); (py "summary", VStr []) ])
     = false
  /\ parse_gemini_response default_runtime (pyq "{'match_score': 'high'}")
     = Return (VDict [(py "match_score", VStr (py "high"))])
  /\ analysis_record (VDict [(py "match_score", VStr (py "high"))]) = false.
Proof. repeat split; reflexivity. Qed.

Lemma field_names_distinct : NoDup field_names.
Proof.
  unfold field_names.
  repeat (constructor; [cbn; intuition discriminate|]). constructor.
Qed.

(** C6.  When the fallback runs, the dictionary returned has the six
    keys [match_score], [matching_skills], [missing_skills],
    [experience], [suggestions] and [summary], each once and no other;
    [match_score] and [experience] come from [extract_value] with [int],
    the three lists from [extract_list], [summary] from [extract_value]
    with [str]. *)
Theorem C6_fallback_six_fields (rt : runtime) (text : str) :
  json_loads rt (clean_text text) = Raise JSONDecodeError ->
  exists d,
    parse_gemini_response rt text = Return (VDict d)
    /\ map fst d = field_names
    /\ NoDup (map fst d)
    /\ dict_get (py "match_score") d
       = Some (VInt (extract_value text (py "match_score") (py_int rt)))
    /\ dict_get (py "matching_skills") d
       = Some (VList (map VStr (extract_list text (py "matching_skills"))))
    /\ dict_get (py "missing_skills") d
       = Some (VList (map VStr (extract_list text (py "missing_skills"))))
    /\ dict_get (py "experience") d
       = Some (VInt (extract_value text (py "experience") (py_int rt)))
    /\ dict_get (py "suggestions") d
       = Some (VList (map VStr (extract_list text (py "suggestions"))))
    /\ dict_get (py "summary") d
       = Some (VStr (extract_value text (py "summary") py_str)).
Proof.
  intros H. eexists. split; [apply (parse_decode_error _ _ H)|].
  split; [reflexivity|]. split; [exact field_names_distinct|].
  repeat split.
Qed.

Lemma C6_fallback_six_fields_witness :
  exists d,
    parse_gemini_response default_runtime (pyq "'summary': 'ok', 'experience': 4,")
    = Return (VDict d)
    /\ map fst d = field_names
    /\ dict_get (py "experience") d = Some (VInt 4)
    /\ dict_get (py "summary") d = Some (VStr (py "ok")).
Proof.
  destruct (@C6_fallback_six_fields default_runtime
              (pyq "'summary': 'ok', 'experience': 4,") eq_refl)
    as (d & H1 & H2 & _ & _ & _ & _ & H3 & _ & H4).
  exists d. repeat split; assumption.
Defined.

(** ** [json.loads] *)

Ltac break_match_hyp H :=
  match type of H with
  | context [match ?x with _ => _ end] => destruct x eqn:?
  end.

Ltac break_any :=
  match goal with
  | H : context [match ?x with _ => _ end] |- _ => destruct x eqn:?
  end.

Lemma scanstring_failure (s : str) :
  forall acc e, scanstring acc s = Failed e -> e = JSONDecodeError.
Proof.
  assert (forall n s, (List.length s <= n)%nat ->
            forall acc e, scanstring acc s = Failed e -> e = JSONDecodeError) as H.
  { clear s. induction n as [|n IH]; intros s Hn acc e H.
    - destruct s; [|simpl in Hn; lia]. cbn in H. congruence.
    - destruct s as [|c r]; [cbn in H; congruence|].
      cbn [scanstring] in H. cbn [List.length] in Hn.
      repeat (break_match_hyp H; try congruence);
        cbn [List.length] in Hn;
        (eapply IH; [|exact H]; cbn [List.length]; lia). }
  intros. eapply H; eauto.
Qed.

Lemma scanstring_shorter (s : str) :
  forall acc k r, scanstring acc s = Scanned k r -> (List.length r < List.length s)%nat.
Proof.
  assert (forall n s, (List.length s <= n)%nat ->
            forall acc k r, scanstring acc s = Scanned k r ->
                            (List.length r < List.length s)%nat) as H.
  { clear s. induction n as [|n IH]; intros s Hn acc k r H.
    - destruct s; [|simpl in Hn; lia]. cbn in H. congruence.
    - destruct s as [|c r0]; [cbn in H; congruence|].
      cbn [scanstring] in H. cbn [List.length] in Hn.
      repeat (break_match_hyp H; try congruence);
        cbn [List.length] in Hn |- *;
        try (injection H as <- <-; lia);
        (eapply IH in H; [cbn [List.length] in H; lia | cbn [List.length]; lia]). }
  intros. eapply H; eauto.
Qed.

Lemma span_length (p : char -> bool) (s a b : str) :
  span p s = (a, b) -> (List.length b <= List.length s)%nat.
Proof.
  revert a b. induction s as [|c s IH]; intros a b H; cbn in H.
  - injection H as <- <-. cbn. lia.
  - destruct (p c).
    + destruct (span p s) as [a' b'] eqn:E. injection H as <- <-.
      specialize (IH _ _ eq_refl). cbn. lia.
    + injection H as <- <-. cbn. lia.
Qed.

Ltac tidy :=
  repeat match goal with
         | E : span _ _ = _ |- _ => apply span_length in E
         | E : (_, _) = (_, _) |- _ => inversion E; clear E; subst
         | E : Some _ = Some _ |- _ => inversion E; clear E; subst
         | E : Scanned _ _ = Scanned _ _ |- _ => inversion E; clear E; subst
         | E : Failed _ = Failed _ |- _ => inversion E; clear E; subst
         | E : Some _ = None |- _ => discriminate E
         | E : None = Some _ |- _ => discriminate E
         end.

Lemma scan_exponent_shorter (s : str) (e : Z) (r : str) :
  scan_exponent s = Some (e, r) -> (List.length r < List.length s)%nat.
Proof.
  unfold scan_exponent. intros H.
  repeat (break_any; try congruence); tidy; cbn [List.length] in *; lia.
Qed.

Lemma match_number_shorter (md : nat) (s : str) (v : value) (r : str) :
  match_number md s = Scanned v r -> (List.length r < List.length s)%nat.
Proof.
  unfold match_number. intros H.
  repeat (break_any; try congruence); tidy;
    repeat match goal with
           | E : scan_exponent _ = Some _ |- _ => apply scan_exponent_shorter in E
           end;
    cbn [List.length] in *; lia.
Qed.

Lemma match_number_failure (md : nat) (s : str) (e : exn) :
  match_number md s = Failed e -> json_error e = true.
Proof.
  unfold match_number. intros H.
  repeat (break_any; try congruence); tidy; reflexivity.
Qed.

Lemma match_number_value (md : nat) (s : str) (v : value) (r : str) :
  match_number md s = Scanned v r -> v <> VNone.
Proof.
  unfold match_number. intros H.
  repeat (break_any; try congruence); tidy; discriminate.
Qed.

Lemma skip_ws_length (s : str) : (List.length (skip_ws s) <= List.length s)%nat.
Proof.
  unfold skip_ws. induction s as [|c s IH]; cbn; [lia|].
  destruct (json_ws c); cbn; lia.
Qed.

Ltac lengths IH1 IH2 IH3 :=
  repeat match goal with
         | E : skip_ws ?x = _ |- _ =>
             let L := fresh "L" in
             pose proof (skip_ws_length x) as L; rewrite E in L; clear E
         | E : scanstring _ _ = Scanned _ _ |- _ => apply scanstring_shorter in E
         | E : match_number _ _ = Scanned _ _ |- _ => apply match_number_shorter in E
         | E : scan_once _ _ _ _ = Some (Scanned _ _) |- _ => apply IH1 in E
         | E : parse_object _ _ _ _ _ = Some (Scanned _ _) |- _ => apply IH2 in E
         | E : parse_array _ _ _ _ _ = Some (Scanned _ _) |- _ => apply IH3 in E
         end;
  repeat match goal with
         | H : context [List.length (skip_ws ?x)] |- _ =>
             lazymatch goal with
             | _ : (List.length (skip_ws x) <= List.length x)%nat |- _ => fail
             | _ => pose proof (skip_ws_length x)
             end
         | |- context [List.length (skip_ws ?x)] =>
             lazymatch goal with
             | _ : (List.length (skip_ws x) <= List.length x)%nat |- _ => fail
             | _ => pose proof (skip_ws_length x)
             end
         end.

(** What a scan leaves is shorter than what it was given. *)
Lemma scan_shorter (fuel : nat) :
  (forall depth md s v r,
      scan_once fuel depth md s = Some (Scanned v r) ->
      (List.length r < List.length s)%nat)
  /\ (forall depth md d s v r,
      parse_object fuel depth md d s = Some (Scanned v r) ->
      (List.length r < List.length s)%nat)
  /\ (forall depth md acc s v r,
      parse_array fuel depth md acc s = Some (Scanned v r) ->
      (List.length r < List.length s)%nat).
Proof.
  induction fuel as [|fuel (IH1 & IH2 & IH3)].
  - repeat split; intros; discriminate.
  - split; [|split].
    + intros depth md s v r H. cbn [scan_once] in H.
      repeat (break_match_hyp H; try congruence); tidy;
        lengths IH1 IH2 IH3;
        repeat match goal with
               | |- context [match ?x with _ => _ end] => destruct x
               end;
        cbn [List.length] in *; lia.
    + intros depth md d s v r H. cbn [parse_object] in H.
      repeat (break_match_hyp H; try congruence); tidy;
        lengths IH1 IH2 IH3; cbn [List.length] in *; lia.
    + intros depth md acc s v r H. cbn [parse_array] in H.
      repeat (break_match_hyp H; try congruence); tidy;
        lengths IH1 IH2 IH3; cbn [List.length] in *; lia.
Qed.

Lemma scan_once_shorter (fuel depth md : nat) (s : str) (v : value) (r : str) :
  scan_once fuel depth md s = Some (Scanned v r) ->
  (List.length r < List.length s)%nat.
Proof. apply scan_shorter. Qed.

Lemma parse_object_shorter (fuel depth md : nat) (d : dict) (s : str) (v : value)
  (r : str) :
  parse_object fuel depth md d s = Some (Scanned v r) ->
  (List.length r < List.length s)%nat.
Proof. apply scan_shorter. Qed.

Lemma parse_array_shorter (fuel depth md : nat) (acc : list value) (s : str)
  (v : value) (r : str) :
  parse_array fuel depth md acc s = Some (Scanned v r) ->
  (List.length r < List.length s)%nat.
Proof. apply scan_shorter. Qed.

(** The fuel is never used up when it starts above twice the length of
    the text. *)
Lemma scan_fuel (fuel : nat) :
  (forall depth md s,
      (2 * List.length s + 1 <= fuel)%nat -> scan_once fuel depth md s <> None)
  /\ (forall depth md d s,
      (2 * List.length s + 2 <= fuel)%nat -> parse_object fuel depth md d s <> None)
  /\ (forall depth md acc s,
      (2 * List.length s + 2 <= fuel)%nat -> parse_array fuel depth md acc s <> None).
Proof.
  induction fuel as [|fuel (IH1 & IH2 & IH3)].
  - repeat split; intros; lia.
  - split; [|split].
    + intros depth md s Hf H. cbn [scan_once] in H.
      repeat (break_match_hyp H; try congruence); tidy;
        (first [ eapply IH1; [|eassumption]
               | eapply IH2; [|eassumption]
               | eapply IH3; [|eassumption] ]);
        lengths scan_once_shorter parse_object_shorter parse_array_shorter;
        cbn [List.length] in *; lia.
    + intros depth md d s Hf H. cbn [parse_object] in H.
      repeat (break_match_hyp H; try congruence); tidy;
        (first [ eapply IH1; [|eassumption]
               | eapply IH2; [|eassumption]
               | eapply IH3; [|eassumption] ]);
        lengths scan_once_shorter parse_object_shorter parse_array_shorter;
        cbn [List.length] in *; lia.
    + intros depth md acc s Hf H. cbn [parse_array] in H.
      repeat (break_match_hyp H; try congruence); tidy;
        (first [ eapply IH1; [|eassumption]
               | eapply IH2; [|eassumption]
               | eapply IH3; [|eassumption] ]);
        lengths scan_once_shorter parse_object_shorter parse_array_shorter;
        cbn [List.length] in *; lia.
Qed.

Lemma scan_once_fuel (depth md : nat) (s : str) :
  scan_once (json_fuel s) depth md (skip_ws s) <> None.
Proof.
  apply scan_fuel. unfold json_fuel. pose proof (skip_ws_length s). lia.
Qed.

(** A scan fails with a decode error, with the [ValueError] of an
    integer that is too long, or with [RecursionError]. *)
Lemma scan_failure (fuel : nat) :
  (forall depth md s e,
      scan_once fuel depth md s = Some (Failed e) -> json_error e = true)
  /\ (forall depth md d s e,
      parse_object fuel depth md d s = Some (Failed e) -> json_error e = true)
  /\ (forall depth md acc s e,
      parse_array fuel depth md acc s = Some (Failed e) -> json_error e = true).
Proof.
  induction fuel as [|fuel (IH1 & IH2 & IH3)].
  - repeat split; intros; discriminate.
  - split; [|split].
    + intros depth md s e H. cbn [scan_once] in H.
      repeat (break_match_hyp H; try congruence); tidy; try reflexivity;
        try (eapply IH2; eassumption); try (eapply IH3; eassumption).
      * match goal with
        | E : scanstring _ _ = Failed _ |- _ => apply scanstring_failure in E; now subst
        end.
      * eapply match_number_failure; eassumption.
    + intros depth md d s e H. cbn [parse_object] in H.
      repeat (break_match_hyp H; try congruence); tidy; try reflexivity;
        try (eapply IH1; eassumption); try (eapply IH2; eassumption).
      match goal with
      | E : scanstring _ _ = Failed _ |- _ => apply scanstring_failure in E; now subst
      end.
    + intros depth md acc s e H. cbn [parse_array] in H.
      repeat (break_match_hyp H; try congruence); tidy; try reflexivity;
        try (eapply IH1; eassumption); try (eapply IH3; eassumption).
Qed.

(** An object is read as a dictionary and an array as a list. *)
Lemma scan_container (fuel : nat) :
  (forall depth md d s v r,
      parse_object fuel depth md d s = Some (Scanned v r) -> exists d', v = VDict d')
  /\ (forall depth md acc s v r,
      parse_array fuel depth md acc s = Some (Scanned v r) -> exists l, v = VList l).
Proof.
  induction fuel as [|fuel (IH2 & IH3)].
  - repeat split; intros; discriminate.
  - split.
    + intros depth md d s v r H. cbn [parse_object] in H.
      repeat (break_match_hyp H; try congruence); tidy; eauto.
    + intros depth md acc s v r H. cbn [parse_array] in H.
      repeat (break_match_hyp H; try congruence); tidy; eauto.
Qed.

(** Only the literal [null] is read as [None]. *)
Lemma scan_once_None (fuel depth md : nat) (s : str) (r : str) :
  scan_once fuel depth md s = Some (Scanned VNone r) ->
  startswith (py "null") s = true /\ r = skipn 4 s.
Proof.
  destruct fuel as [|fuel]; [discriminate|].
  intros H. cbn [scan_once] in H.
  repeat (break_match_hyp H; try congruence); tidy; auto;
    try match goal with
        | E : parse_object _ _ _ _ _ = Some (Scanned VNone _) |- _ =>
            apply (proj1 (scan_container _)) in E; destruct E; discriminate
        | E : parse_array _ _ _ _ _ = Some (Scanned VNone _) |- _ =>
            apply (proj2 (scan_container _)) in E; destruct E; discriminate
        | E : match_number _ _ = Scanned VNone _ |- _ =>
            apply match_number_value in E; congruence
        end.
Qed.

Lemma scan_once_null (fuel depth md : nat) (s : str) :
  startswith (py "null") s = true ->
  scan_once (S fuel) depth md s = Some (Scanned VNone (skipn 4 s)).
Proof.
  intros H. apply startswith_inv in H as [r ->]. reflexivity.
Qed.

Section Decoder.

Variable rt : runtime.

(** [json.loads] raises nothing but the three. *)
Lemma json_loads_raises (s : str) (e : exn) :
  json_loads rt s = Raise e -> json_error e = true.
Proof.
  unfold json_loads. intros H.
  repeat (break_match_hyp H; try congruence); tidy;
    try (injection H as <-; reflexivity).
  injection H as <-. eapply (proj1 (scan_failure _)). eassumption.
Qed.

(** X2.  The fuel never runs out: the scan inside [json_loads] always
    comes to a result, so the last arm of [json_loads] is dead code. *)
Lemma json_loads_scanned (s : str) :
  exists x, scan_once (json_fuel s) (recursion_limit rt) (int_max_str_digits rt)
              (skip_ws s) = Some x.
Proof.
  destruct (scan_once _ _ _ (skip_ws s)) eqn:E; [eauto|].
  now apply scan_once_fuel in E.
Qed.

(** [json.loads] returns [None] on the literal [null] and on nothing
    else. *)
Lemma json_loads_None (s : str) :
  json_loads rt s = Return VNone <-> null_literal s = true.
Proof.
  unfold null_literal. split.
  - unfold json_loads. intros H.
    repeat (break_match_hyp H; try congruence); tidy.
    injection H as ->.
    match goal with
    | E : scan_once _ _ _ _ = Some (Scanned VNone _) |- _ =>
        apply scan_once_None in E; destruct E as [E1 ->]
    end.
    match goal with E : skip_ws (skipn 4 _) = [] |- _ => rewrite E end.
    now rewrite E1.
  - intros H. apply andb_prop in H as [H1 H2].
    unfold json_loads.
    destruct s as [|c s']; [discriminate|].
    destruct (c =? BOM) eqn:Eb.
    + apply N.eqb_eq in Eb. subst c. discriminate.
    + unfold json_fuel. replace (2 * List.length (c :: s') + 1)%nat
        with (S (2 * List.length (c :: s'))) by lia.
      rewrite scan_once_null by exact H1.
      destruct (skip_ws (skipn 4 (skip_ws (c :: s')))); [reflexivity|discriminate].
Qed.

End Decoder.

(** ** The fence *)

Lemma object_text_bare (jt : str) : object_text jt = true -> bare isspace jt = true.
Proof.
  unfold object_text, bare. intros H. apply andb_prop in H as [H1 H2].
  destruct jt as [|c jt]; [discriminate|]. apply N.eqb_eq in H1. subst c.
  destruct (rev (LBRACE :: jt)) as [|c r]; [discriminate|].
  apply N.eqb_eq in H2. subst c. reflexivity.
Qed.

Lemma slice_inner_wrapped (a b x : str) :
  slice_inner (List.length a) (List.length b) (a ++ x ++ b) = x.
Proof.
  unfold slice_inner.
  replace (List.length (a ++ x ++ b) - List.length b)%nat
    with (List.length (a ++ x) + 0)%nat by (rewrite !length_app; lia).
  rewrite app_assoc, firstn_app_2. cbn [firstn]. rewrite app_nil_r.
  now rewrite skipn_app, skipn_all, Nat.sub_diag.
Qed.

(** The cleaned text of a fenced reply is what stands between the
    fences, stripped. *)
Lemma clean_text_fenced (o1 o2 x : str) :
  forallb isspace o1 = true ->
  forallb isspace o2 = true ->
  clean_text (o1 ++ fence_json ++ x ++ fence ++ o2) = strip x
  /\ (startswith (py "json") x = false ->
      clean_text (o1 ++ fence ++ x ++ fence ++ o2) = strip x).
Proof.
  intros H1 H2. unfold clean_text, strip. split.
  - replace (o1 ++ fence_json ++ x ++ fence ++ o2)
      with (o1 ++ (fence_json ++ x ++ fence) ++ o2)
      by (now rewrite <- !app_assoc).
    rewrite strip_by_wrapped; auto.
    + rewrite startswith_app.
      assert (slice_inner 7 3 (fence_json ++ x ++ fence) = x) as ->
          by exact (slice_inner_wrapped fence_json fence x).
      reflexivity.
    + unfold bare. rewrite !rev_app_distr. reflexivity.
  - intros Hj.
    replace (o1 ++ fence ++ x ++ fence ++ o2)
      with (o1 ++ (fence ++ x ++ fence) ++ o2)
      by (now rewrite <- !app_assoc).
    rewrite strip_by_wrapped; auto.
    + assert (startswith fence_json (fence ++ x ++ fence) = false) as ->.
      { change fence_json with (fence ++ py "json").
        cbn [fence py list_ascii_of_string map app startswith].
        rewrite !N.eqb_refl. cbn [andb].
        destruct x as [|c1 [|c2 [|c3 [|c4 x]]]]; cbn in Hj |- *;
          try reflexivity; try assumption;
          repeat (match goal with
                  | |- context [?a =? ?b] => destruct (a =? b); cbn in *
                  end; try reflexivity; try discriminate). }
      rewrite startswith_app.
      assert (slice_inner 3 3 (fence ++ x ++ fence) = x) as ->
          by exact (slice_inner_wrapped fence fence x).
      reflexivity.
    + unfold bare. rewrite !rev_app_distr. reflexivity.
Qed.

(** C8.  A reply that is the text of a JSON object between a fence and
    its closing fence, the opening one followed by [json] or not, with
    white space around the object or around the whole or not, is read
    strictly: [parse_gemini_response] returns what [json.loads] returns
    on the text of the object. *)
Theorem C8_fenced_object (rt : runtime) (o1 pad1 jt pad2 o2 : str) (v : value) :
  object_text jt = true ->
  json_loads rt jt = Return v ->
  forallb isspace o1 = true ->
  forallb isspace pad1 = true ->
  forallb isspace pad2 = true ->
  forallb isspace o2 = true ->
  parse_gemini_response rt (o1 ++ fence_json ++ (pad1 ++ jt ++ pad2) ++ fence ++ o2)
  = Return v
  /\ parse_gemini_response rt (o1 ++ fence ++ (pad1 ++ jt ++ pad2) ++ fence ++ o2)
     = Return v.
Proof.
  intros Hobj Hv Ho1 Hp1 Hp2 Ho2.
  destruct (@clean_text_fenced o1 o2 (pad1 ++ jt ++ pad2) Ho1 Ho2) as [E1 E2].
  assert (Hs : strip (pad1 ++ jt ++ pad2) = jt).
  { apply strip_by_wrapped; auto. now apply object_text_bare. }
  split; apply parse_strict.
  - now rewrite E1, Hs.
  - rewrite E2, Hs; [exact Hv|].
    unfold object_text in Hobj. apply andb_prop in Hobj as [Hb _].
    destruct jt as [|c jt]; [discriminate|]. apply N.eqb_eq in Hb. subst c.
    destruct pad1 as [|p pad1]; [reflexivity|].
    cbn [forallb] in Hp1. apply andb_prop in Hp1 as [Hp _].
    change (startswith (py "json") ((p :: pad1) ++ (LBRACE :: jt) ++ pad2))
      with ((106 =? p) && startswith (py "son") (pad1 ++ (LBRACE :: jt) ++ pad2)).
    destruct (106 =? p) eqn:E; [|reflexivity].
    apply N.eqb_eq in E. subst p. discriminate.
Qed.

Lemma C8_fenced_object_witness :
  parse_gemini_response default_runtime (pyq "```json
{'match_score': 75, 'missing_skills': ['AWS']}
```
")
  = Return (VDict [(py "match_score", VInt 75);
                   (py "missing_skills", VList [VStr (py "AWS")])])
  /\ parse_gemini_response default_runtime (pyq "```{'match_score': 75}```")
     = Return (VDict [(py "match_score", VInt 75)]).
Proof.
  split.
  - exact (proj1 (@C8_fenced_object default_runtime [] [NEWLINE]
                    (pyq "{'match_score': 75, 'missing_skills': ['AWS']}")
                    [NEWLINE] [NEWLINE]
                    (VDict [(py "match_score", VInt 75);
                            (py "missing_skills", VList [VStr (py "AWS")])])
                    eq_refl eq_refl eq_refl eq_refl eq_refl eq_refl)).
  - exact (proj2 (@C8_fenced_object default_runtime [] []
                    (pyq "{'match_score': 75}") [] []
                    (VDict [(py "match_score", VInt 75)])
                    eq_refl eq_refl eq_refl eq_refl eq_refl eq_refl)).
Defined.

(** ** The session *)

Lemma keeps_files_ret (A : Type) (a : A) : keeps_files (ret a).
Proof. intros s. reflexivity. Qed.

Lemma keeps_files_raise (A : Type) (e : exn) : keeps_files (@raise A e).
Proof. intros s. reflexivity. Qed.

Lemma keeps_files_st (c : ui_call) : keeps_files (st c).
Proof. intros s. reflexivity. Qed.

Lemma keeps_files_of_outcome (A : Type) (o : outcome A) : keeps_files (of_outcome o).
Proof. intros s. reflexivity. Qed.

Lemma keeps_files_of_external (A : Type) (x : external A) : keeps_files (of_external x).
Proof. intros s. destruct x; reflexivity. Qed.

Lemma keeps_files_bind (A B : Type) (m : M A) (k : A -> M B) :
  keeps_files m -> (forall a, keeps_files (k a)) -> keeps_files (bind m k).
Proof.
  intros Hm Hk s. unfold bind. specialize (Hm s).
  destruct (m s) as [[a|e] s1]; cbn in *; [|exact Hm].
  rewrite Hk. exact Hm.
Qed.

Lemma keeps_files_try (A : Type) (m : M A) (class : exn -> bool) (h : exn -> M A) :
  keeps_files m -> (forall e, keeps_files (h e)) -> keeps_files (try_except m class h).
Proof.
  intros Hm Hh s. unfold try_except. specialize (Hm s).
  destruct (m s) as [[a|e] s1]; cbn in *; [exact Hm|].
  destruct (class e); cbn; [|exact Hm]. rewrite Hh. exact Hm.
Qed.

Lemma keeps_files_for_each (items : list value) (body : value -> M unit) :
  (forall x, keeps_files (body x)) -> keeps_files (for_each items body).
Proof.
  intros Hb. induction items as [|x r IH]; cbn [for_each].
  - apply keeps_files_ret.
  - apply keeps_files_bind; auto.
Qed.

Ltac keeps :=
  repeat first
    [ apply keeps_files_ret | apply keeps_files_raise | apply keeps_files_st
    | apply keeps_files_of_outcome | apply keeps_files_of_external
    | apply keeps_files_for_each; intros
    | apply keeps_files_bind; [|intros]
    | apply keeps_files_try; [|intros]
    | match goal with
      | |- keeps_files (match ?x with _ => _ end) => destruct x
      | |- keeps_files (if ?x then _ else _) => destruct x
      end ].

Lemma keeps_files_initialize_apis (w : world) : keeps_files (initialize_apis w).
Proof. unfold initialize_apis. keeps. Qed.

Lemma keeps_files_parse_resume (w : world) (path : str) (parser : option unit) :
  keeps_files (parse_resume w path parser).
Proof. unfold parse_resume. keeps. Qed.

Lemma keeps_files_analyze_resume (rt : runtime) (w : world) (resume jd : str)
  (model : option unit) :
  keeps_files (analyze_resume rt w resume jd model).
Proof. unfold analyze_resume, analyze_attempt. keeps. Qed.

Lemma keeps_files_display (analysis : value) : keeps_files (display analysis).
Proof. unfold display, get, iterate. keeps. Qed.

(** *** What is raised and what is caught *)

Lemma try_except_total (A : Type) (m : M A) (h : exn -> M A) :
  raises_Exception_only m -> (forall e, total (h e)) ->
  total (try_except m is_Exception h).
Proof.
  intros Hm Hh s. unfold try_except. specialize (Hm s).
  destruct (m s) as [[a|e] s1]; cbn in *; [eauto|].
  rewrite (Hm e eq_refl). apply Hh.
Qed.

Lemma bind_total (A B : Type) (m : M A) (k : A -> M B) :
  total m -> (forall a, total (k a)) -> total (bind m k).
Proof.
  intros Hm Hk s. unfold bind. destruct (Hm s) as [a Ha].
  destruct (m s) as [[a'|e] s1]; cbn in *; [|discriminate]. apply Hk.
Qed.

Lemma st_total (c : ui_call) : total (st c).
Proof. intros s. now exists tt. Qed.

Lemma ret_total (A : Type) (a : A) : total (ret a).
Proof. intros s. now exists a. Qed.

Lemma handler_total (A : Type) (c : ui_call) (a : A) : total (st c ;; ret a).
Proof. intros s. now exists a. Qed.

Lemma of_external_raises (A : Type) (x : external A) :
  raises_Exception_only (of_external x).
Proof. intros s e. destruct x; cbn; intros H; [discriminate|]. now injection H as <-. Qed.

Lemma bind_raises (A B : Type) (m : M A) (k : A -> M B) :
  raises_Exception_only m -> (forall a, raises_Exception_only (k a)) ->
  raises_Exception_only (bind m k).
Proof.
  intros Hm Hk s e. unfold bind. specialize (Hm s).
  destruct (m s) as [[a|e'] s1]; cbn in *; [apply Hk|].
  intros H. injection H as <-. now apply Hm.
Qed.

Lemma json_error_Exception (e : exn) : json_error e = true -> is_Exception e = true.
Proof. destruct e; cbn; congruence. Qed.

(** [parse_gemini_response] lets through what [json.loads] raises other
    than the decode error: the [ValueError] of an integer that is too
    long and [RecursionError]. *)
Lemma parse_gemini_response_raises (rt : runtime) (text : str) (e : exn) :
  parse_gemini_response rt text = Raise e ->
  json_loads rt (clean_text text) = Raise e
  /\ (e = ValueError \/ e = RecursionError).
Proof.
  unfold parse_gemini_response. intros H.
  destruct (json_loads rt (clean_text text)) as [v|e'] eqn:E; [discriminate|].
  pose proof (json_loads_raises _ _ E) as He.
  destruct e'; cbn in *; try discriminate; injection H as <-; auto.
Qed.

Lemma analyze_attempt_raises (rt : runtime) (w : world) (resume jd : str)
  (model : option unit) :
  raises_Exception_only (analyze_attempt rt w resume jd model).
Proof.
  unfold analyze_attempt. apply bind_raises.
  - destruct model; [apply of_external_raises|].
    intros s e H. cbn in H. now injection H as <-.
  - intros text s e H. cbn in H.
    apply parse_gemini_response_raises in H as [_ [-> | ->]]; reflexivity.
Qed.

(** What [analyze_resume] does with the outcome of its [try] body. *)
Lemma analyze_resume_run (rt : runtime) (w : world) (resume jd : str)
  (model : option unit) (s : session) :
  analyze_resume rt w resume jd model s
  = match analyze_attempt rt w resume jd model s with
    | (Return v, s1) => (Return v, s1)
    | (Raise e, s1) =>
        (Return VNone, shown (st_error (py "Analysis failed: ") (Some e)) s1)
    end.
Proof.
  unfold analyze_resume, try_except.
  pose proof (@analyze_attempt_raises rt w resume jd model s) as H.
  destruct (analyze_attempt rt w resume jd model s) as [[v|e] s1]; [reflexivity|].
  cbn in H. now rewrite (H e eq_refl).
Qed.

(** [analyze_resume] case by case: no model, a model call that fails,
    a reply that [parse_gemini_response] refuses, a reply it reads. *)
Lemma analyze_resume_cases (rt : runtime) (w : world) (resume jd : str)
  (model : option unit) (s : session) :
  analyze_resume rt w resume jd model s
  = match model with
    | None =>
        (Return VNone,
         shown (st_error (py "Analysis failed: ") (Some AttributeError)) s)
    | Some _ =>
        match generate_content w (prompt resume jd) with
        | Fails msg =>
            (Return VNone,
             shown (st_error (py "Analysis failed: ") (Some (ExternalError msg))) s)
        | Ok reply =>
            match parse_gemini_response rt reply with
            | Return v => (Return v, s)
            | Raise e =>
                (Return VNone, shown (st_error (py "Analysis failed: ") (Some e)) s)
            end
        end
    end.
Proof.
  rewrite analyze_resume_run. unfold analyze_attempt, bind.
  generalize (prompt resume jd). intros p.
  destruct model as [[]|]; cbn; [|reflexivity].
  destruct (generate_content w p) as [reply|msg]; cbn; [|reflexivity].
  unfold of_outcome. destruct (parse_gemini_response rt reply); reflexivity.
Qed.

(** What [json.loads] raises other than the decode error leaves
    [parse_gemini_response] as it is. *)
Lemma parse_other_error (rt : runtime) (text : str) (e : exn) :
  json_loads rt (clean_text text) = Raise e ->
  is_JSONDecodeError e = false ->
  parse_gemini_response rt text = Raise e.
Proof. unfold parse_gemini_response. intros H He. now rewrite H, He. Qed.

Lemma initialize_apis_total (w : world) : total (initialize_apis w).
Proof.
  unfold initialize_apis.
  apply bind_total; [|intros p; apply bind_total; [|intros m; apply ret_total]];
    (apply try_except_total; [|intros e; apply handler_total]);
    (apply bind_raises; [apply of_external_raises|]);
    intros a s e H; discriminate.
Qed.

Lemma parse_resume_total (w : world) (path : str) (parser : option unit) :
  total (parse_resume w path parser).
Proof.
  unfold parse_resume. apply bind_total.
  - apply try_except_total; [|intros e; apply handler_total].
    destruct parser; [|intros s e H; discriminate].
    apply bind_raises; [apply of_external_raises|].
    intros [|d ds] s e H; cbn in H; [now injection H as <- | discriminate].
  - intros [text|]; [apply ret_total|].
    apply try_except_total; [apply of_external_raises|].
    intros e. apply handler_total.
Qed.

Lemma analyze_resume_total (rt : runtime) (w : world) (resume jd : str)
  (model : option unit) :
  total (analyze_resume rt w resume jd model).
Proof.
  unfold analyze_resume. apply try_except_total.
  - apply analyze_attempt_raises.
  - intros e. apply handler_total.
Qed.

(** *** Nesting beyond the recursion limit *)

Lemma scan_once_too_deep (n : nat) :
  forall fuel md,
  (2 * n + 1 <= fuel)%nat ->
  scan_once fuel n md (repeat LBRACKET (S n)) = Some (Failed RecursionError).
Proof.
  induction n as [|n IH]; intros fuel md Hf.
  - destruct fuel as [|fuel]; [lia|]. reflexivity.
  - destruct fuel as [|[|fuel]]; try lia.
    change (repeat LBRACKET (S (S n))) with (LBRACKET :: repeat LBRACKET (S n)).
    cbn [scan_once]. change (LBRACKET =? QUOTE) with false.
    change (LBRACKET =? LBRACE) with false. change (LBRACKET =? LBRACKET) with true.
    cbv iota.
    change (skip_ws (repeat LBRACKET (S n))) with (repeat LBRACKET (S n)).
    change (repeat LBRACKET (S n)) with (LBRACKET :: repeat LBRACKET n) at 1.
    cbv iota. change (LBRACKET =? RBRACKET) with false. cbv iota.
    cbn [parse_array]. rewrite IH by lia. reflexivity.
Qed.

Lemma bare_repeat (p : char -> bool) (c : char) (n : nat) :
  p c = false -> bare p (repeat c (S n)) = true.
Proof.
  intros H. unfold bare. rewrite rev_repeat. cbn [repeat]. now rewrite H.
Qed.

(** X3.  A reply that opens one bracket more than the recursion guard
    allows makes [parse_gemini_response] raise [RecursionError], whatever
    the limit is. *)
Lemma parse_gemini_response_too_deep (rt : runtime) :
  parse_gemini_response rt (repeat LBRACKET (S (recursion_limit rt)))
  = Raise RecursionError.
Proof.
  unfold parse_gemini_response, clean_text, strip.
  rewrite bare_strip by (now apply bare_repeat).
  change (startswith fence_json (repeat LBRACKET (S (recursion_limit rt)))) with false.
  change (startswith fence (repeat LBRACKET (S (recursion_limit rt)))) with false.
  cbv iota. unfold json_loads.
  change (repeat LBRACKET (S (recursion_limit rt)))
    with (LBRACKET :: repeat LBRACKET (recursion_limit rt)) at 1.
  cbv iota. change (LBRACKET =? BOM) with false. cbv iota.
  change (skip_ws (repeat LBRACKET (S (recursion_limit rt))))
    with (repeat LBRACKET (S (recursion_limit rt))).
  rewrite scan_once_too_deep; [reflexivity|].
  unfold json_fuel. rewrite repeat_length. lia.
Qed.

(** *** The four operations: the claims *)

Lemma initialize_apis_run (w : world) (s : session) :
  initialize_apis w s
  = (Return (fst (initialize_apis_result w)),
     shown_all (snd (initialize_apis_result w)) s).
Proof.
  unfold initialize_apis, initialize_apis_result, shown_all.
  destruct s as [pg fs].
  destruct (LlamaParse w) as [[]|m1], (GenerativeModel w) as [[]|m2]; reflexivity.
Qed.

Lemma parse_resume_run (w : world) (path : str) (parser : option unit) (s : session) :
  parse_resume w path parser s
  = (Return (fst (parse_resume_result w path parser)),
     shown_all (snd (parse_resume_result w path parser)) s).
Proof.
  unfold parse_resume, parse_resume_result, shown_all.
  destruct s as [pg fs].
  destruct parser as [[]|]; cbn;
    [destruct (load_data w path) as [[|d ds]|m]; cbn|];
    try reflexivity;
    destruct (extract_text w path) as [t|m']; reflexivity.
Qed.

(** C5, as the code has it.  [initialize_apis], [parse_resume] and
    [analyze_resume] always return: a failure of an external call is
    caught where it happens, shown as a message, and [None], the empty
    string or [None] is returned in its place; for [analyze_resume]
    that is the call on a model that is [None], a model call that
    fails, and whatever [parse_gemini_response] raises.
    [parse_gemini_response] catches the decode error only and answers
    it with the fallback dictionary: every other exception of
    [json.loads] leaves it as it is, and these are the [ValueError] of
    an integer that is too long and [RecursionError]. *)
Theorem C5_failures_caught (rt : runtime) (w : world) (s : session) :
  initialize_apis w s
  = (Return (fst (initialize_apis_result w)),
     shown_all (snd (initialize_apis_result w)) s)
  /\ (forall path parser,
      parse_resume w path parser s
      = (Return (fst (parse_resume_result w path parser)),
         shown_all (snd (parse_resume_result w path parser)) s))
  /\ (forall resume jd model,
      (exists v s', analyze_resume rt w resume jd model s = (Return v, s'))
      /\ (model = None ->
          analyze_resume rt w resume jd model s
          = (Return VNone,
             shown (st_error (py "Analysis failed: ") (Some AttributeError)) s))
      /\ (forall msg,
             model = Some tt ->
             generate_content w (prompt resume jd) = Fails msg ->
             analyze_resume rt w resume jd model s
             = (Return VNone,
                shown (st_error (py "Analysis failed: ")
                         (Some (ExternalError msg))) s))
      /\ (forall reply e,
             model = Some tt ->
             generate_content w (prompt resume jd) = Ok reply ->
             parse_gemini_response rt reply = Raise e ->
             analyze_resume rt w resume jd model s
             = (Return VNone,
                shown (st_error (py "Analysis failed: ") (Some e)) s)))
  /\ (forall text,
      (json_loads rt (clean_text text) = Raise JSONDecodeError ->
       parse_gemini_response rt text = Return (fallback rt text))
      /\ (forall e,
             json_loads rt (clean_text text) = Raise e ->
             is_JSONDecodeError e = false ->
             parse_gemini_response rt text = Raise e)
      /\ (forall e, parse_gemini_response rt text = Raise e ->
                    e = ValueError \/ e = RecursionError)).
Proof.
  split; [apply initialize_apis_run|].
  split; [intros; apply parse_resume_run|].
  split.
  - intros resume jd model. rewrite analyze_resume_cases.
    split; [|split; [|split]].
    + destruct model as [[]|]; [|eexists _, _; reflexivity].
      destruct (generate_content w (prompt resume jd)); [|eexists _, _; reflexivity].
      destruct (parse_gemini_response rt a); eexists _, _; reflexivity.
    + intros ->. reflexivity.
    + intros msg -> ->. reflexivity.
    + intros reply e -> -> ->. reflexivity.
  - intros text. split; [apply parse_decode_error|]. split.
    + intros e. apply parse_other_error.
    + intros e H. now apply parse_gemini_response_raises in H.
Qed.

(** C5 as it is stated fails for [parse_gemini_response]: what
    [json.loads] raises other than a decode error leaves the function.
    With the interpreter's defaults, a reply of 4301 digits is an
    integer that [int] refuses with [ValueError], and a reply that opens
    1001 brackets makes the scanner raise [RecursionError]. *)
Lemma C5_counterexample :
  parse_gemini_response default_runtime (repeat 49 4301) = Raise ValueError
  /\ is_JSONDecodeError ValueError = false
  /\ parse_gemini_response default_runtime (repeat LBRACKET 1001) = Raise RecursionError
  /\ is_JSONDecodeError RecursionError = false.
Proof.
  split; [vm_compute; reflexivity|]. split; [reflexivity|].
  split; [vm_compute|]; reflexivity.
Qed.

(** C10, as the code has it.  [analyze_resume] returns [None], after
    the message, when the model is [None], when the model call fails
    and when [parse_gemini_response] raises on the reply; when
    [parse_gemini_response] returns a value, [analyze_resume] returns
    that value unchanged and shows nothing.  So the result is [None]
    in the three cases of failure, and also when the model answered and
    the cleaned reply is the JSON literal [null], and in no other
    case. *)
Theorem C10_none_result (rt : runtime) (w : world) (resume jd : str) (s : session) :
  let result := fun model => analyze_resume rt w resume jd model s in
  let failed := fun e => shown (st_error (py "Analysis failed: ") (Some e)) s in
  result None = (Return VNone, failed AttributeError)
  /\ (forall msg,
         generate_content w (prompt resume jd) = Fails msg ->
         result (Some tt) = (Return VNone, failed (ExternalError msg)))
  /\ (forall reply e,
         generate_content w (prompt resume jd) = Ok reply ->
         parse_gemini_response rt reply = Raise e ->
         result (Some tt) = (Return VNone, failed e))
  /\ (forall reply v,
         generate_content w (prompt resume jd) = Ok reply ->
         parse_gemini_response rt reply = Return v ->
         result (Some tt) = (Return v, s))
  /\ (forall model,
         fst (result model) = Return VNone <->
         model = None
         \/ (exists msg, generate_content w (prompt resume jd) = Fails msg)
         \/ (exists reply e,
                generate_content w (prompt resume jd) = Ok reply
                /\ parse_gemini_response rt reply = Raise e)
         \/ (exists reply,
                generate_content w (prompt resume jd) = Ok reply
                /\ null_literal (clean_text reply) = true)).
Proof.
  intros result failed. unfold result, failed.
  split; [now rewrite analyze_resume_cases|].
  split; [intros msg H; now rewrite analyze_resume_cases, H|].
  split; [intros reply e H1 H2; now rewrite analyze_resume_cases, H1, H2|].
  split; [intros reply v H1 H2; now rewrite analyze_resume_cases, H1, H2|].
  intros model. rewrite analyze_resume_cases.
  destruct model as [[]|]; [|split; [now left | reflexivity]].
  destruct (generate_content w (prompt resume jd)) as [reply|msg] eqn:Hg.
  2:{ split; [intros _; right; left; now exists msg | reflexivity]. }
  destruct (parse_gemini_response rt reply) as [v|e] eqn:Hp.
  2:{ split; [intros _; right; right; left; now exists reply, e | reflexivity]. }
  assert (Hnull : v = VNone <-> null_literal (clean_text reply) = true).
  { unfold parse_gemini_response in Hp.
    destruct (json_loads rt (clean_text reply)) as [v'|e] eqn:E.
    - injection Hp as <-. rewrite <- (json_loads_None rt). rewrite E.
      split; congruence.
    - destruct (is_JSONDecodeError e); [|discriminate]. injection Hp as <-.
      split; [discriminate|]. intros Hn.
      apply (json_loads_None rt) in Hn. congruence. }
  cbn [fst]. split.
  - intros H. injection H as ->. right. right. right. exists reply.
    split; [reflexivity|]. now apply Hnull.
  - intros [H | [(msg & H) | [(r & e & H & He) | (r & H & Hn)]]]; try discriminate.
    + injection H as <-. congruence.
    + injection H as <-. f_equal. now apply Hnull.
Qed.

(** C10 as it is stated fails: the model answers [null], which
    [parse_gemini_response] reads as [None]; nothing raises, and
    [analyze_resume] returns [None] with no message shown. *)
Lemma C10_counterexample :
  parse_gemini_response default_runtime (py "null") = Return VNone
  /\ analyze_resume default_runtime
       (answering_world (py "resume") (py "null") None (py "jd"))
       (py "resume") (py "jd") (Some tt) (initial_session [])
     = (Return VNone, initial_session []).
Proof. split; reflexivity. Qed.

(** *** The temporary file *)

Lemma file_exists_remove (path : str) (fs : list (str * bytes)) :
  file_exists path (remove_file path fs) = false.
Proof.
  induction fs as [|[p b] fs IH]; cbn; [reflexivity|].
  destruct (str_eqb path p) eqn:E; [exact IH|]. cbn. now rewrite E.
Qed.

Lemma str_eqb_refl (a : str) : str_eqb a a = true.
Proof. induction a as [|c a IH]; cbn; [reflexivity|]. now rewrite N.eqb_refl. Qed.

Lemma removes_os_remove (refused : option exn) (path : str) :
  removes path (os_remove refused path).
Proof.
  intros s s'. unfold os_remove.
  destruct (file_exists path (files s)); [|discriminate].
  destruct refused; [discriminate|].
  intros H. injection H as <-. apply file_exists_remove.
Qed.

Lemma removes_bind (A : Type) (path : str) (m : M A) (k : A -> M unit) :
  (forall a, removes path (k a)) -> removes path (bind m k).
Proof.
  intros Hk s s'. unfold bind. destruct (m s) as [[a|e] s1]; [apply Hk|discriminate].
Qed.

(** X4.  On every run of [main] that takes an upload and a job
    description and comes to its end, the temporary file is gone. *)
Lemma main_returns_without_temp_file (rt : runtime) (w : world) (s s' : session)
  (up : upload) :
  uploaded_file w = Some up ->
  jd_text w <> [] ->
  main rt w s = (Return tt, s') ->
  file_exists (temp_path up) (files s') = false.
Proof.
  intros Hup Hjd. revert s s'. change (removes (temp_path up) (main rt w)).
  unfold main. rewrite Hup.
  destruct (jd_text w) as [|c jd]; [congruence|].
  do 4 (apply removes_bind; intros ?).
  match goal with |- removes _ (let '(_, _) := ?x in _) => destruct x end.
  do 7 (apply removes_bind; intros ?).
  match goal with |- removes _ (match ?x with _ => _ end) => destruct x end.
  - apply removes_bind. intros _. apply removes_os_remove.
  - do 3 (apply removes_bind; intros ?). apply removes_os_remove.
Qed.

Lemma main_returns_without_temp_file_witness :
  file_exists (py "temp_cv.pdf")
    (files (snd (main default_runtime
                   (answering_world (py "Ten years of Python")
                      (pyq "{'match_score': 75, 'matching_skills': ['Python']}")
                      (Some {| name := py "cv.pdf"; getbuffer := [37; 80; 68; 70] |})
                      (py "Python developer"))
                   (initial_session []))))
  = false.
Proof.
  apply (@main_returns_without_temp_file default_runtime
           (answering_world (py "Ten years of Python")
              (pyq "{'match_score': 75, 'matching_skills': ['Python']}")
              (Some {| name := py "cv.pdf"; getbuffer := [37; 80; 68; 70] |})
              (py "Python developer"))
           (initial_session []) _
           {| name := py "cv.pdf"; getbuffer := [37; 80; 68; 70] |}).
  - reflexivity.
  - discriminate.
  - reflexivity.
Defined.

(** C7 on a reply that is a JSON array.  The upload is written,
    both services answer, and the model's reply parses to a list; it is
    not empty, so [main] goes on to show it, [analysis.get] raises
    [AttributeError], and [main] ends there with the temporary file
    still in the directory. *)
Lemma C7_temp_file_left_behind :
  let up := {| name := py "cv.pdf"; getbuffer := [37; 80; 68; 70] |} in
  let w := answering_world (py "Ten years of Python") (pyq "['Python', 'ML']")
             (Some up) (py "Python developer") in
  let run := main default_runtime w (initial_session []) in
  fst run = Raise AttributeError
  /\ files (snd run) = [(py "temp_cv.pdf", [37; 80; 68; 70])]
  /\ file_exists (temp_path up) (files (snd run)) = true.
Proof. repeat split; reflexivity. Qed.

(** * Further properties *)

(** ** The display step *)

Lemma for_each_st (f : value -> ui_call) (items : list value) (s : session) :
  for_each items (fun x => st (f x)) s
  = (Return tt, shown_all (rev (map f items)) s).
Proof.
  revert s. induction items as [|x r IH]; intros s.
  - destruct s. reflexivity.
  - cbn [for_each]. unfold bind at 1. cbn [st]. rewrite IH.
    unfold shown_all. cbn [page files map rev]. now rewrite <- app_assoc.
Qed.

Lemma bind_for_each_st (A : Type) (f : value -> ui_call) (items : list value)
  (k : unit -> M A) (s : session) :
  bind (for_each items (fun x => st (f x))) k s
  = k tt (shown_all (rev (map f items)) s).
Proof. unfold bind. now rewrite for_each_st. Qed.

Lemma iterate_iterable (v : value) :
  iterable v = true -> exists items, forall s, iterate v s = (Return items, s).
Proof. destruct v; try discriminate; intros _; eexists; reflexivity. Qed.

Lemma iterate_not_iterable (v : value) (s : session) :
  iterable v = false -> iterate v s = (Raise TypeError, s).
Proof. destruct v; try discriminate; reflexivity. Qed.

(** The outcome of [display]. *)
Lemma display_outcome (v : value) (s : session) :
  fst (display v s)
  = if displayable v then Return tt else Raise (display_error v).
Proof.
  destruct v as [| b | z | f | x | l | d]; try reflexivity.
  unfold displayable, display_error, display, dict_field, get.
  unfold bind at 1 2 3 4 5 6. cbn [st ret].
  set (m1 := match dict_get (py "matching_skills") d with
             | Some v => v | None => VList [] end).
  set (m2 := match dict_get (py "missing_skills") d with
             | Some v => v | None => VList [] end).
  set (m3 := match dict_get (py "suggestions") d with
             | Some v => v | None => VList [] end).
  destruct (iterable m1) eqn:E1.
  2:{ unfold bind at 1. rewrite iterate_not_iterable by exact E1. reflexivity. }
  unfold bind at 1. destruct (iterate_iterable m1 E1) as [i1 H1]. rewrite H1.
  rewrite bind_for_each_st.
  unfold bind at 1 2. cbn [st ret].
  destruct (iterable m2) eqn:E2.
  2:{ unfold bind at 1. rewrite iterate_not_iterable by exact E2. reflexivity. }
  unfold bind at 1. destruct (iterate_iterable m2 E2) as [i2 H2]. rewrite H2.
  rewrite bind_for_each_st.
  unfold bind at 1 2. cbn [st ret].
  destruct (iterable m3) eqn:E3.
  2:{ unfold bind at 1. rewrite iterate_not_iterable by exact E3. reflexivity. }
  unfold bind at 1. destruct (iterate_iterable m3 E3) as [i3 H3]. rewrite H3.
  rewrite bind_for_each_st.
  unfold bind at 1. cbn [ret].
  destruct (truthy _); reflexivity.
Qed.

(** ** [main], run by run *)

Lemma read_file_remove_same (path : str) (fs : list (str * bytes)) :
  read_file path (remove_file path fs) = None.
Proof.
  induction fs as [|[q b] fs IH]; cbn; [reflexivity|].
  destruct (str_eqb path q) eqn:E; [exact IH|]. cbn. now rewrite E.
Qed.

Lemma initialize_model (w : world) :
  snd (fst (initialize_apis_result w))
  = match GenerativeModel w with Ok m => Some m | Fails _ => None end.
Proof.
  unfold initialize_apis_result.
  destruct (LlamaParse w), (GenerativeModel w); reflexivity.
Qed.

(** What [analyze_resume] returns depends on the world only, and it
    leaves the files alone. *)
Lemma analyze_resume_value (rt : runtime) (w : world) (resume jd : str)
  (model : option unit) (s : session) :
  exists s',
    analyze_resume rt w resume jd model s
    = (Return (analysis_value rt w resume jd model), s')
    /\ files s' = files s.
Proof.
  rewrite analyze_resume_run. unfold analyze_attempt, analysis_value, bind.
  generalize (prompt resume jd). intros p.
  destruct model as [[]|]; cbn.
  - destruct (generate_content w p) as [reply|m]; cbn.
    + unfold of_outcome.
      destruct (parse_gemini_response rt reply); eexists; split; reflexivity.
    + eexists; split; reflexivity.
  - eexists; split; reflexivity.
Qed.

(** A run of [main] with an upload, a job description and a model, when
    the operating system does not let the upload be written. *)
Lemma main_write_refused (rt : runtime) (w : world) (s : session) (up : upload)
  (e : exn) (partial : option bytes) :
  uploaded_file w = Some up ->
  jd_text w <> [] ->
  GenerativeModel w = Ok tt ->
  write_fails w (temp_path up) (getbuffer up) = Some (e, partial) ->
  exists s',
    main rt w s = (Raise e, s')
    /\ read_file (temp_path up) (files s')
       = match partial with
         | Some b => Some b
         | None => read_file (temp_path up) (files s)
         end.
Proof.
  intros Hup Hjd Hm Hw. unfold main. rewrite Hup.
  destruct (jd_text w) as [|c jd] eqn:Ejd; [congruence|].
  unfold bind at 1 2 3 4. cbn [st]. rewrite initialize_apis_run.
  pose proof (initialize_model w) as Hmodel. rewrite Hm in Hmodel.
  destruct (initialize_apis_result w) as [[parser model] msgs].
  cbn [fst snd] in *. subst model.
  unfold bind at 1 2 3 4 5. cbn [ret st]. rewrite Hw. unfold write_file.
  destruct partial as [b|]; eexists; (split; [reflexivity|]); cbn [files shown_all].
  - cbn [read_file]. now rewrite str_eqb_refl.
  - reflexivity.
Qed.

(** A run of [main] with an upload, a job description and a model, when
    the upload is written. *)
Lemma main_with_upload (rt : runtime) (w : world) (s : session) (up : upload) :
  uploaded_file w = Some up ->
  jd_text w <> [] ->
  GenerativeModel w = Ok tt ->
  write_fails w (temp_path up) (getbuffer up) = None ->
  exists s',
    main rt w s
    = (if display_fails rt w up
       then Raise (display_error
                     (analysis_value rt w (resume_of w up) (jd_text w) (Some tt)))
       else match remove_fails w (temp_path up) with
            | None => Return tt
            | Some e => Raise e
            end, s')
    /\ read_file (temp_path up) (files s')
       = (if display_fails rt w up then Some (getbuffer up)
          else match remove_fails w (temp_path up) with
               | None => None
               | Some _ => Some (getbuffer up)
               end).
Proof.
  intros Hup Hjd Hm Hw. unfold display_fails, resume_of, main. rewrite Hup.
  destruct (jd_text w) as [|c jd] eqn:Ejd; [congruence|].
  unfold bind at 1 2 3 4. cbn [st]. rewrite initialize_apis_run.
  pose proof (initialize_model w) as Hmodel. rewrite Hm in Hmodel.
  destruct (initialize_apis_result w) as [[parser model] msgs].
  cbn [fst snd] in *. subst model.
  unfold bind at 1 2 3 4 5 6. cbn [ret st]. rewrite Hw. cbn [write_file].
  unfold bind at 1. rewrite parse_resume_run.
  set (s1 := shown_all _ _).
  assert (Hf1 : files s1
                = (temp_path up, getbuffer up) :: remove_file (temp_path up) (files s))
    by reflexivity.
  assert (Hex : forall fs, file_exists (temp_path up)
                  ((temp_path up, getbuffer up) :: fs) = true).
  { intros fs. unfold file_exists. cbn [existsb fst]. now rewrite str_eqb_refl. }
  assert (Hrd : forall fs, read_file (temp_path up)
                  ((temp_path up, getbuffer up) :: fs) = Some (getbuffer up)).
  { intros fs. cbn [read_file]. now rewrite str_eqb_refl. }
  assert (Hrm : forall pg fs,
            files pg = (temp_path up, getbuffer up) :: fs ->
            exists s',
              os_remove (remove_fails w (temp_path up)) (temp_path up) pg
              = (match remove_fails w (temp_path up) with
                 | None => Return tt
                 | Some e => Raise e
                 end, s')
              /\ read_file (temp_path up) (files s')
                 = match remove_fails w (temp_path up) with
                   | None => None
                   | Some _ => Some (getbuffer up)
                   end).
  { intros pg fs Hpg. unfold os_remove. rewrite Hpg, Hex.
    destruct (remove_fails w (temp_path up)); eexists; (split; [reflexivity|]).
    - rewrite Hpg. apply Hrd.
    - cbn [files]. apply read_file_remove_same. }
  destruct (fst (parse_resume_result w (temp_path up) parser)) as [|r0 resume].
  - unfold bind at 1. cbn [st]. eapply Hrm. exact Hf1.
  - unfold bind at 1. cbn [st].
    set (s2 := {| page := _ ; files := files s1 |}).
    unfold bind at 1.
    destruct (analyze_resume_value rt w (r0 :: resume) (c :: jd) (Some tt) s2)
      as (s3 & -> & Hf3).
    set (a := analysis_value rt w (r0 :: resume) (c :: jd) (Some tt)).
    assert (Hf3' : files s3
              = (temp_path up, getbuffer up) :: remove_file (temp_path up) (files s))
      by (rewrite Hf3; exact Hf1).
    destruct (truthy a) eqn:Et; cbn [andb].
    + unfold bind at 1.
      pose proof (display_outcome a s3) as Hd.
      pose proof (keeps_files_display a s3) as Hk.
      destruct (display a s3) as [o s4]. cbn [fst snd] in Hd, Hk. subst o.
      destruct (displayable a); cbn [negb].
      * eapply Hrm. rewrite Hk. exact Hf3'.
      * eexists. split; [reflexivity|]. rewrite Hk, Hf3'. apply Hrd.
    + unfold bind at 1. cbn [ret]. eapply Hrm. exact Hf3'.
Qed.

Lemma typed_displayable (v : value) : typed_analysis v = true -> displayable v = true.
Proof.
  unfold typed_analysis, displayable, field, dict_field.
  destruct v as [| | | | | |d]; try discriminate.
  intros H.
  repeat match type of H with
         | _ && _ = true => apply andb_prop in H as [H ?]
         end.
  repeat match goal with
         | E : match dict_get ?k d with _ => _ end = true |- _ =>
             destruct (dict_get k d) as [[]|]; try discriminate E; clear E
         end; reflexivity.
Qed.

(** X5.  The fate of the temporary file on a run of [main] with an
    upload, a job description and a model.
    - When the operating system does not let the upload be written
      ([open] refuses the name, or the write breaks off), [main] ends
      there with its exception; under the name is what the failed
      statement left, or what was there before when [open] was refused.
    - When the upload is written and the display step fails (the
      analysis is truthy and no dictionary, or one of its list fields
      cannot be iterated), [main] ends with [AttributeError] or
      [TypeError] and the file is still there, with the bytes of the
      upload.
    - Otherwise [main] comes to [os.remove]: when the operating system
      removes the file, [main] returns and the file is gone; when it
      refuses, [main] ends with its exception and the file is there. *)
Theorem main_temp_file_fate (rt : runtime) (w : world) (s : session) (up : upload) :
  uploaded_file w = Some up ->
  jd_text w <> [] ->
  GenerativeModel w = Ok tt ->
  (forall e partial,
      write_fails w (temp_path up) (getbuffer up) = Some (e, partial) ->
      fst (main rt w s) = Raise e
      /\ read_file (temp_path up) (files (snd (main rt w s)))
         = match partial with
           | Some b => Some b
           | None => read_file (temp_path up) (files s)
           end)
  /\ (write_fails w (temp_path up) (getbuffer up) = None ->
      (display_fails rt w up = true ->
       (fst (main rt w s) = Raise AttributeError
        \/ fst (main rt w s) = Raise TypeError)
       /\ read_file (temp_path up) (files (snd (main rt w s))) = Some (getbuffer up))
      /\ (display_fails rt w up = false ->
          (remove_fails w (temp_path up) = None ->
           fst (main rt w s) = Return tt
           /\ read_file (temp_path up) (files (snd (main rt w s))) = None)
          /\ (forall e,
                 remove_fails w (temp_path up) = Some e ->
                 fst (main rt w s) = Raise e
                 /\ read_file (temp_path up) (files (snd (main rt w s)))
                    = Some (getbuffer up)))).
Proof.
  intros Hup Hjd Hm. split.
  - intros e partial Hw.
    destruct (@main_write_refused rt w s up e partial Hup Hjd Hm Hw) as (s' & -> & Hrd).
    now split.
  - intros Hw.
    destruct (@main_with_upload rt w s up Hup Hjd Hm Hw) as (s' & E & Hrd).
    rewrite E. cbn [fst snd]. split; intros Hd; rewrite Hd in *.
    + split; [|exact Hrd].
      destruct (analysis_value _ _ _ _ _); cbn; auto.
    + split.
      * intros Hr. rewrite Hr in *. now split.
      * intros e Hr. rewrite Hr in *. now split.
Qed.

Lemma main_temp_file_fate_witness :
  fst (main default_runtime
         (answering_world (py "Ten years of Python") (pyq "{'matching_skills': 3}")
            (Some {| name := py "cv.pdf"; getbuffer := [37; 80; 68; 70] |})
            (py "Python developer"))
         (initial_session []))
  = Raise TypeError
  /\ read_file (py "temp_cv.pdf")
       (files (snd (main default_runtime
                      (answering_world (py "Ten years of Python")
                         (pyq "{'matching_skills': 3}")
                         (Some {| name := py "cv.pdf"; getbuffer := [37; 80; 68; 70] |})
                         (py "Python developer"))
                      (initial_session []))))
     = Some [37; 80; 68; 70].
Proof.
  destruct (@main_temp_file_fate default_runtime
              (answering_world (py "Ten years of Python") (pyq "{'matching_skills': 3}")
                 (Some {| name := py "cv.pdf"; getbuffer := [37; 80; 68; 70] |})
                 (py "Python developer"))
              (initial_session [])
              {| name := py "cv.pdf"; getbuffer := [37; 80; 68; 70] |}
              eq_refl
              (fun H => eq_ind (py "Python developer")
                          (fun l => match l with [] => False | _ => True end) I [] H)
              eq_refl) as [_ H].
  destruct (H eq_refl) as [H1 _].
  destruct (H1 eq_refl) as [_ Hfile]. split; [reflexivity | exact Hfile].
Defined.

(** X6.  When the upload is written, the reply is no valid JSON, so
    that the fallback dictionary is the analysis, and the operating
    system removes the file when asked, the display step cannot fail:
    [main] returns and the temporary file is gone, whatever the reply
    holds. *)
Theorem main_completes_on_fallback (rt : runtime) (w : world) (s : session)
  (up : upload) (reply : str) :
  uploaded_file w = Some up ->
  jd_text w <> [] ->
  GenerativeModel w = Ok tt ->
  write_fails w (temp_path up) (getbuffer up) = None ->
  remove_fails w (temp_path up) = None ->
  generate_content w (prompt (resume_of w up) (jd_text w)) = Ok reply ->
  json_loads rt (clean_text reply) = Raise JSONDecodeError ->
  fst (main rt w s) = Return tt
  /\ read_file (temp_path up) (files (snd (main rt w s))) = None.
Proof.
  intros Hup Hjd Hm Hw Hr Hg Hj.
  destruct (@main_with_upload rt w s up Hup Hjd Hm Hw) as (s' & E & Hrd).
  assert (Hd : display_fails rt w up = false).
  { unfold display_fails, analysis_value. rewrite Hg.
    rewrite (parse_decode_error _ _ Hj).
    rewrite (typed_displayable _ (fallback_typed rt reply)).
    destruct (resume_of w up); [reflexivity|]. now rewrite andb_false_r. }
  rewrite E. rewrite Hd, Hr in *. now split.
Qed.

Lemma main_completes_on_fallback_witness :
  fst (main default_runtime
         (answering_world (py "Ten years of Python")
            (pyq "Sure! 'match_score': 80, 'matching_skills': ['Python'],")
            (Some {| name := py "cv.pdf"; getbuffer := [37; 80; 68; 70] |})
            (py "Python developer"))
         (initial_session []))
  = Return tt.
Proof.
  apply (@main_completes_on_fallback default_runtime
           (answering_world (py "Ten years of Python")
              (pyq "Sure! 'match_score': 80, 'matching_skills': ['Python'],")
              (Some {| name := py "cv.pdf"; getbuffer := [37; 80; 68; 70] |})
              (py "Python developer"))
           (initial_session [])
           {| name := py "cv.pdf"; getbuffer := [37; 80; 68; 70] |}
           (pyq "Sure! 'match_score': 80, 'matching_skills': ['Python'],")
           eq_refl
           (fun H => eq_ind (py "Python developer")
                       (fun l => match l with [] => False | _ => True end) I [] H)
           eq_refl eq_refl eq_refl eq_refl eq_refl).
Defined.

Lemma main_without_model (rt : runtime) (w : world) (s : session) (msg : str) :
  GenerativeModel w = Fails msg ->
  exists s', main rt w s = (Raise StopException, s') /\ files s' = files s.
Proof.
  intros Hm. unfold main. unfold bind at 1 2 3 4. cbn [st].
  rewrite initialize_apis_run.
  pose proof (initialize_model w) as Hmodel. rewrite Hm in Hmodel.
  destruct (initialize_apis_result w) as [[parser model] msgs].
  cbn [fst snd] in *. subst model.
  unfold bind at 1. eexists. split; reflexivity.
Qed.

(** X7.  [main] stops before anything is written when the model could
    not be set up: it ends with Streamlit's stop and the working
    directory is as it was, upload or not. *)
Theorem main_stops_without_model (rt : runtime) (w : world) (s : session) (msg : str) :
  GenerativeModel w = Fails msg ->
  fst (main rt w s) = Raise StopException
  /\ files (snd (main rt w s)) = files s.
Proof.
  intros Hm. destruct (@main_without_model rt w s msg Hm) as (s' & -> & Hf).
  now split.
Qed.

Lemma main_stops_without_model_witness :
  fst (main default_runtime
         {| LlamaParse := Ok tt;
            GenerativeModel := Fails (py "API key not valid");
            load_data := fun _ => Ok [py "resume"];
            extract_text := fun _ => Ok (py "resume");
            generate_content := fun _ => Ok (py "{}");
            uploaded_file := Some {| name := py "cv.pdf"; getbuffer := [37] |};
            jd_text := py "Python developer";
            write_fails := fun _ _ => None;
            remove_fails := fun _ => None |}
         (initial_session []))
  = Raise StopException.
Proof.
  apply (@main_stops_without_model default_runtime
           {| LlamaParse := Ok tt;
              GenerativeModel := Fails (py "API key not valid");
              load_data := fun _ => Ok [py "resume"];
              extract_text := fun _ => Ok (py "resume");
              generate_content := fun _ => Ok (py "{}");
              uploaded_file := Some {| name := py "cv.pdf"; getbuffer := [37] |};
              jd_text := py "Python developer";
              write_fails := fun _ _ => None;
              remove_fails := fun _ => None |}
           (initial_session []) (py "API key not valid")).
  reflexivity.
Defined.

(** X8.  [main] asks the operating system to write and to remove under
    one path only, that of the temporary file: a run is the same in two
    worlds that differ only in what the operating system would answer
    under other paths or for other bytes. *)
Theorem main_file_calls_at_temp_path (rt : runtime) (w : world) (s : session)
  (wf : str -> bytes -> option (exn * option bytes)) (rf : str -> option exn) :
  (forall up,
      uploaded_file w = Some up ->
      wf (temp_path up) (getbuffer up) = write_fails w (temp_path up) (getbuffer up)
      /\ rf (temp_path up) = remove_fails w (temp_path up)) ->
  main rt (with_os w wf rf) s = main rt w s.
Proof.
  intros H. unfold main. cbn [with_os uploaded_file jd_text write_fails remove_fails].
  destruct (uploaded_file w) as [up|] eqn:Hup; [|reflexivity].
  destruct (H up eq_refl) as [-> ->]. reflexivity.
Qed.

Lemma main_file_calls_at_temp_path_witness :
  main default_runtime
    (with_os
       (answering_world (py "Ten years of Python") (pyq "{'match_score': 75}")
          (Some {| name := py "cv.pdf"; getbuffer := [37; 80; 68; 70] |})
          (py "Python developer"))
       (fun path _ => if str_eqb path (py "temp_cv.pdf") then None
                      else Some (OSError, None))
       (fun path => if str_eqb path (py "temp_cv.pdf") then None else Some OSError))
    (initial_session [])
  = main default_runtime
      (answering_world (py "Ten years of Python") (pyq "{'match_score': 75}")
         (Some {| name := py "cv.pdf"; getbuffer := [37; 80; 68; 70] |})
         (py "Python developer"))
      (initial_session []).
Proof.
  apply (@main_file_calls_at_temp_path default_runtime
           (answering_world (py "Ten years of Python") (pyq "{'match_score': 75}")
              (Some {| name := py "cv.pdf"; getbuffer := [37; 80; 68; 70] |})
              (py "Python developer"))
           (initial_session [])
           (fun path _ => if str_eqb path (py "temp_cv.pdf") then None
                          else Some (OSError, None))
           (fun path => if str_eqb path (py "temp_cv.pdf") then None else Some OSError)).
  intros up H. injection H as <-. split; reflexivity.
Defined.

(** The run of [main] on an upload whose text cannot be read. *)
Lemma main_parse_failure_run (rt : runtime) (w : world) (s : session) (up : upload) :
  uploaded_file w = Some up ->
  jd_text w <> [] ->
  GenerativeModel w = Ok tt ->
  write_fails w (temp_path up) (getbuffer up) = None ->
  remove_fails w (temp_path up) = None ->
  resume_of w up = [] ->
  main rt w s
  = (Return tt,
     {| page :=
          st_error (py "Failed to parse resume") None
          :: snd (parse_resume_result w (temp_path up)
                    (fst (fst (initialize_apis_result w))))
          ++ st_spinner (py "Parsing resume...")
          :: st_text_area :: st_file_uploader :: st_columns
          :: snd (initialize_apis_result w)
          ++ st_markdown :: st_title :: st_set_page_config :: page s;
        files :=
          remove_file (temp_path up)
            ((temp_path up, getbuffer up) :: remove_file (temp_path up) (files s)) |}).
Proof.
  intros Hup Hjd Hm Hw Hrm Hr. unfold resume_of in Hr. unfold main. rewrite Hup.
  destruct (jd_text w) as [|c jd] eqn:Ejd; [congruence|].
  unfold bind at 1 2 3 4. cbn [st]. rewrite initialize_apis_run.
  pose proof (initialize_model w) as Hmodel. rewrite Hm in Hmodel.
  destruct (initialize_apis_result w) as [[parser model] msgs].
  cbn [fst snd] in *. subst model.
  unfold bind at 1 2 3 4 5 6. cbn [ret st]. rewrite Hw, Hrm. cbn [write_file].
  unfold bind at 1. rewrite parse_resume_run. rewrite Hr.
  unfold bind at 1. cbn [st]. unfold os_remove, shown_all. cbn [files page].
  unfold file_exists. cbn [existsb fst]. rewrite str_eqb_refl. reflexivity.
Qed.

(** X9.  When the upload is written but no text can be read from it,
    [main] says so, asks for the temporary file to be removed and, when
    the operating system does that, returns with the file gone.  The
    model is never asked: the run is the same whatever
    [generate_content] would answer. *)
Theorem main_parse_failure_skips_model (rt : runtime) (w : world) (s : session)
  (up : upload) :
  uploaded_file w = Some up ->
  jd_text w <> [] ->
  GenerativeModel w = Ok tt ->
  write_fails w (temp_path up) (getbuffer up) = None ->
  remove_fails w (temp_path up) = None ->
  resume_of w up = [] ->
  fst (main rt w s) = Return tt
  /\ hd_error (page (snd (main rt w s)))
     = Some (st_error (py "Failed to parse resume") None)
  /\ read_file (temp_path up) (files (snd (main rt w s))) = None
  /\ (forall g, main rt (with_generate_content w g) s = main rt w s).
Proof.
  intros Hup Hjd Hm Hw Hrm Hr.
  rewrite (@main_parse_failure_run rt w s up Hup Hjd Hm Hw Hrm Hr).
  cbn [fst snd page files].
  split; [reflexivity|]. split; [reflexivity|]. split; [apply read_file_remove_same|].
  intros g.
  exact (@main_parse_failure_run rt (with_generate_content w g) s up
           Hup Hjd Hm Hw Hrm Hr).
Qed.

Lemma main_parse_failure_skips_model_witness :
  fst (main default_runtime
         {| LlamaParse := Fails (py "no key");
            GenerativeModel := Ok tt;
            load_data := fun _ => Ok [];
            extract_text := fun _ => Fails (py "not a PDF");
            generate_content := fun _ => Ok (py "{}");
            uploaded_file := Some {| name := py "cv.pdf"; getbuffer := [1] |};
            jd_text := py "Python developer";
            write_fails := fun _ _ => None;
            remove_fails := fun _ => None |}
         (initial_session []))
  = Return tt.
Proof.
  apply (@main_parse_failure_skips_model default_runtime
           {| LlamaParse := Fails (py "no key");
              GenerativeModel := Ok tt;
              load_data := fun _ => Ok [];
              extract_text := fun _ => Fails (py "not a PDF");
              generate_content := fun _ => Ok (py "{}");
              uploaded_file := Some {| name := py "cv.pdf"; getbuffer := [1] |};
              jd_text := py "Python developer";
              write_fails := fun _ _ => None;
              remove_fails := fun _ => None |}
           (initial_session []) {| name := py "cv.pdf"; getbuffer := [1] |}
           eq_refl
           (fun H => eq_ind (py "Python developer")
                       (fun l => match l with [] => False | _ => True end) I [] H)
           eq_refl eq_refl eq_refl eq_refl).
Defined.

(** ** [parse_resume] *)

(** X10.  When the parser is there and [load_data] gives a document,
    [parse_resume] returns the text of the first one and shows nothing;
    pdfminer is not asked, whatever it would answer, and that holds also
    when the text of the document is empty. *)
Theorem parse_resume_prefers_llamaparse (w : world) (path d : str) (ds : list str)
  (s : session) :
  load_data w path = Ok (d :: ds) ->
  forall x,
    fst (parse_resume (with_extract_text w x) path (Some tt) s) = Return d
    /\ page (snd (parse_resume (with_extract_text w x) path (Some tt) s)) = page s
    /\ files (snd (parse_resume (with_extract_text w x) path (Some tt) s)) = files s.
Proof.
  intros Hl x. rewrite parse_resume_run. unfold parse_resume_result.
  cbn [load_data with_extract_text]. rewrite Hl. repeat split.
Qed.

Lemma parse_resume_prefers_llamaparse_witness :
  fst (parse_resume
         (with_extract_text
            (answering_world (py "") (py "{}") None (py "jd"))
            (fun _ => Ok (py "text from pdfminer")))
         (py "temp_cv.pdf") (Some tt) (initial_session []))
  = Return [].
Proof.
  apply (@parse_resume_prefers_llamaparse
           (answering_world (py "") (py "{}") None (py "jd"))
           (py "temp_cv.pdf") [] [] (initial_session []) eq_refl
           (fun _ => Ok (py "text from pdfminer"))).
Defined.

(** ** The fence *)

(** X11.  After an opening fence the last three characters of the reply
    are cut off whatever they are: a reply that opens a fence and does
    not close it loses the end of its content. *)
Theorem clean_text_cuts_three (body : str) (a b c : char) :
  isspace c = false ->
  clean_text (fence_json ++ body ++ [a; b; c]) = strip body
  /\ (startswith (py "json") (body ++ [a; b; c]) = false ->
      clean_text (fence ++ body ++ [a; b; c]) = strip body).
Proof.
  intros Hc. unfold clean_text.
  assert (Hbare : forall f, f = fence_json \/ f = fence ->
            strip (f ++ body ++ [a; b; c]) = f ++ body ++ [a; b; c]).
  { intros f Hf. apply bare_strip. unfold bare.
    rewrite !rev_app_distr. cbn [rev app]. rewrite Hc.
    destruct Hf as [-> | ->]; reflexivity. }
  split.
  - rewrite (Hbare fence_json) by now left. rewrite startswith_app.
    f_equal. exact (slice_inner_wrapped fence_json [a; b; c] body).
  - intros Hj. rewrite (Hbare fence) by now right.
    change (startswith fence_json (fence ++ body ++ [a; b; c]))
      with (startswith (py "json") (body ++ [a; b; c])).
    rewrite Hj, startswith_app.
    f_equal. exact (slice_inner_wrapped fence [a; b; c] body).
Qed.

Lemma clean_text_cuts_three_witness :
  clean_text (pyq "```json{'match_score': 80}") = pyq "{'match_score':".
Proof.
  exact (proj1 (@clean_text_cuts_three (pyq "{'match_score': ") 56 48 125 eq_refl)).
Defined.

(** ** What a match is made of *)

Lemma lit_inv (p : str) (k : matcher) (s g : str) :
  lit p k s = Some g -> exists r, s = p ++ r /\ k r = Some g.
Proof.
  revert s. induction p as [|a p IH]; intros s H; simpl in H.
  - now exists s.
  - destruct s as [|b s]; [discriminate|].
    destruct (a =? b) eqn:E; [|discriminate]. apply N.eqb_eq in E. subst b.
    destruct (IH _ H) as (r & -> & Hr). now exists r.
Qed.

(** A greedy repetition that matches has taken a run of the class and
    handed it to its continuation. *)
Lemma greedy_inv (cls : char -> bool) (k : str -> matcher) (s : str) :
  forall got r,
  greedy cls k got s = Some r ->
  exists run rest,
    s = run ++ rest /\ forallb cls run = true /\ k (rev got ++ run) rest = Some r.
Proof.
  induction s as [|c s IH]; intros got r H; simpl in H.
  - exists [], []. split; [reflexivity|]. split; [reflexivity|]. now rewrite app_nil_r.
  - destruct (cls c) eqn:Ec.
    + destruct (greedy cls k (c :: got) s) as [r'|] eqn:G.
      * injection H as <-. destruct (IH _ _ G) as (run & rest & -> & Hrun & Hk).
        exists (c :: run), rest. cbn [forallb app]. rewrite Ec, Hrun.
        cbn [rev] in Hk. rewrite <- app_assoc in Hk. auto.
      * exists [], (c :: s). split; [reflexivity|]. split; [reflexivity|].
        now rewrite app_nil_r.
    + exists [], (c :: s). split; [reflexivity|]. split; [reflexivity|].
      now rewrite app_nil_r.
Qed.

Lemma re_search_inv (m : matcher) (s g : str) :
  re_search m s = Some g -> exists a b, s = a ++ b /\ m b = Some g.
Proof.
  induction s as [|c s IH]; simpl; intros H.
  - destruct (m []) eqn:E; [|discriminate]. exists [], []. now rewrite E.
  - destruct (m (c :: s)) eqn:E.
    + exists [], (c :: s). now rewrite E.
    + destruct (IH H) as (a & b & -> & Hb). now exists (c :: a), b.
Qed.

(** A match of the value pattern: the key, white space, and the group,
    which is made of characters of the class. *)
Lemma search_value_inv (key text g : str) :
  re_search (value_pattern key) text = Some g ->
  exists a ws d,
    text = a ++ key_prefix key ++ ws ++ g ++ d
    /\ forallb isspace ws = true
    /\ forallb value_char g = true.
Proof.
  intros H. apply re_search_inv in H as (a & b & -> & H).
  unfold value_pattern in H. apply lit_inv in H as (r & -> & H).
  unfold star in H. apply greedy_inv in H as (ws & r1 & -> & Hws & H).
  unfold plus_group in H. apply greedy_inv in H as (run & d & -> & Hrun & H).
  cbn [rev app] in H. destruct run as [|c run]; [discriminate|].
  injection H as <-. now exists a, ws, d.
Qed.

(** The same for the list pattern: the group stands between brackets
    and holds no closing bracket. *)
Lemma search_list_inv (key text g : str) :
  re_search (list_pattern key) text = Some g ->
  exists a ws d,
    text = a ++ key_prefix key ++ ws ++ LBRACKET :: g ++ RBRACKET :: d
    /\ forallb isspace ws = true
    /\ forallb item_char g = true.
Proof.
  intros H. apply re_search_inv in H as (a & b & -> & H).
  unfold list_pattern in H. apply lit_inv in H as (r & -> & H).
  unfold star in H. apply greedy_inv in H as (ws & r1 & -> & Hws & H).
  apply lit_inv in H as (r2 & -> & H).
  unfold plus_group in H. apply greedy_inv in H as (run & d & -> & Hrun & H).
  cbn [rev app] in H. destruct run as [|c run]; [discriminate|].
  apply lit_inv in H as (d' & -> & H). injection H as <-.
  now exists a, ws, d'.
Qed.

(** What [strip] takes off stands at the two ends and is in the class. *)
Lemma strip_by_split (p : char -> bool) (s : str) :
  exists a b,
    s = a ++ strip_by p s ++ b /\ forallb p a = true /\ forallb p b = true.
Proof.
  destruct (lstrip_by_split p s) as (a & Ea & Ha).
  destruct (rstrip_by_split p (lstrip_by p s)) as (b & Eb & Hb).
  exists a, b. unfold strip_by. now rewrite <- Eb.
Qed.

Lemma forallb_part (p : char -> bool) (a x b : str) :
  forallb p (a ++ x ++ b) = true -> forallb p x = true.
Proof.
  rewrite !forallb_app. intros H.
  apply andb_prop in H as [_ H]. now apply andb_prop in H as [H _].
Qed.

Lemma forallb_weaken (p q : char -> bool) (s : str) :
  (forall c, p c = true -> q c = true) -> forallb p s = true -> forallb q s = true.
Proof.
  intros Hpq H. rewrite forallb_forall in *. auto.
Qed.

(** The pieces of [split]: none holds the separator, and each is a part
    of the text. *)
Lemma split_parts (sep : char) (s x : str) :
  In x (split sep s) ->
  forallb (fun c => negb (c =? sep)) x = true /\ exists a b, s = a ++ x ++ b.
Proof.
  revert x. induction s as [|c s IH]; intros x H; simpl in H.
  - destruct H as [<- | []]. split; [reflexivity|]. now exists [], [].
  - destruct (c =? sep) eqn:E.
    + destruct H as [<- | H].
      * split; [reflexivity|]. now exists [], (c :: s).
      * destruct (IH _ H) as (Hx & a & b & ->). split; [exact Hx|].
        now exists (c :: a), b.
    + destruct (split sep s) as [|h t] eqn:S.
      * destruct H as [<- | []]. cbn. rewrite E. split; [reflexivity|].
        exists [], s. reflexivity.
      * destruct H as [<- | H].
        -- destruct (IH h (or_introl eq_refl)) as (Hh & a & b & Hs).
           split; [cbn; now rewrite E, Hh|].
           (* [h] is the first piece: it starts the text *)
           assert (Hpre : exists b', s = h ++ b').
           { clear - S. revert h t S. induction s as [|d s IHs]; intros h t S; simpl in S.
             - injection S as <- <-. now exists [].
             - destruct (d =? sep).
               + injection S as <- <-. now exists (d :: s).
               + destruct (split sep s) as [|h' t'] eqn:S'.
                 * injection S as <- <-. exists s. reflexivity.
                 * injection S as <- <-. destruct (IHs _ _ eq_refl) as (b' & ->).
                   now exists b'. }
           destruct Hpre as (b' & ->). now exists [], b'.
        -- destruct (IH x (or_intror H)) as (Hx & a & b & ->). split; [exact Hx|].
           now exists (c :: a), b.
Qed.

Lemma quote_chars_value (c : char) : char_in quote_chars c = true -> value_char c = true.
Proof.
  unfold char_in, quote_chars. cbn [existsb]. rewrite orb_false_r.
  intros H. apply orb_prop in H as [H | H]; [|apply orb_prop in H as [H | H]];
    apply N.eqb_eq in H; subst c; reflexivity.
Qed.

(** ** [extract_value] and [extract_list] on every text *)

(** X12.  Whatever the text, the string [extract_value] returns for a
    key holds no comma, no line feed and no closing brace, and neither
    starts nor ends with a space, a double quote or an apostrophe.  When
    it is not empty it stands in the text after the quoted key and its
    colon, with nothing but white space, double quotes and apostrophes
    between the two. *)
Theorem extract_value_str_part_of_text (text key : str) :
  word_key key = true ->
  forallb value_char (extract_value text key py_str) = true
  /\ bare (char_in quote_chars) (extract_value text key py_str) = true
  /\ (extract_value text key py_str <> [] ->
      exists a c d,
        text = a ++ key_prefix key ++ c ++ extract_value text key py_str ++ d
        /\ forallb (fun x => isspace x || char_in quote_chars x) c = true).
Proof.
  intros _. unfold extract_value.
  destruct (re_search (value_pattern key) text) as [g|] eqn:E;
    cbn [call call0 py_str]; [|repeat split; congruence].
  apply search_value_inv in E as (a & ws & d & -> & Hws & Hg).
  unfold strip_chars.
  destruct (strip_by_split (char_in quote_chars) g) as (q1 & q2 & Eg & H1 & H2).
  split; [|split].
  - rewrite Eg in Hg. exact (forallb_part _ _ _ _ Hg).
  - apply strip_by_bare.
  - intros _. exists a, (ws ++ q1), (q2 ++ d). split.
    + rewrite Eg at 1. now rewrite <- !app_assoc.
    + rewrite forallb_app. apply andb_true_intro. split.
      * apply (forallb_weaken isspace); [|exact Hws]. intros c Hc. now rewrite Hc.
      * apply (forallb_weaken (char_in quote_chars)); [|exact H1].
        intros c Hc. rewrite Hc. apply orb_true_r.
Qed.

Lemma extract_value_str_part_of_text_witness :
  forallb value_char
    (extract_value (pyq "{'summary': 'Strong skills, but no cloud'}") (py "summary") py_str)
  = true.
Proof.
  apply (@extract_value_str_part_of_text
           (pyq "{'summary': 'Strong skills, but no cloud'}") (py "summary") eq_refl).
Defined.

(** X13.  Whatever the text, an element of the list [extract_list]
    returns for a key holds no comma and no closing bracket, neither
    starts nor ends with a space, a double quote or an apostrophe, and
    stands in the text after the quoted key and its colon. *)
Theorem extract_list_elements (text key e : str) :
  word_key key = true ->
  In e (extract_list text key) ->
  forallb (fun c => item_char c && negb (c =? COMMA)) e = true
  /\ bare (char_in quote_chars) e = true
  /\ exists a c d, text = a ++ key_prefix key ++ c ++ e ++ d.
Proof.
  intros _. unfold extract_list.
  destruct (re_search (list_pattern key) text) as [g|] eqn:E; [|intros []].
  apply search_list_inv in E as (a & ws & d & -> & Hws & Hg).
  intros H. apply in_map_iff in H as (item & <- & H).
  apply filter_In in H as [H _].
  apply split_parts in H as (Hc & u & v & ->).
  unfold strip_chars.
  destruct (strip_by_split (char_in quote_chars) item) as (q1 & q2 & Ei & H1 & H2).
  split; [|split].
  - apply forallb_part in Hg. rewrite Ei in Hg, Hc.
    apply forallb_part in Hg. apply forallb_part in Hc.
    rewrite forallb_forall in *. intros c Hin. now rewrite Hg, Hc.
  - apply strip_by_bare.
  - exists a, (ws ++ LBRACKET :: u ++ q1), (q2 ++ v ++ RBRACKET :: d).
    rewrite Ei at 1. cbn [app]. rewrite <- !app_assoc. cbn [app].
    now rewrite <- !app_assoc.
Qed.

Lemma extract_list_elements_witness :
  In (py "AWS") (extract_list (pyq "{'missing_skills': ['AWS', 'Go']}") (py "missing_skills"))
  /\ forallb (fun c => item_char c && negb (c =? COMMA)) (py "AWS") = true.
Proof.
  split; [left; reflexivity|].
  apply (@extract_list_elements
           (pyq "{'missing_skills': ['AWS', 'Go']}") (py "missing_skills") (py "AWS")
           eq_refl).
  left. reflexivity.
Defined.

(** X14.  A number written between double quotes or apostrophes, or
    with spaces around it, is read as the number: where the quoted key
    and its colon first occur, white space follows, then any run of
    spaces and quotes, an [int] literal, any run of spaces and quotes
    again and the end of the value, [extract_value] with [int] returns
    the integer. *)
Theorem extract_value_int_quoted (rt : runtime) (pre key ws q1 q2 post : str)
  (neg : bool) (ds : str) :
  word_key key = true ->
  find (key_prefix key)
    (pre ++ key_prefix key ++ ws ++ q1 ++ int_literal neg ds ++ q2 ++ post)
  = Some (List.length pre) ->
  forallb isspace ws = true ->
  forallb (char_in quote_chars) q1 = true ->
  forallb (char_in quote_chars) q2 = true ->
  value_end post = true ->
  ds <> [] ->
  forallb isdigit ds = true ->
  over_digit_limit (int_max_str_digits rt) (List.length ds) = false ->
  extract_value
    (pre ++ key_prefix key ++ ws ++ q1 ++ int_literal neg ds ++ q2 ++ post) key (py_int rt)
  = int_literal_value neg ds.
Proof.
  intros _ Hf Hws H1 H2 Hpost Hne Hds Hmax.
  destruct (int_literal_shape neg Hne Hds) as (Hl1 & Hl2 & Hl3 & Hl4).
  destruct (lstrip_by_split isspace q1) as (sp & Eq & Hsp).
  pose proof (lstrip_by_starts isspace q1) as Hq.
  set (q := lstrip_by isspace q1) in *.
  assert (Hqc : forallb (char_in quote_chars) q = true).
  { rewrite Eq, forallb_app in H1. now apply andb_prop in H1 as [_ H1]. }
  set (v := q ++ int_literal neg ds ++ q2).
  assert (Et : pre ++ key_prefix key ++ ws ++ q1 ++ int_literal neg ds ++ q2 ++ post
               = pre ++ key_prefix key ++ (ws ++ sp) ++ v ++ post).
  { unfold v. rewrite Eq. now rewrite <- !app_assoc. }
  rewrite Et in *. unfold extract_value.
  rewrite search_value_at; auto.
  - unfold strip_chars, v. rewrite strip_by_wrapped by assumption.
    cbn [call py_int]. now rewrite int_of_str_literal.
  - rewrite forallb_app. now rewrite Hws, Hsp.
  - unfold v. destruct q; [|discriminate].
    destruct (int_literal neg ds); [congruence|discriminate].
  - unfold v. destruct q as [|c q']; [|exact Hq].
    cbn [app]. apply starts_in_app; assumption.
  - unfold v. rewrite !forallb_app. rewrite Hl3.
    rewrite (forallb_weaken _ value_char q quote_chars_value Hqc).
    now rewrite (forallb_weaken _ value_char q2 quote_chars_value H2).
Qed.

Lemma extract_value_int_quoted_witness :
  extract_value (pyq "{'match_score': '85', 'experience': 3}") (py "match_score")
    (py_int default_runtime)
  = 85%Z.
Proof.
  apply (@extract_value_int_quoted default_runtime
           (pyq "{") (py "match_score") (py " ") [QUOTE] [QUOTE]
           (pyq ", 'experience': 3}") false (py "85")
           eq_refl eq_refl eq_refl eq_refl eq_refl eq_refl
           (fun H => eq_ind (py "85")
                       (fun l => match l with [] => False | _ => True end) I [] H)
           eq_refl eq_refl).
Defined.

(** ** Where a quoted key occurs *)

Lemma find_unfold (p s : str) :
  find p s
  = if startswith p s then Some O
    else match s with
         | [] => None
         | _ :: r => option_map S (find p r)
         end.
Proof. destruct s; reflexivity. Qed.

Lemma find_step (p : str) (c : char) (s : str) :
  startswith p (c :: s) = false -> find p (c :: s) = option_map S (find p s).
Proof. intros H. rewrite find_unfold. now rewrite H. Qed.

Lemma no_start_nil (p : str) : no_start p [].
Proof. intros b. cbn [app List.length]. now destruct (find p b). Qed.

Lemma no_start_app (p a b : str) : no_start p a -> no_start p b -> no_start p (a ++ b).
Proof.
  intros Ha Hb c. rewrite <- app_assoc, Ha, Hb, length_app.
  destruct (find p c); cbn [option_map]; [f_equal; lia | reflexivity].
Qed.

Lemma no_start_cons (p : str) (c : char) (a : str) :
  (forall b, startswith p (c :: a ++ b) = false) -> no_start p a -> no_start p (c :: a).
Proof.
  intros H Ha b. cbn [app]. rewrite find_step by apply H. rewrite Ha.
  destruct (find p b); reflexivity.
Qed.

(** A text without the first character of [p]. *)
Lemma no_start_gap (x : char) (p g : str) :
  forallb (fun c => negb (c =? x)) g = true -> no_start (x :: p) g.
Proof.
  induction g as [|c g IH]; intros H; [apply no_start_nil|].
  cbn [forallb] in H. apply andb_prop in H as [Hc Hg].
  apply no_start_cons; [|auto].
  intros b. cbn [startswith]. rewrite N.eqb_sym.
  apply negb_true_iff in Hc. now rewrite Hc.
Qed.

Lemma no_start_found (p a r : str) :
  no_start p a -> find p (a ++ p ++ r) = Some (List.length a).
Proof.
  intros H. rewrite H, find_unfold, startswith_app. cbn [option_map].
  now rewrite Nat.add_0_r.
Qed.

Lemma no_start_absent (p a b : str) :
  no_start p a -> find p b = None -> find p (a ++ b) = None.
Proof. intros H Hb. now rewrite H, Hb. Qed.

(** A match of [p] that runs over the character [c] holds it. *)
Lemma startswith_through (p a : str) (c : char) (b : str) :
  startswith p (a ++ c :: b) = true -> startswith p a = true \/ In c p.
Proof.
  revert a. induction p as [|x p IH]; intros a H; [now left|].
  destruct a as [|y a]; cbn [app startswith] in H |- *.
  - apply andb_prop in H as [H _]. apply N.eqb_eq in H. right. now left.
  - apply andb_prop in H as [Hxy H]. rewrite Hxy.
    destruct (IH _ H) as [H1 | H1]; [now left | right; now right].
Qed.

(** Prose without [p], closed by a character that is not in [p]. *)
Lemma no_start_prose (p pre : str) (c : char) :
  find p pre = None -> ~ In c p -> no_start p (pre ++ [c]).
Proof.
  intros Hf Hc. induction pre as [|d pre IH].
  - cbn [app]. apply no_start_cons; [|apply no_start_nil].
    intros b. destruct (startswith p (c :: [] ++ b)) eqn:E; [|reflexivity].
    apply (startswith_through p [] c b) in E. destruct E as [E | E]; [|contradiction].
    rewrite find_unfold, E in Hf. discriminate.
  - rewrite find_unfold in Hf.
    destruct (startswith p (d :: pre)) eqn:Ed; [discriminate|].
    destruct (find p pre) eqn:Ep; [discriminate|].
    cbn [app]. apply no_start_cons; [|now apply IH].
    intros b. destruct (startswith p (d :: (pre ++ [c]) ++ b)) eqn:E; [|reflexivity].
    rewrite <- app_assoc in E.
    apply (startswith_through p (d :: pre) c b) in E.
    destruct E as [E | E]; [congruence | contradiction].
Qed.

Ltac bools :=
  repeat match goal with
         | H : _ || _ = true |- _ => apply orb_prop in H; destruct H as [H | H]
         | H : _ && _ = true |- _ => apply andb_prop in H; destruct H as [? H]
         | H : (_ <=? _) = true |- _ => apply N.leb_le in H
         | H : (_ =? _) = true |- _ => apply N.eqb_eq in H
         end.

Lemma isspace_low (c : char) : isspace c = true -> (c <= 32 \/ 133 <= c)%N.
Proof.
  unfold isspace, in_range. intros H. bools; lia.
Qed.

(** A white space character is no letter, digit or underscore, and none
    of the marks of the patterns. *)
Lemma isspace_plain (c : char) :
  isspace c = true ->
  is_word c = false /\ (c =? QUOTE) = false /\ (c =? COLON) = false
  /\ (c =? LBRACKET) = false.
Proof.
  intros H. apply isspace_low in H.
  repeat split; apply not_true_is_false; intros H';
    unfold is_word, in_range, QUOTE, COLON, LBRACKET, UNDERSCORE in H'; bools; lia.
Qed.

Lemma word_not_quote (c : char) : is_word c = true -> negb (c =? QUOTE) = true.
Proof.
  intros H. apply negb_true_iff, not_true_is_false. intros H'.
  apply N.eqb_eq in H'. subst c. discriminate.
Qed.

Lemma word_no_quote (k : str) :
  word_key k = true -> forallb (fun c => negb (c =? QUOTE)) k = true.
Proof. apply forallb_weaken, word_not_quote. Qed.

Lemma space_no_quote (g : str) :
  forallb isspace g = true -> forallb (fun c => negb (c =? QUOTE)) g = true.
Proof.
  apply forallb_weaken. intros c H.
  destruct (isspace_plain _ H) as (_ & -> & _). reflexivity.
Qed.

(** Two quoted texts: one starts the other only when they are equal. *)
Lemma startswith_quoted (k s x y : str) :
  forallb (fun c => negb (c =? QUOTE)) k = true ->
  forallb (fun c => negb (c =? QUOTE)) s = true ->
  startswith (k ++ QUOTE :: x) (s ++ QUOTE :: y) = true ->
  k = s /\ startswith x y = true.
Proof.
  revert s. induction k as [|e k IH]; intros [|d s] Hk Hs H;
    cbn [app startswith forallb] in *.
  - apply andb_prop in H as [_ H]. auto.
  - apply andb_prop in H as [H _]. apply andb_prop in Hs as [Hd _].
    rewrite N.eqb_sym in H. rewrite H in Hd. discriminate.
  - apply andb_prop in H as [H _]. apply andb_prop in Hk as [He _].
    rewrite H in He. discriminate.
  - apply andb_prop in H as [He H]. apply N.eqb_eq in He. subst d.
    apply andb_prop in Hk as [_ Hk]. apply andb_prop in Hs as [_ Hs].
    destruct (IH _ Hk Hs H) as [-> Hxy]. auto.
Qed.

(** A word does not start at a character that is not of a word. *)
Lemma word_head (k x rest : str) :
  word_key k = true -> k <> [] ->
  starts_in (fun c => negb (is_word c)) rest = true ->
  startswith (k ++ x) rest = false.
Proof.
  intros Hk Hne Hr. destruct k as [|e k]; [congruence|].
  destruct rest as [|c rest]; [reflexivity|].
  cbn [app startswith]. cbn [word_key forallb] in Hk. cbn [starts_in] in Hr.
  apply andb_prop in Hk as [He _]. apply negb_true_iff in Hr.
  destruct (e =? c) eqn:E; [|reflexivity].
  apply N.eqb_eq in E. subst c. congruence.
Qed.

(** No occurrence of the key starts in a quoted text that is not the
    key, or that no colon follows, when no word follows it either. *)
Lemma find_quoted (k s rest : str) :
  word_key k = true -> k <> [] ->
  forallb (fun c => negb (c =? QUOTE)) s = true ->
  starts_in (fun c => negb (is_word c)) rest = true ->
  str_eqb s k = false \/ starts_in (fun c => negb (c =? COLON)) rest = true ->
  find (key_prefix k) (string_literal s ++ rest)
  = option_map (Nat.add (List.length (string_literal s))) (find (key_prefix k) rest).
Proof.
  intros Hk Hne Hs Hr Hd. unfold string_literal, key_prefix.
  cbn [app]. rewrite <- app_assoc. cbn [app].
  rewrite find_step.
  - rewrite (@no_start_gap QUOTE (k ++ [QUOTE; COLON]) s Hs).
    rewrite find_step.
    + cbn [List.length]. rewrite length_app. cbn [List.length].
      destruct (find _ rest); cbn [option_map]; [f_equal; lia | reflexivity].
    + cbn [startswith]. rewrite N.eqb_refl. cbn [andb]. now apply word_head.
  - cbn [startswith]. rewrite N.eqb_refl. cbn [andb].
    apply not_true_is_false. intros H.
    apply startswith_quoted in H as [E H]; [|now apply word_no_quote|exact Hs].
    subst s. destruct Hd as [Hd | Hd].
    + rewrite str_eqb_refl in Hd. discriminate.
    + destruct rest as [|c rest]; [discriminate|].
      cbn [startswith starts_in] in *. apply andb_prop in H as [H _].
      rewrite N.eqb_sym in H. rewrite H in Hd. discriminate.
Qed.

(** A text without a double quote. *)
Lemma no_start_plain (k g : str) :
  forallb (fun c => negb (c =? QUOTE)) g = true -> no_start (key_prefix k) g.
Proof. apply no_start_gap. Qed.

Lemma no_start_space (k g : str) :
  forallb isspace g = true -> no_start (key_prefix k) g.
Proof. intros H. now apply no_start_plain, space_no_quote. Qed.

(** A quoted text and the character after it, which is neither of a
    word nor a quote nor a colon. *)
Lemma no_start_quoted (k s : str) (c : char) :
  word_key k = true -> k <> [] ->
  forallb (fun c => negb (c =? QUOTE)) s = true ->
  is_word c || (c =? QUOTE) || (c =? COLON) = false ->
  no_start (key_prefix k) (string_literal s ++ [c]).
Proof.
  intros Hk Hne Hs Hc b.
  apply orb_false_elim in Hc as [Hc Hcolon]. apply orb_false_elim in Hc as [Hw Hq].
  rewrite <- app_assoc.
  rewrite find_quoted; auto.
  - rewrite (@no_start_plain k [c]) by (cbn [forallb]; now rewrite Hq).
    rewrite length_app. cbn [List.length].
    destruct (find _ b); cbn [option_map]; [f_equal; lia | reflexivity].
  - cbn [app starts_in]. now rewrite Hw.
  - right. cbn [app starts_in]. now rewrite Hcolon.
Qed.

(** Another key. *)
Lemma no_start_key (k k' : str) :
  word_key k = true -> k <> [] ->
  word_key k' = true ->
  str_eqb k' k = false ->
  no_start (key_prefix k) (key_prefix k').
Proof.
  intros Hk Hne Hk' Hd b.
  assert (E : key_prefix k' = string_literal k' ++ [COLON]).
  { unfold key_prefix, string_literal. cbn [app]. now rewrite <- app_assoc. }
  rewrite E, <- app_assoc.
  rewrite find_quoted; auto.
  - rewrite (@no_start_plain k [COLON] eq_refl).
    rewrite length_app. cbn [List.length].
    destruct (find _ b); cbn [option_map]; [f_equal; lia | reflexivity].
  - now apply word_no_quote.
Qed.

Lemma plain_item_no_quote (s : str) :
  plain_item s = true -> forallb (fun c => negb (c =? QUOTE)) s = true.
Proof.
  unfold plain_item. intros H. apply andb_prop in H as [H _].
  revert H. apply forallb_weaken. intros c H.
  apply andb_prop in H as [H _]. now apply andb_prop in H as [_ H].
Qed.

Lemma plain_value_no_quote (s : str) :
  plain_value s = true -> forallb (fun c => negb (c =? QUOTE)) s = true.
Proof.
  unfold plain_value. intros H. apply andb_prop in H as [H _].
  revert H. apply forallb_weaken. intros c H.
  apply andb_prop in H as [H _]. now apply andb_prop in H as [_ H].
Qed.

(** A list of string literals. *)
Lemma no_start_list_body (k x : str) (r : list str) :
  word_key k = true -> k <> [] ->
  forallb plain_item (x :: r) = true ->
  no_start (key_prefix k)
    (join [COMMA; SPACE] (map string_literal (x :: r)) ++ [RBRACKET]).
Proof.
  intros Hk Hne. revert x. induction r as [|y r IH]; intros x H;
    cbn [forallb] in H; apply andb_prop in H as [Hx Hr].
  - cbn [map join]. apply no_start_quoted; auto. now apply plain_item_no_quote.
  - change (join [COMMA; SPACE] (map string_literal (x :: y :: r)))
      with (string_literal x
            ++ [COMMA; SPACE] ++ join [COMMA; SPACE] (map string_literal (y :: r))).
    replace ((string_literal x
              ++ [COMMA; SPACE] ++ join [COMMA; SPACE] (map string_literal (y :: r)))
             ++ [RBRACKET])
      with ((string_literal x ++ [COMMA])
            ++ [SPACE]
            ++ (join [COMMA; SPACE] (map string_literal (y :: r)) ++ [RBRACKET]))
      by (rewrite <- !app_assoc; reflexivity).
    apply no_start_app; [|apply no_start_app].
    + apply no_start_quoted; auto. now apply plain_item_no_quote.
    + now apply no_start_plain.
    + now apply IH.
Qed.

Lemma no_start_list (k : str) (items : list str) :
  word_key k = true -> k <> [] ->
  forallb plain_item items = true ->
  no_start (key_prefix k) (list_literal items).
Proof.
  intros Hk Hne H. unfold list_literal.
  change (LBRACKET :: join [COMMA; SPACE] (map string_literal items) ++ [RBRACKET])
    with ([LBRACKET] ++ join [COMMA; SPACE] (map string_literal items) ++ [RBRACKET]).
  apply no_start_app; [now apply no_start_plain|].
  destruct items as [|x r]; [now apply no_start_plain|].
  now apply no_start_list_body.
Qed.

Lemma plain_numeral_facts (rt : runtime) (n : numeral) :
  plain_numeral rt n = true ->
  snd n <> [] /\ forallb isdigit (snd n) = true
  /\ over_digit_limit (int_max_str_digits rt) (List.length (snd n)) = false.
Proof.
  unfold plain_numeral. intros H.
  apply andb_prop in H as [H H3]. apply andb_prop in H as [H1 H2].
  split; [|split; [exact H2 | now apply negb_true_iff]].
  destruct (snd n); [discriminate|discriminate].
Qed.

(** A number. *)
Lemma no_start_numeral (rt : runtime) (k : str) (n : numeral) :
  plain_numeral rt n = true -> no_start (key_prefix k) (written_int n).
Proof.
  intros H. apply plain_numeral_facts in H as (_ & H & _).
  apply no_start_plain. unfold written_int, int_literal.
  assert (Hd : forallb (fun c => negb (c =? QUOTE)) (snd n) = true).
  { revert H. apply forallb_weaken. intros c Hc.
    destruct (isdigit_facts _ Hc) as (_ & _ & _ & _ & _ & _ & _ & Hq).
    unfold char_in, quote_chars in Hq. cbn [existsb] in Hq.
    apply orb_false_elim in Hq as [_ Hq]. apply orb_false_elim in Hq as [Hq _].
    now rewrite Hq. }
  destruct (fst n); [cbn [forallb]; now rewrite Hd | exact Hd].
Qed.

(** The string that ends the object, and what stands before the
    closing brace. *)
Lemma find_none_quoted (k s g rest : str) :
  word_key k = true -> k <> [] ->
  forallb (fun c => negb (c =? QUOTE)) s = true ->
  forallb isspace g = true ->
  find (key_prefix k) rest = None ->
  find (key_prefix k) (string_literal s ++ (g ++ [RBRACE]) ++ rest) = None.
Proof.
  intros Hk Hne Hs Hg Hrest.
  assert (Hc : forall cls : char -> bool,
             cls RBRACE = true -> (forall c, isspace c = true -> cls c = true) ->
             starts_in cls ((g ++ [RBRACE]) ++ rest) = true).
  { intros cls H1 H2. destruct g as [|c g]; [exact H1|].
    cbn [forallb] in Hg. apply andb_prop in Hg as [Hg _]. cbn. auto. }
  rewrite find_quoted; auto.
  - rewrite no_start_absent; auto.
    apply no_start_plain. rewrite forallb_app. now rewrite space_no_quote.
  - apply Hc; [reflexivity|]. intros c H.
    destruct (isspace_plain _ H) as (-> & _). reflexivity.
  - right. apply Hc; [reflexivity|]. intros c H.
    destruct (isspace_plain _ H) as (_ & _ & -> & _). reflexivity.
Qed.

Lemma keys_absent (s key : str) :
  quoted_keys_absent s = true -> In key field_names -> find (key_prefix key) s = None.
Proof.
  unfold quoted_keys_absent. intros H Hin. rewrite forallb_forall in H.
  specialize (H key Hin). now destruct (find (key_prefix key) s).
Qed.

(** ** The members of a written object *)

Lemma extract_int_member (rt : runtime) (a key ws post : str) (n : numeral) :
  no_start (key_prefix key) a ->
  forallb isspace ws = true ->
  value_end post = true ->
  plain_numeral rt n = true ->
  extract_value (a ++ key_prefix key ++ ws ++ written_int n ++ post) key (py_int rt)
  = numeral_value n.
Proof.
  intros Ha Hws Hpost Hn. apply plain_numeral_facts in Hn as (H1 & H2 & H3).
  unfold written_int, numeral_value. apply extract_int_at; auto.
  now apply no_start_found.
Qed.

Lemma extract_str_member (a key ws post s : str) :
  no_start (key_prefix key) a ->
  forallb isspace ws = true ->
  value_end post = true ->
  plain_value s = true ->
  extract_value (a ++ key_prefix key ++ ws ++ string_literal s ++ post) key py_str = s.
Proof.
  intros Ha Hws Hpost Hs. apply extract_str_at; auto. now apply no_start_found.
Qed.

(** After the key, white space and an empty pair of brackets the list
    pattern does not match. *)
Lemma star_empty_list (ws post : str) (k : str -> matcher) :
  forallb isspace ws = true ->
  forall got,
  greedy isspace (fun _ => lit [LBRACKET] (plus_group item_char k)) got
    (ws ++ LBRACKET :: RBRACKET :: post)
  = None.
Proof.
  intros Hws. induction ws as [|c ws IH]; intros got.
  - reflexivity.
  - cbn [forallb] in Hws. apply andb_prop in Hws as [Hc Hws].
    cbn [app greedy]. rewrite Hc, IH by exact Hws.
    cbn [lit]. destruct (isspace_plain _ Hc) as (_ & _ & _ & Hb).
    rewrite N.eqb_sym. now rewrite Hb.
Qed.

Lemma extract_list_member (a key ws post : str) (items : list str) :
  word_key key = true -> key <> [] ->
  no_start (key_prefix key) a ->
  forallb isspace ws = true ->
  forallb plain_item items = true ->
  find (key_prefix key) post = None ->
  extract_list (a ++ key_prefix key ++ ws ++ list_literal items ++ post) key = items.
Proof.
  intros Hk Hne Ha Hws Hitems Hpost.
  pose proof (@no_start_found (key_prefix key) a (ws ++ list_literal items ++ post) Ha)
    as Hf.
  destruct items as [|x r]; [|apply extract_list_at; auto; discriminate].
  unfold extract_list. unfold list_pattern at 1.
  rewrite re_search_skip by exact Hf.
  assert (re_search
            (lit (key_prefix key)
               (star isspace
                  (lit [LBRACKET]
                     (plus_group item_char (fun g => lit [RBRACKET] (fun _ => Some g))))))
            (key_prefix key ++ ws ++ list_literal [] ++ post) = None) as ->;
    [|reflexivity].
  unfold key_prefix at 2. cbn [app re_search].
  change (QUOTE :: key ++ [QUOTE; COLON]) with (key_prefix key).
  change (QUOTE :: (key ++ [QUOTE; COLON]) ++ ws ++ list_literal [] ++ post)
    with (key_prefix key ++ ws ++ list_literal [] ++ post).
  rewrite lit_app. unfold star at 1.
  change (ws ++ list_literal [] ++ post) with (ws ++ LBRACKET :: RBRACKET :: post).
  rewrite star_empty_list by exact Hws.
  apply re_search_absent.
  replace ((key ++ [QUOTE; COLON]) ++ ws ++ LBRACKET :: RBRACKET :: post)
    with (key ++ [QUOTE; COLON] ++ ws ++ [LBRACKET; RBRACKET] ++ post)
    by (rewrite <- !app_assoc; reflexivity).
  apply no_start_absent; [now apply no_start_plain, word_no_quote|].
  change ([QUOTE; COLON] ++ ws ++ [LBRACKET; RBRACKET] ++ post)
    with (QUOTE :: [COLON] ++ ws ++ [LBRACKET; RBRACKET] ++ post).
  rewrite find_step.
  - assert (find (key_prefix key) ([COLON] ++ ws ++ [LBRACKET; RBRACKET] ++ post) = None)
      as ->; [|reflexivity].
    apply no_start_absent; [now apply no_start_plain|].
    apply no_start_absent; [now apply no_start_space|].
    apply no_start_absent; [now apply no_start_plain | exact Hpost].
  - unfold key_prefix. cbn [startswith]. rewrite N.eqb_refl. cbn [andb app].
    now apply word_head.
Qed.

Lemma concat_split (n : nat) (segs : list str) :
  List.concat segs = List.concat (firstn n segs) ++ List.concat (skipn n segs).
Proof. now rewrite <- concat_app, firstn_skipn. Qed.

Ltac piece :=
  first
    [ apply no_start_nil
    | solve [apply no_start_space; assumption]
    | solve [apply no_start_key; [reflexivity | vm_compute; discriminate
                                 | reflexivity | reflexivity]]
    | solve [eapply no_start_numeral; eassumption]
    | solve [apply no_start_list;
             [reflexivity | vm_compute; discriminate | assumption]]
    | solve [apply no_start_plain; reflexivity] ].

Ltac pieces :=
  lazymatch goal with
  | |- no_start _ [] => apply no_start_nil
  | |- no_start _ (_ ++ _) => apply no_start_app; [piece | pieces]
  end.

Ltac absent :=
  lazymatch goal with
  | |- find _ (string_literal _ ++ (_ ++ [RBRACE]) ++ _) = None =>
      apply find_none_quoted;
      [reflexivity | vm_compute; discriminate | assumption | assumption | absent]
  | |- find _ (_ ++ []) = None => rewrite app_nil_r; assumption
  | |- find _ (_ ++ _) = None => apply no_start_absent; [piece | absent]
  end.

(** ** Reading a written analysis back *)

(** X15.  The fallback reads back an analysis that is written as the
    prompt shows it.  Take the six members in the order of the prompt,
    each a quoted key, a colon, white space and its value: the two
    numbers as digits, a minus sign before them or not, the three lists
    as lists of string literals, a comma and a space between two of
    them, the summary as a string literal; white space after the opening
    brace, after each comma and before the closing brace, where it is
    empty or starts with a line feed.  The strings hold none of the
    characters the patterns stop at, and the prose before and after the
    object holds none of the six quoted keys with its colon.  Then the
    fallback dictionary holds exactly the six values, an empty list
    included, and this is what [parse_gemini_response] returns when the
    strict parse of the reply fails with a decode error. *)
Theorem fallback_reads_written_analysis (rt : runtime) (pre post sep ws fin : str)
  (r : written) :
  quoted_keys_absent pre = true ->
  quoted_keys_absent post = true ->
  forallb isspace sep = true ->
  forallb isspace ws = true ->
  forallb isspace fin = true ->
  value_end (fin ++ [RBRACE]) = true ->
  plain_written rt r = true ->
  fallback rt (pre ++ written_analysis sep ws fin r ++ post) = written_value r
  /\ (json_loads rt (clean_text (pre ++ written_analysis sep ws fin r ++ post))
      = Raise JSONDecodeError ->
      parse_gemini_response rt (pre ++ written_analysis sep ws fin r ++ post)
      = Return (written_value r)).
Proof.
  intros Hpre Hpost Hsep Hws Hfin Hend Hr.
  assert (Hfb : fallback rt (pre ++ written_analysis sep ws fin r ++ post)
                = written_value r);
    [|split; [exact Hfb | intros H; rewrite <- Hfb; now apply parse_decode_error]].
  unfold plain_written in Hr.
  apply andb_prop in Hr as [Hr H6]. apply andb_prop in Hr as [Hr H5].
  apply andb_prop in Hr as [Hr H4]. apply andb_prop in Hr as [Hr H3].
  apply andb_prop in Hr as [H1 H2].
  pose proof (plain_value_no_quote _ H6) as H6q.
  assert (Hkeys : forall key, In key field_names ->
            find (key_prefix key) pre = None /\ find (key_prefix key) post = None).
  { intros key Hin. split; now apply keys_absent. }
  destruct (Hkeys (py "match_score")) as [P1 Q1]; [cbn [In field_names]; auto 10|].
  destruct (Hkeys (py "matching_skills")) as [P2 Q2]; [cbn [In field_names]; auto 10|].
  destruct (Hkeys (py "missing_skills")) as [P3 Q3]; [cbn [In field_names]; auto 10|].
  destruct (Hkeys (py "experience")) as [P4 Q4]; [cbn [In field_names]; auto 10|].
  destruct (Hkeys (py "suggestions")) as [P5 Q5]; [cbn [In field_names]; auto 10|].
  destruct (Hkeys (py "summary")) as [P6 Q6]; [cbn [In field_names]; auto 10|].
  clear Hkeys.
  assert (Hopen : forall key, In key field_names -> find (key_prefix key) pre = None ->
            no_start (key_prefix key) (pre ++ [LBRACE])).
  { intros key Hin Hf. apply no_start_prose; [exact Hf|].
    cbn [In field_names] in Hin.
    repeat (destruct Hin as [<- | Hin]; [vm_compute; intuition discriminate|]).
    destruct Hin. }
  pose proof (Hopen (py "match_score") ltac:(cbn [In field_names]; auto 10) P1) as O1.
  pose proof (Hopen (py "matching_skills") ltac:(cbn [In field_names]; auto 10) P2) as O2.
  pose proof (Hopen (py "missing_skills") ltac:(cbn [In field_names]; auto 10) P3) as O3.
  pose proof (Hopen (py "experience") ltac:(cbn [In field_names]; auto 10) P4) as O4.
  pose proof (Hopen (py "suggestions") ltac:(cbn [In field_names]; auto 10) P5) as O5.
  pose proof (Hopen (py "summary") ltac:(cbn [In field_names]; auto 10) P6) as O6.
  clear Hopen.
  set (segs :=
         [ pre ++ [LBRACE]; sep;
           key_prefix (py "match_score"); ws; written_int (r_match_score r);
           [COMMA]; sep;
           key_prefix (py "matching_skills"); ws; list_literal (r_matching_skills r);
           [COMMA]; sep;
           key_prefix (py "missing_skills"); ws; list_literal (r_missing_skills r);
           [COMMA]; sep;
           key_prefix (py "experience"); ws; written_int (r_experience r);
           [COMMA]; sep;
           key_prefix (py "suggestions"); ws; list_literal (r_suggestions r);
           [COMMA]; sep;
           key_prefix (py "summary"); ws; string_literal (r_summary r);
           fin ++ [RBRACE]; post ]).
  assert (Etext : pre ++ written_analysis sep ws fin r ++ post = List.concat segs).
  { unfold written_analysis, member, segs. cbn [List.concat].
    rewrite <- !app_assoc. now rewrite app_nil_r. }
  rewrite Etext. unfold fallback, written_value.
  assert (E1 : extract_value (List.concat segs) (py "match_score") (py_int rt)
               = numeral_value (r_match_score r)).
  { rewrite (concat_split 2 segs). unfold segs. cbn [firstn skipn List.concat].
    apply extract_int_member; [ | assumption | reflexivity | assumption].
    apply no_start_app; [exact O1 | pieces]. }
  assert (E2 : extract_list (List.concat segs) (py "matching_skills") = r_matching_skills r).
  { rewrite (concat_split 7 segs). unfold segs. cbn [firstn skipn List.concat].
    apply extract_list_member;
      [reflexivity | vm_compute; discriminate | | assumption | assumption | absent].
    apply no_start_app; [exact O2 | pieces]. }
  assert (E3 : extract_list (List.concat segs) (py "missing_skills") = r_missing_skills r).
  { rewrite (concat_split 12 segs). unfold segs. cbn [firstn skipn List.concat].
    apply extract_list_member;
      [reflexivity | vm_compute; discriminate | | assumption | assumption | absent].
    apply no_start_app; [exact O3 | pieces]. }
  assert (E4 : extract_value (List.concat segs) (py "experience") (py_int rt)
               = numeral_value (r_experience r)).
  { rewrite (concat_split 17 segs). unfold segs. cbn [firstn skipn List.concat].
    apply extract_int_member; [ | assumption | reflexivity | assumption].
    apply no_start_app; [exact O4 | pieces]. }
  assert (E5 : extract_list (List.concat segs) (py "suggestions") = r_suggestions r).
  { rewrite (concat_split 22 segs). unfold segs. cbn [firstn skipn List.concat].
    apply extract_list_member;
      [reflexivity | vm_compute; discriminate | | assumption | assumption | absent].
    apply no_start_app; [exact O5 | pieces]. }
  assert (E6 : extract_value (List.concat segs) (py "summary") py_str = r_summary r).
  { rewrite (concat_split 27 segs). unfold segs. cbn [firstn skipn List.concat].
    apply extract_str_member; [ | assumption | | assumption].
    - apply no_start_app; [exact O6 | pieces].
    - unfold value_end in *. apply starts_in_app; [|exact Hend].
      destruct fin; discriminate. }
  now rewrite E1, E2, E3, E4, E5, E6.
Qed.

Lemma fallback_reads_written_analysis_witness :
  fallback default_runtime
    (py "Here is the analysis: "
     ++ written_analysis [NEWLINE; SPACE; SPACE] [SPACE] [NEWLINE]
          {| r_match_score := (false, py "75");
             r_matching_skills := [py "Python"; py "ML"];
             r_missing_skills := [];
             r_experience := (false, py "2");
             r_suggestions := [py "Add AWS certification"];
             r_summary := py "Strong technical skills" |}
     ++ py " Let me know if you need more.")
  = written_value
      {| r_match_score := (false, py "75");
         r_matching_skills := [py "Python"; py "ML"];
         r_missing_skills := [];
         r_experience := (false, py "2");
         r_suggestions := [py "Add AWS certification"];
         r_summary := py "Strong technical skills" |}.
Proof.
  exact (proj1 (@fallback_reads_written_analysis default_runtime
                  (py "Here is the analysis: ") (py " Let me know if you need more.")
                  [NEWLINE; SPACE; SPACE] [SPACE] [NEWLINE]
                  {| r_match_score := (false, py "75");
                     r_matching_skills := [py "Python"; py "ML"];
                     r_missing_skills := [];
                     r_experience := (false, py "2");
                     r_suggestions := [py "Add AWS certification"];
                     r_summary := py "Strong technical skills" |}
                  eq_refl eq_refl eq_refl eq_refl eq_refl eq_refl eq_refl)).
Defined.
